(** * Green Mobility (server.js): carpool matching over in-memory lists,
      and the client that talks to it

    A shallow embedding of the Express handlers of [src/server.js]
    (signup, login, publish-ride, search-rides), of the haversine helper
    they share, and of the client functions that compute what the page
    shows and that send the requests, followed by the properties of the
    specification and of the code.

    JavaScript Numbers are IEEE 754 binary64 values: they are modelled by
    Rocq's primitive floats, whose operations the kernel computes and whose
    meaning [FloatAxioms] gives through [SpecFloat].  The transcendental
    functions of [Math] and [Number::toString] belong to the JavaScript
    runtime, not to the repository: they are the fields of the class
    [JSRuntime], with the special values ECMAScript fixes for them.

    The client is modelled on a page reduced to what it reads and writes
    (the text, the class list and the value of the elements it looks up by
    id), with the effects it has outside the page kept in a log.  Its
    functions that only drive the Google Maps objects or build markup
    from a response ([findMatches]) are not modelled.

    The file has two parts: the model (values, built-ins, the program, its
    reachable states, the client), then the proofs (binary64 facts, a
    runtime instance, lemmas, the properties of the specification by
    endpoint, and further properties of the server and of the client). *)

From Stdlib Require Import Floats ZArith Lia Bool List String Ascii DecimalString.
Import ListNotations.

Open Scope string_scope.

(* ================================================================== *)
(** * JavaScript Numbers *)
(* ================================================================== *)

(** Shapes of a Number, read on its specification. *)
Definition finiteSF (x : spec_float) : bool :=
  match x with S754_zero _ | S754_finite _ _ _ => true | _ => false end.

Definition infiniteSF (x : spec_float) : bool :=
  match x with S754_infinity _ => true | _ => false end.

Definition zeroSF (x : spec_float) : bool :=
  match x with S754_zero _ => true | _ => false end.

Definition integerSF (x : spec_float) : bool :=
  match x with
  | S754_zero _ => true
  | S754_finite _ m e => ((0 <=? e) || (Z.pos m mod 2 ^ (- e) =? 0))%Z
  | _ => false
  end.

(** [Number.isFinite]: neither NaN nor an infinity. *)
Definition Number_isFinite (x : float) : bool := finiteSF (Prim2SF x).

(** [Number.isInteger]: finite and without fractional part. *)
Definition Number_isInteger (x : float) : bool := integerSF (Prim2SF x).

(** [Math.PI], [Math.sqrt] (the correctly rounded square root). *)
Definition Math_PI : float := 0x1.921fb54442d18p+1%float.
Definition Math_sqrt : float -> float := PrimFloat.sqrt.

(** The Number nearest to an integer, ties to even. *)
Definition number_of_Z (z : Z) : float :=
  SF2Prim (binary_normalize prec emax z 0 false).

(** The Number nearest to [d * 10^e] for a non-negative integer [d], ties to
    even.  A negative exponent divides: the quotient is taken with at least
    56 significant bits and a sticky bit stands for the remainder. *)
Definition number_of_decimal (d e : Z) : float :=
  if (d =? 0)%Z then 0%float
  else if (0 <=? e)%Z then number_of_Z (d * 10 ^ e)
  else
    let den := (10 ^ (- e))%Z in
    let k := Z.max 0 (Z.log2 den - Z.log2 d + 57) in
    let num := (d * 2 ^ k)%Z in
    let sticky := if (num mod den =? 0)%Z then 0%Z else 1%Z in
    SF2Prim (binary_normalize prec emax (2 * (num / den) + sticky) (- k - 1) false).

(* ================================================================== *)
(** * JavaScript values and the runtime *)
(* ================================================================== *)

(** A value as the handlers meet it: a property of the parsed JSON body
    ([req.body]) or of the parsed query string ([req.query]).  An absent
    property reads as [undefined].  Strings are sequences of code units
    below 256.  An object or array is kept only through what the handlers
    can observe of it: it is truthy, it is identical to no value of another
    request, and [ToString] either gives [repr] or throws a TypeError
    ([None]: an own property shadows [toString]/[valueOf]). *)
Inductive jsval : Type :=
| JUndefined
| JNull
| JBool (b : bool)
| JNum (n : float)
| JStr (s : string)
| JObj (repr : option string).

(** [ToBoolean]: the test behind [!v] and [v && ...]. *)
Definition truthy (v : jsval) : bool :=
  match v with
  | JUndefined | JNull => false
  | JBool b => b
  | JNum n => negb (PrimFloat.is_nan n || PrimFloat.is_zero n)
  | JStr s => negb (String.eqb s "")
  | JObj _ => true
  end.

(** [a === b].  Every comparison of the handlers is between a stored value
    (of an earlier request) and a value of the current request, so two
    objects are never the same object. *)
Definition strict_eq (a b : jsval) : bool :=
  match a, b with
  | JUndefined, JUndefined => true
  | JNull, JNull => true
  | JBool x, JBool y => Bool.eqb x y
  | JNum x, JNum y => PrimFloat.eqb x y
  | JStr x, JStr y => String.eqb x y
  | _, _ => false
  end.

(** The part of the JavaScript runtime the program relies on and the
    repository does not define.  [Math.sin], [Math.cos] and [Math.atan2] are
    implementation-approximated; ECMAScript fixes the special values below.
    Of [Number::toString] (in engines, the shortest numeral that reads back
    as the same Number) only the numeral of NaN is fixed here. *)
Class JSRuntime : Type := {
  Math_sin : float -> float;
  Math_cos : float -> float;
  Math_atan2 : float -> float -> float;
  Number_toString : float -> string;
  sin_nan : Math_sin nan = nan;
  sin_pos_zero : Math_sin 0%float = 0%float;
  sin_neg_zero : Math_sin (-0)%float = (-0)%float;
  cos_nan : Math_cos nan = nan;
  atan2_nan : forall x, Math_atan2 nan x = nan;
  atan2_pos_zero : forall x, (0 <? x)%float = true -> Math_atan2 0%float x = 0%float;
  toString_nan : Number_toString nan = "NaN"
}.

(** Two properties every mainstream engine has (V8 computes both functions
    with fdlibm) and ECMAScript does not promise; the theorems that need
    them say so. *)
Definition sin_is_odd (rt : JSRuntime) : Prop :=
  forall x, Math_sin (- x)%float = (- Math_sin x)%float.

Definition cos_in_range (rt : JSRuntime) : Prop :=
  forall x, Number_isFinite x = true ->
    (-1 <=? Math_cos x)%float = true /\ (Math_cos x <=? 1)%float = true.

(* ================================================================== *)
(** * Reading and writing Numbers *)
(* ================================================================== *)

(** Code units that [TrimString] removes (those below 256). *)
Definition is_whitespace (c : ascii) : bool :=
  let n := nat_of_ascii c in
  ((9 <=? n) && (n <=? 13) || (n =? 32) || (n =? 160))%nat.

Definition digit_value (c : ascii) : option Z :=
  let n := nat_of_ascii c in
  if ((48 <=? n) && (n <=? 57))%nat then Some (Z.of_nat (n - 48)) else None.

Definition hex_digit_value (c : ascii) : option Z :=
  let n := nat_of_ascii c in
  if ((48 <=? n) && (n <=? 57))%nat then Some (Z.of_nat (n - 48))
  else if ((97 <=? n) && (n <=? 102))%nat then Some (Z.of_nat (n - 87))
  else if ((65 <=? n) && (n <=? 70))%nat then Some (Z.of_nat (n - 55))
  else None.

Fixpoint trim_start (s : string) : string :=
  match s with
  | String c rest => if is_whitespace c then trim_start rest else s
  | EmptyString => s
  end.

(** Longest run of digits of the given radix at the front of [s]:
    its value (starting from [acc]), its length, and what follows. *)
Fixpoint scan_digits (digit : ascii -> option Z) (radix : Z)
    (s : string) (acc : Z) (len : nat) : Z * nat * string :=
  match s with
  | String c rest =>
      match digit c with
      | Some v => scan_digits digit radix rest (acc * radix + v) (S len)
      | None => (acc, len, s)
      end
  | EmptyString => (acc, len, s)
  end.

Definition strip_prefix (p s : string) : option string :=
  if String.prefix p s
  then Some (String.substring (String.length p) (String.length s - String.length p) s)
  else None.

(** An optional sign: whether it is a minus, and the rest. *)
Definition scan_sign (s : string) : bool * string :=
  match s with
  | String "-" rest => (true, rest)
  | String "+" rest => (false, rest)
  | _ => (false, s)
  end.

(** [ExponentPart] at the front of [s], when there is a complete one. *)
Definition scan_exponent (s : string) : Z :=
  match s with
  | String c rest =>
      if (Ascii.eqb c "e" || Ascii.eqb c "E")%bool then
        let '(neg, digits) := scan_sign rest in
        let '(v, len, _) := scan_digits digit_value 10 digits 0 0 in
        match len with
        | O => 0%Z
        | _ => if neg then (- v)%Z else v
        end
      else 0%Z
  | EmptyString => 0%Z
  end.

(** [parseFloat] on a string: the longest prefix of the trimmed string that
    is a [StrDecimalLiteral], NaN when there is none. *)
Definition parseFloat_string (input : string) : float :=
  let '(neg, s) := scan_sign (trim_start input) in
  let signed (x : float) := if neg then (- x)%float else x in
  match strip_prefix "Infinity" s with
  | Some _ => signed infinity
  | None =>
      let '(ipart, ilen, after_int) := scan_digits digit_value 10 s 0 0 in
      let '(mant, flen, after_frac) :=
        match after_int with
        | String "." rest => scan_digits digit_value 10 rest ipart 0
        | _ => (ipart, O, after_int)
        end in
      match ilen, flen with
      | O, O => nan
      | _, _ =>
          signed (number_of_decimal mant (scan_exponent after_frac - Z.of_nat flen))
      end
  end.

(** The digits [parseInt] reads when no radix is given: radix 16 after
    [0x] or [0X], radix 10 otherwise. *)
Definition scan_integer (s : string) : Z * nat * string :=
  match s with
  | String "0" (String x rest) =>
      if (Ascii.eqb x "x" || Ascii.eqb x "X")%bool
      then scan_digits hex_digit_value 16 rest 0 0
      else scan_digits digit_value 10 s 0 0
  | _ => scan_digits digit_value 10 s 0 0
  end.

(** [parseInt] on a string. *)
Definition parseInt_string (input : string) : float :=
  let '(neg, s) := scan_sign (trim_start input) in
  let '(v, len, _) := scan_integer s in
  match len with
  | O => nan
  | _ => if neg then (- number_of_Z v)%float else number_of_Z v
  end.

(** The decimal numeral of a natural number: what [toString] gives for an
    integral Number below [10^21], such as a reading of [Date.now()]. *)
Definition decimal_numeral (n : N) : string :=
  NilZero.string_of_uint (N.to_uint n).

(* ================================================================== *)
(** * The program *)
(* ================================================================== *)

(** ** In-memory data structures *)

Module Data.

Record User : Type := mkUser {
  id : string;
  email : jsval;
  password : jsval;
  name : jsval
}.

Record RideRequest : Type := mkRide {
  rideId : string;
  userId : jsval;
  lat : float;
  lng : float;
  destination : jsval;
  transportMode : jsval;
  passengers : float;
  timestamp : N
}.

(** The two arrays of the module, [users] and [rides]. *)
Record Server : Type := mkServer {
  users : list User;
  rides : list RideRequest
}.

Definition initial : Server := {| users := []; rides := [] |}.

(** ** Responses *)

(** One element of [responseMatches]. *)
Module Match.
Record t : Type := mk {
  transportMode : jsval;
  destination : jsval;
  passengers : float;
  distanceKm : string
}.
End Match.

(** The object handed to [res.json]. *)
Inductive payload : Type :=
| ErrorBody (error : string)
| SignupBody (message : string) (user_id : string) (user_name : jsval)
| LoginBody (message : string) (token : string) (name : jsval)
| RideBody (message : string) (rideId : string)
| SearchBody (matches : list Match.t).

Record response : Type := mkResponse {
  status : nat;
  body : payload
}.

(** How a handler ends: it sends a response, or an exception escapes it
    (Express then answers 500). *)
Inductive outcome : Type :=
| Sent (r : response)
| Uncaught.

Definition json (code : nat) (b : payload) : outcome := Sent (mkResponse code b).

End Data.

Import Data.

Section Program.

Context {rt : JSRuntime}.

(** ** Built-ins that need the runtime *)

(** [ToString]; [None] stands for the TypeError it throws. *)
Definition ToString (v : jsval) : option string :=
  match v with
  | JUndefined => Some "undefined"
  | JNull => Some "null"
  | JBool true => Some "true"
  | JBool false => Some "false"
  | JNum n => Some (Number_toString n)
  | JStr s => Some s
  | JObj repr => repr
  end.

Definition parseFloat (v : jsval) : option float :=
  option_map parseFloat_string (ToString v).

Definition parseInt (v : jsval) : option float :=
  option_map parseInt_string (ToString v).

(** The integer [n] for which [n / 10^f - m * 2^e] is closest to zero, the
    larger one when two are as close. *)
Definition nearest_scaled (m : positive) (e : Z) (f : nat) : N :=
  let scaled := (Z.pos m * 10 ^ Z.of_nat f)%Z in
  if (0 <=? e)%Z then Z.to_N (scaled * 2 ^ e)
  else Z.to_N ((2 * scaled + 2 ^ (- e)) / 2 ^ (- e + 1)).

(** The digits of [n] with a point before the last [f] of them, padded
    with zeros on the left up to [f + 1] digits. *)
Definition fixed_point (n : N) (f : nat) : string :=
  let m := decimal_numeral n in
  match f with
  | O => m
  | _ =>
      let m := if (String.length m <=? f)%nat
               then String.concat "" (repeat "0" (f + 1 - String.length m)) ++ m
               else m in
      let k := String.length m in
      String.substring 0 (k - f) m ++ "." ++ String.substring (k - f) f m
  end.

(** [Number.prototype.toFixed]. *)
Definition toFixed (x : float) (fractionDigits : nat) : string :=
  match Prim2SF x with
  | S754_nan | S754_infinity _ => Number_toString x
  | S754_zero _ => fixed_point 0 fractionDigits
  | S754_finite neg m e =>
      let s := if neg then "-" else "" in
      if (1e21 <=? abs x)%float then s ++ Number_toString (abs x)
      else s ++ fixed_point (nearest_scaled m e fractionDigits) fractionDigits
  end.

(** ** Helper functions *)

(** Lines 51-53. *)
Definition deg2rad (deg : float) : float :=
  (deg * (Math_PI / 180))%float.

(** Haversine distance calculation (server.js, lines 39-49). *)
Definition getDistanceFromLatLonInKm (lat1 lon1 lat2 lon2 : float) : float :=
  let R := 6371%float in
  let dLat := deg2rad (lat2 - lat1)%float in
  let dLon := deg2rad (lon2 - lon1)%float in
  let a :=
    (Math_sin (dLat / 2) * Math_sin (dLat / 2) +
     Math_cos (deg2rad lat1) * Math_cos (deg2rad lat2) *
     Math_sin (dLon / 2) * Math_sin (dLon / 2))%float in
  let c := (2 * Math_atan2 (Math_sqrt a) (Math_sqrt (1 - a)))%float in
  (R * c)%float.

(** ** Authentication endpoints *)

(** [POST /api/signup] (lines 62-89) with
    [{ email, password, name } = req.body];
    [now] is the reading of [Date.now()]. *)
Definition signup (now : N) (email password name : jsval) (st : Server)
  : outcome * Server :=
  if negb (truthy email) || negb (truthy password) || negb (truthy name) then
    (json 400 (ErrorBody "All fields (name, email, password) are required."), st)
  else
    let existingUser := find (fun u => strict_eq u.(Data.email) email) st.(users) in
    match existingUser with
    | Some _ =>
        (json 409 (ErrorBody "User already exists with this email."), st)
    | None =>
        let newUser := mkUser (decimal_numeral now) email password name in
        let st' := mkServer (st.(users) ++ [newUser]) st.(rides) in
        (* console.log(` New User Registered: ${email}`) *)
        match ToString email with
        | None => (Uncaught, st')
        | Some _ =>
            (json 201 (SignupBody "Registration successful"
                         newUser.(id) newUser.(Data.name)), st')
        end
    end.

(** [POST /api/login] (lines 95-112) with [{ email, password } = req.body]. *)
Definition login (email password : jsval) (st : Server) : outcome * Server :=
  let user :=
    find (fun u => strict_eq u.(Data.email) email
                   && strict_eq u.(Data.password) password) st.(users) in
  match user with
  | None => (json 401 (ErrorBody "Invalid email or password."), st)
  | Some user =>
      (* console.log(` User Logged In: ${email}`) *)
      match ToString email with
      | None => (Uncaught, st)
      | Some _ =>
          (json 200 (LoginBody "Login successful" user.(id) user.(Data.name)), st)
      end
  end.

(** ** Carpooling endpoints *)

(** [POST /api/rides] (lines 120-142) with
    [{ token, lat, lng, transportMode, passengers, destination } = req.body];
    [now] is the reading of [Date.now()], [stamp] that of [new Date()]. *)
Definition publish (now stamp : N)
    (token lat lng transportMode passengers destination : jsval) (st : Server)
  : outcome * Server :=
  if negb (truthy token) || negb (truthy lat) || negb (truthy lng) then
    (json 400 (ErrorBody "Missing ride details (location or user token)."), st)
  else
    match parseFloat lat, parseFloat lng, parseInt passengers with
    | Some lat', Some lng', Some passengers' =>
        let rideRequest :=
          mkRide (decimal_numeral now) token lat' lng'
                 destination transportMode passengers' stamp in
        let st' := mkServer st.(users) (st.(rides) ++ [rideRequest]) in
        (* console.log(` New Request: ${transportMode} at [${lat}, ${lng}]`) *)
        match ToString transportMode, ToString lat, ToString lng with
        | Some _, Some _, Some _ =>
            (json 201 (RideBody "Ride request published successfully"
                         rideRequest.(Data.rideId)), st')
        | _, _, _ => (Uncaught, st')
        end
    | _, _, _ => (Uncaught, st)
    end.

Definition SEARCH_RADIUS_KM : float := 10.0%float.

(** The callback of [rides.filter]. *)
Definition is_match (userLat userLng : float) (userId : jsval)
    (ride : RideRequest) : bool :=
  if truthy userId && strict_eq ride.(Data.userId) userId then false
  else
    let distance :=
      getDistanceFromLatLonInKm userLat userLng ride.(lat) ride.(lng) in
    (distance <=? SEARCH_RADIUS_KM)%float.

(** The callback of [matches.map]. *)
Definition to_response (userLat userLng : float) (m : RideRequest) : Match.t :=
  {| Match.transportMode := m.(transportMode);
     Match.destination := m.(destination);
     Match.passengers := m.(passengers);
     Match.distanceKm :=
       toFixed (getDistanceFromLatLonInKm userLat userLng m.(lat) m.(lng)) 2 |}.

(** [GET /api/rides/search] (lines 149-179) with
    [{ lat, lng, userId } = req.query]. *)
Definition search (lat lng userId : jsval) (st : Server) : outcome * Server :=
  if negb (truthy lat) || negb (truthy lng) then
    (json 400 (ErrorBody "Latitude and Longitude required for search."), st)
  else
    match parseFloat lat, parseFloat lng with
    | Some userLat, Some userLng =>
        let matches := filter (is_match userLat userLng userId) st.(rides) in
        let responseMatches := map (to_response userLat userLng) matches in
        (json 200 (SearchBody responseMatches), st)
    | _, _ => (Uncaught, st)
    end.

(** ** Requests and reachable states *)

(** One request to one of the four endpoints, with the clock readings the
    handler takes. *)
Inductive request : Type :=
| Signup (now : N) (email password name : jsval)
| Login (email password : jsval)
| Publish (now stamp : N)
    (token lat lng transportMode passengers destination : jsval)
| Search (lat lng userId : jsval).

Definition handle (req : request) (st : Server) : outcome * Server :=
  match req with
  | Signup now email password name => signup now email password name st
  | Login email password => login email password st
  | Publish now stamp token lat lng transportMode passengers destination =>
      publish now stamp token lat lng transportMode passengers destination st
  | Search lat lng userId => search lat lng userId st
  end.

(** The states the process can be in: both arrays start empty and only the
    handlers touch them. *)
Inductive reachable : Server -> Prop :=
| reach_initial : reachable initial
| reach_request st req : reachable st -> reachable (snd (handle req st)).

End Program.

(* ================================================================== *)
(** * Vocabulary of the properties *)
(* ================================================================== *)

(** A ride belongs to the requester when the query names a user and the
    ride's [userId] is that user. *)
Definition owned_by (userId : jsval) (ride : RideRequest) : Prop :=
  truthy userId = true /\ strict_eq ride.(Data.userId) userId = true.

(** [n] hundredths is a value nearest to the non-negative Number [d]:
    [n / 100] is within [1 / 200] of [d]. *)
Definition nearest_hundredths (d : float) (n : N) : Prop :=
  match Prim2SF d with
  | S754_zero _ => n = 0%N
  | S754_finite false m e =>
      if (0 <=? e)%Z then Z.of_N n = (Z.pos m * 100 * 2 ^ e)%Z
      else (2 * Z.abs (Z.of_N n * 2 ^ (- e) - Z.pos m * 100) <= 2 ^ (- e))%Z
  | _ => False
  end.

(** No two stored users have strictly equal emails. *)
Fixpoint distinct_emails (us : list User) : Prop :=
  match us with
  | [] => True
  | u :: rest =>
      (forall v, In v rest -> strict_eq u.(email) v.(email) = false)
      /\ distinct_emails rest
  end.

Definition users_ok (us : list User) : Prop :=
  Forall (fun u => truthy u.(email) = true) us /\ distinct_emails us.

(* ================================================================== *)
(** * Sequences of requests *)
(* ================================================================== *)

Section Sequences.

Context {rt : JSRuntime}.

(** The state after a sequence of requests, served one after the other. *)
Definition run (reqs : list request) (st : Server) : Server :=
  fold_left (fun s req => snd (handle req s)) reqs st.

End Sequences.

(** A value other than an object or an array. *)
Definition primitive (v : jsval) : bool :=
  match v with JObj _ => false | _ => true end.

(** A request all of whose fields are primitives (or absent). *)
Definition primitive_request (req : request) : bool :=
  match req with
  | Signup _ email password name =>
      primitive email && primitive password && primitive name
  | Login email password => primitive email && primitive password
  | Publish _ _ token lat lng transportMode passengers destination =>
      primitive token && primitive lat && primitive lng
      && primitive transportMode && primitive passengers && primitive destination
  | Search lat lng userId => primitive lat && primitive lng && primitive userId
  end.

(* ================================================================== *)
(** * The browser side of the runtime *)
(* ================================================================== *)

(** [Math.floor]: the largest integer not above [x]; NaN, the infinities
    and the zeros are returned as they are. *)
Definition Math_floor (x : float) : float :=
  match Prim2SF x with
  | S754_finite s m e =>
      if (0 <=? e)%Z then x
      else
        let z := ((if s then Z.neg m else Z.pos m) / 2 ^ (- e))%Z in
        if (z =? 0)%Z then 0%float else number_of_Z z
  | _ => x
  end.

(** [TrimString] on both ends. *)
Definition trim (s : string) : string :=
  let fix drop (l : list ascii) : list ascii :=
    match l with
    | c :: rest => if is_whitespace c then drop rest else l
    | [] => []
    end in
  string_of_list_ascii (rev (drop (rev (list_ascii_of_string (trim_start s))))).

(** What may follow the digits of a [StrUnsignedDecimalLiteral]: nothing, or
    one complete [ExponentPart]; its value. *)
Definition scan_exponent_part (s : string) : option Z :=
  match s with
  | EmptyString => Some 0%Z
  | String c rest =>
      if (Ascii.eqb c "e" || Ascii.eqb c "E")%bool then
        let '(neg, digits) := scan_sign rest in
        let '(v, len, after) := scan_digits digit_value 10 digits 0 0 in
        match len, after with
        | S _, EmptyString => Some (if neg then (- v)%Z else v)
        | _, _ => None
        end
      else None
  end.

Definition octal_digit_value (c : ascii) : option Z :=
  let n := nat_of_ascii c in
  if ((48 <=? n) && (n <=? 55))%nat then Some (Z.of_nat (n - 48)) else None.

Definition binary_digit_value (c : ascii) : option Z :=
  let n := nat_of_ascii c in
  if ((48 <=? n) && (n <=? 49))%nat then Some (Z.of_nat (n - 48)) else None.

(** The digits of a [NonDecimalIntegerLiteral], which must be all of [s]. *)
Definition radix_literal (digit : ascii -> option Z) (radix : Z) (s : string) : float :=
  let '(v, len, after) := scan_digits digit radix s 0 0 in
  match len, after with
  | S _, EmptyString => number_of_Z v
  | _, _ => nan
  end.

(** [StringToNumber]: what [ToNumber] does to a string, as in
    [totalEmissions - busEmissions].  Unlike [parseFloat], the whole
    trimmed string must be a numeral, and the empty string is [+0]. *)
Definition StringToNumber (input : string) : float :=
  let s := trim input in
  let decimal :=
    let '(neg, u) := scan_sign s in
    let signed (x : float) := if neg then (- x)%float else x in
    if String.eqb u "Infinity" then signed infinity
    else
      let '(ipart, ilen, after_int) := scan_digits digit_value 10 u 0 0 in
      let '(mant, flen, after_frac) :=
        match after_int with
        | String "." rest => scan_digits digit_value 10 rest ipart 0
        | _ => (ipart, O, after_int)
        end in
      match ilen, flen with
      | O, O => nan
      | _, _ =>
          match scan_exponent_part after_frac with
          | Some x => signed (number_of_decimal mant (x - Z.of_nat flen))
          | None => nan
          end
      end in
  match s with
  | EmptyString => 0%float
  | String "0" (String x rest) =>
      if (Ascii.eqb x "x" || Ascii.eqb x "X")%bool then radix_literal hex_digit_value 16 rest
      else if (Ascii.eqb x "o" || Ascii.eqb x "O")%bool then radix_literal octal_digit_value 8 rest
      else if (Ascii.eqb x "b" || Ascii.eqb x "B")%bool then radix_literal binary_digit_value 2 rest
      else decimal
  | _ => decimal
  end.

(* ================================================================== *)
(** * The client *)
(* ================================================================== *)

Module Client.

(** ** The page and the global state *)

(** An element of the page, through what the client reads and writes of
    it.  [classList] is a [DOMTokenList]: an ordered set of tokens. *)
Record Element : Type := mkElement {
  innerText : string;
  classList : list string;
  value : string
}.

Definition contains (token : string) (tokens : list string) : bool :=
  existsb (String.eqb token) tokens.

Definition add (token : string) (tokens : list string) : list string :=
  if contains token tokens then tokens else (tokens ++ [token])%list.

Definition remove (token : string) (tokens : list string) : list string :=
  filter (fun t => negb (String.eqb t token)) tokens.

(** A [google.maps.LatLng], read through [lat()] and [lng()]. *)
Record LatLng : Type := mkLatLng {
  lat : float;
  lng : float
}.

(** [appState] (lines 198-205). *)
Record AppState : Type := mkAppState {
  token : jsval;
  user : option payload;
  originPlace : option LatLng;
  destinationPlace : option LatLng;
  transportMode : string;
  routeDistanceKm : float
}.

(** What the client does to the world outside the page. *)
Inductive effect : Type :=
| Alert (message : string)
| ConsoleError
| MapResize
| Call (function : string).

(** The browser tab and the server it talks to: the elements by id, the
    global state, whether [map] is set, the effects so far (latest last),
    the backend, and whether requests reach it. *)
Record World : Type := mkWorld {
  document : string -> option Element;
  appState : AppState;
  map : bool;
  effects : list effect;
  backend : Server;
  online : bool
}.

(** ** Statements that may throw *)

Inductive result (A : Type) : Type :=
| Ok (a : A)
| Throw.
Arguments Ok {A} a.
Arguments Throw {A}.

Definition action (A : Type) : Type := World -> result A * World.

Definition ret {A : Type} (a : A) : action A := fun w => (Ok a, w).

Definition bind {A B : Type} (m : action A) (k : A -> action B) : action B :=
  fun w =>
    match m w with
    | (Ok a, w') => k a w'
    | (Throw, w') => (Throw, w')
    end.

Definition throw {A : Type} : action A := fun w => (Throw, w).

(** [try { body } catch { handler }]. *)
Definition try_catch (body handler : action unit) : action unit :=
  fun w =>
    match body w with
    | (Ok a, w') => (Ok a, w')
    | (Throw, w') => handler w'
    end.

Declare Scope action_scope.
Delimit Scope action_scope with action.
Bind Scope action_scope with action.
Notation "x <- m ;; k" := (bind m (fun x => k))
  (at level 61, m at next level, right associativity) : action_scope.
Notation "m ;; k" := (bind m (fun _ => k))
  (at level 61, right associativity) : action_scope.

Local Open Scope action_scope.

Definition get : action World := fun w => (Ok w, w).

Definition log (e : effect) : action unit :=
  fun w => (Ok tt, mkWorld w.(document) w.(appState) w.(map)
                     (w.(effects) ++ [e]) w.(backend) w.(online)).

Definition alert (message : string) : action unit := log (Alert message).

Definition set_appState (a : AppState) : action unit :=
  fun w => (Ok tt, mkWorld w.(document) a w.(map) w.(effects) w.(backend) w.(online)).

(** [document.getElementById(id)] followed by a property access, which
    throws a TypeError on [null]. *)
Definition element (id : string) : action Element :=
  fun w =>
    match w.(document) id with
    | Some el => (Ok el, w)
    | None => (Throw, w)
    end.

(** The page with the element [id] replaced. *)
Definition put (id : string) (el : Element) (d : string -> option Element)
  : string -> option Element :=
  fun k => if String.eqb k id then Some el else d k.

Definition update (id : string) (f : Element -> Element) : action unit :=
  el <- element id ;;
  fun w =>
    (Ok tt, mkWorld (put id (f el) w.(document))
              w.(appState) w.(map) w.(effects) w.(backend) w.(online)).

Definition set_innerText (id text : string) : action unit :=
  update id (fun el => mkElement text el.(classList) el.(value)).

Definition classList_add (id token : string) : action unit :=
  update id (fun el => mkElement el.(innerText) (add token el.(classList)) el.(value)).

Definition classList_remove (id : string) (tokens : list string) : action unit :=
  update id (fun el =>
    mkElement el.(innerText) (fold_left (fun l t => remove t l) tokens el.(classList))
              el.(value)).

Section Functions.

Context {rt : JSRuntime}.

(** The string an assignment to [innerText] stores: [ToString] of the
    value, and the empty string for [null]. *)
Definition DOMString (v : jsval) : option string :=
  match v with
  | JNull => Some ""
  | _ => ToString v
  end.

Definition assign_innerText (id : string) (v : jsval) : action unit :=
  match DOMString v with
  | Some text => set_innerText id text
  | None => _ <- element id ;; throw
  end.

(** ** Eco-calculations *)

Set Warnings "-inexact-float".
Definition FACTOR_CAR_GAS : float := 0.192%float.
Definition FACTOR_BUS : float := 0.05%float.
Set Warnings "inexact-float".
Definition FACTOR_BIKE_WALK : float := 0.0%float.

(** [calculateCarbonFootprint] (lines 332-368). *)
Definition calculateCarbonFootprint : action unit :=
  w <- get ;;
  let dist := w.(appState).(routeDistanceKm) in
  let mode := w.(appState).(transportMode) in
  let factor :=
    if String.eqb mode "DRIVING" then FACTOR_CAR_GAS
    else if String.eqb mode "TRANSIT" then FACTOR_BUS
    else if String.eqb mode "BICYCLING" || String.eqb mode "WALKING"
         then FACTOR_BIKE_WALK
    else 0%float in
  let totalEmissions := toFixed (dist * factor) 2 in
  set_innerText "metric-co2" (totalEmissions ++ " kg") ;;
  if String.eqb mode "DRIVING" then
    let busEmissions := (dist * FACTOR_BUS)%float in
    let saving :=
      toFixed ((StringToNumber totalEmissions - busEmissions)
               / StringToNumber totalEmissions * 100)%float 0 in
    set_innerText "co2-comparison" ("Could save " ++ saving ++ "% by Bus") ;;
    classList_remove "metric-co2" ["good"] ;;
    classList_add "metric-co2" "bad"
  else
    set_innerText "co2-comparison" "Excellent Choice!" ;;
    classList_remove "metric-co2" ["bad"] ;;
    classList_add "metric-co2" "good".

(** [fetchAirQualityData] (lines 375-394); [random] is what
    [Math.random()] returns.  The argument [latLng] is not used. *)
Definition fetchAirQualityData (random : float) : action unit :=
  let mockAQI := (Math_floor (random * 140) + 20)%float in
  set_innerText "metric-aqi" (Number_toString mockAQI) ;;
  classList_remove "metric-aqi" ["good"; "bad"] ;;
  if (mockAQI <? 50)%float then
    el <- element "metric-aqi" ;;
    set_innerText "metric-aqi" (el.(innerText) ++ " (Good)") ;;
    classList_add "metric-aqi" "good"
  else if (100 <? mockAQI)%float then
    el <- element "metric-aqi" ;;
    set_innerText "metric-aqi" (el.(innerText) ++ " (Unhealthy)") ;;
    classList_add "metric-aqi" "bad"
  else
    el <- element "metric-aqi" ;;
    set_innerText "metric-aqi" (el.(innerText) ++ " (Moderate)").

(** ** Sections of the page *)

(** [switchSection] (lines 565-578). *)
Definition switchSection (sectionId : string) : action unit :=
  classList_remove "welcome-section" ["active-section"; "hidden"] ;;
  classList_add "welcome-section" "hidden" ;;
  classList_add "dashboard-section" "hidden" ;;
  classList_remove sectionId ["hidden"] ;;
  (if String.eqb sectionId "welcome-section"
   then classList_add sectionId "active-section" else ret tt) ;;
  w <- get ;;
  if String.eqb sectionId "dashboard-section" && w.(map)
  then log MapResize else ret tt.

(** ** Requests to the backend *)

(** [fetch]: the request is served by the backend, or the promise is
    rejected when the backend cannot be reached. *)
Definition fetch (req : request) : action outcome :=
  fun w =>
    if w.(online) then
      let '(out, st) := handle req w.(backend) in
      (Ok out, mkWorld w.(document) w.(appState) w.(map) w.(effects) st w.(online))
    else (Throw, w).

(** [response.ok]: a status from 200 to 299.  An exception that escaped
    the handler is answered 500 by Express. *)
Definition ok (res : outcome) : bool :=
  match res with
  | Sent r => ((200 <=? r.(status)) && (r.(status) <=? 299))%nat
  | Uncaught => false
  end.

(** [await response.json()]: the error page of a 500 is not JSON. *)
Definition res_json (res : outcome) : action payload :=
  match res with
  | Sent r => ret r.(body)
  | Uncaught => throw
  end.

(** [data.token], [data.name], [data.error]. *)
Definition data_token (data : payload) : jsval :=
  match data with LoginBody _ t _ => JStr t | _ => JUndefined end.

Definition data_name (data : payload) : jsval :=
  match data with LoginBody _ _ n => n | _ => JUndefined end.

Definition data_error (data : payload) : jsval :=
  match data with ErrorBody e => JStr e | _ => JUndefined end.

(** A property value after [JSON.stringify] and the server's
    [JSON.parse]: a Number that is not finite becomes [null], the sign of
    zero is lost, an absent or [undefined] property reads [undefined],
    every other value reads back as it was. *)
Definition json_value (v : jsval) : jsval :=
  match v with
  | JNum n =>
      if Number_isFinite n
      then (if PrimFloat.is_zero n then JNum 0 else JNum n)
      else JNull
  | _ => v
  end.

(** [performLogin] (lines 515-537). *)
Definition performLogin : action unit :=
  email <- element "login-email" ;;
  password <- element "login-password" ;;
  try_catch
    (res <- fetch (Login (JStr email.(value)) (JStr password.(value))) ;;
     data <- res_json res ;;
     if ok res then
       w <- get ;;
       let a := w.(appState) in
       set_appState (mkAppState (data_token data) (Some data) a.(originPlace)
                       a.(destinationPlace) a.(transportMode) a.(routeDistanceKm)) ;;
       assign_innerText "user-name-display" (data_name data) ;;
       switchSection "dashboard-section"
     else
       assign_innerText "auth-feedback" (data_error data))
    (log ConsoleError).

(** [performLogout] (lines 547-550). *)
Definition performLogout : action unit :=
  w <- get ;;
  let a := w.(appState) in
  set_appState (mkAppState JNull a.(user) a.(originPlace) a.(destinationPlace)
                  a.(transportMode) a.(routeDistanceKm)) ;;
  switchSection "welcome-section".

(** [publishRideRequest] (lines 398-435); [now] and [stamp] are the clock
    readings of the server.  [findMatches] and [handleNotificationSetup]
    are started and not awaited: they are recorded as calls. *)
Definition publishRideRequest (now stamp : N) : action unit :=
  w <- get ;;
  let a := w.(appState) in
  if negb (truthy a.(token)) then alert "You must be logged in to use Carpooling."
  else
    match a.(originPlace) with
    | None => alert "Please set a location on the dashboard first."
    | Some place =>
        mode <- element "cp-role" ;;
        seats <- element "cp-seats" ;;
        let lat := place.(lat) in
        let lng := place.(lng) in
        try_catch
          (destination <- element "destination-input" ;;
           response <-
             fetch (Publish now stamp (json_value a.(token))
                      (json_value (JNum lat)) (json_value (JNum lng))
                      (JStr mode.(value)) (JStr seats.(value))
                      (JStr destination.(value))) ;;
           if ok response then
             alert "Ride Request Published!" ;;
             log (Call "findMatches") ;;
             log (Call "handleNotificationSetup")
           else ret tt)
          (log ConsoleError)
    end.

End Functions.

End Client.

(* ================================================================== *)
(** * A coarse runtime *)
(* ================================================================== *)

(** Functions from which an inhabitant of [JSRuntime] is built further
    down, from binary64 arithmetic alone: small-angle series for the three
    functions of [Math] and the exact decimal expansion for
    [Number::toString].  They are not the runtime of any engine; they show
    that the interface can be met and let the handlers be run on concrete
    requests. *)
Module Coarse.

Open Scope float_scope.

Definition sin (x : float) : float :=
  let t := x * x in
  x * (1 - t / 6 + t * t / 120).

Definition cos (x : float) : float :=
  if Number_isFinite x then
    let t := x * x in
    let y := 1 - t / 2 + t * t / 24 - t * t * t / 720 in
    if y <=? 1 then (if -1 <=? y then y else -1) else 1
  else nan.

Definition atan (t : float) : float :=
  let u := t * t in
  t * (1 - u / 3 + u * u / 5).

Definition atan2 (y x : float) : float :=
  if is_nan y || is_nan x then nan
  else if 0 <? x then atan (y / x)
  else if x <? 0 then
    (if y <? 0 then atan (y / x) - Math_PI else atan (y / x) + Math_PI)
  else if 0 <? y then Math_PI / 2
  else if y <? 0 then - (Math_PI / 2)
  else y.

Fixpoint strip_zeros (fuel : nat) (s : string) : string :=
  match fuel with
  | O => s
  | S fuel' =>
      let k := String.length s in
      match String.get (k - 1) s with
      | Some "0"%char => strip_zeros fuel' (String.substring 0 (k - 1) s)
      | Some "."%char => String.substring 0 (k - 1) s
      | _ => s
      end
  end.

(** The exact decimal expansion of [m * 2^e]. *)
Definition expansion (m : positive) (e : Z) : string :=
  if (0 <=? e)%Z then decimal_numeral (Z.to_N (Z.pos m * 2 ^ e))
  else
    let k := Z.to_nat (- e) in
    let s := fixed_point (Z.to_N (Z.pos m * 5 ^ (- e))) k in
    strip_zeros (S k) s.

Definition toString (x : float) : string :=
  match Prim2SF x with
  | S754_nan => "NaN"
  | S754_infinity false => "Infinity"
  | S754_infinity true => "-Infinity"
  | S754_zero _ => "0"
  | S754_finite s m e => ((if s then "-" else "") ++ expansion m e)%string
  end.

End Coarse.

(** ** Sample states *)

(** A server that has registered one user. *)
Definition ann : User :=
  mkUser "1730000000000" (JStr "ann@example.org") (JStr "secret") (JStr "Ann").

Definition one_user : Server := {| users := [ann]; rides := [] |}.

(** A server with two published rides, used to run the handlers. *)
Definition two_rides : Server :=
  {| users := [];
     rides :=
       [ mkRide "1730000000123" (JStr "u1") 12.5 77.5
                (JStr "Airport") (JStr "DRIVER") 3 1730000000123;
         mkRide "1730000000999" (JStr "u2") 12.53125 77.5
                (JStr "Mall") (JStr "RIDER") 2 1730000000999 ] |}.

(** ** A sample page *)

Definition blank (classes : list string) (value : string) : Client.Element :=
  Client.mkElement "" classes value.

(** The elements the client looks up, as the page shows them first. *)
Definition sample_page : string -> option Client.Element :=
  fold_right (fun entry d => Client.put (fst entry) (snd entry) d) (fun _ => None)
    [ ("welcome-section", blank ["active-section"] "");
      ("dashboard-section", blank ["hidden"] "");
      ("login-email", blank [] "ann@example.org");
      ("login-password", blank [] "secret");
      ("auth-feedback", blank [] "");
      ("user-name-display", blank [] "");
      ("metric-co2", blank ["metric"; "good"] "");
      ("co2-comparison", blank [] "");
      ("metric-aqi", blank ["metric"] "");
      ("cp-role", blank [] "DRIVER");
      ("cp-seats", blank [] "3");
      ("destination-input", blank [] "Airport") ].

(** A tab on the sample page, in front of the server that knows Ann. *)
Definition sample_world (a : Client.AppState) : Client.World :=
  Client.mkWorld sample_page a false [] one_user true.

Definition signed_out : Client.AppState :=
  Client.mkAppState JNull None None None "DRIVING" 0.

Definition signed_in (place : option Client.LatLng) (mode : string) (km : float)
  : Client.AppState :=
  Client.mkAppState (JStr "1730000000000")
    (Some (LoginBody "Login successful" "1730000000000" (JStr "Ann")))
    place None mode km.

(* ================================================================== *)
(** * Facts about binary64 arithmetic *)
(* ================================================================== *)

Module F64.

Open Scope float_scope.

(** [x] is [+0] or [-0]. *)
Definition zero_like (x : float) : bool := zeroSF (Prim2SF x).

Lemma by_spec (x y : float) : Prim2SF x = Prim2SF y -> x = y.
Proof. apply Prim2SF_inj. Qed.

Lemma nan_spec (x : float) : Prim2SF x = S754_nan -> x = nan.
Proof. intros H. apply by_spec. rewrite H. reflexivity. Qed.

Lemma pos_zero_spec (x : float) : Prim2SF x = S754_zero false -> x = 0.
Proof. intros H. apply by_spec. rewrite H. reflexivity. Qed.

Lemma neg_zero_spec (x : float) : Prim2SF x = S754_zero true -> x = (-0).
Proof. intros H. apply by_spec. rewrite H. reflexivity. Qed.

Ltac to_spec :=
  apply by_spec;
  repeat first [ rewrite mul_spec | rewrite add_spec | rewrite sub_spec
               | rewrite div_spec | rewrite sqrt_spec | rewrite opp_spec ];
  unfold SF64mul, SF64add, SF64sub, SF64div, SF64sqrt.

(** ** NaN is absorbing *)

Lemma mul_nan_l x : nan * x = nan.
Proof. to_spec. reflexivity. Qed.

Lemma mul_nan_r x : x * nan = nan.
Proof. to_spec. cbn. destruct (Prim2SF x); reflexivity. Qed.

Lemma add_nan_l x : nan + x = nan.
Proof. to_spec. reflexivity. Qed.

Lemma add_nan_r x : x + nan = nan.
Proof. to_spec. cbn. destruct (Prim2SF x); reflexivity. Qed.

Lemma sub_nan_l x : nan - x = nan.
Proof. to_spec. reflexivity. Qed.

Lemma sub_nan_r x : x - nan = nan.
Proof. to_spec. cbn. destruct (Prim2SF x); reflexivity. Qed.

Lemma leb_nan_l x : (nan <=? x) = false.
Proof. rewrite leb_spec. reflexivity. Qed.

(** ** Sign symmetry of rounding *)

Lemma round_aux_negb s m e l :
  binary_round_aux prec emax (negb s) m e l
  = SFopp (binary_round_aux prec emax s m e l).
Proof.
  unfold binary_round_aux.
  destruct (shr_fexp prec emax m e l) as [r1 e1].
  destruct (shr_fexp prec emax _ e1 loc_Exact) as [r2 e2].
  destruct (shr_m r2); try reflexivity.
  destruct (Z.leb e2 (emax - prec)); reflexivity.
Qed.

Lemma round_aux_sign s m e l :
  binary_round_aux prec emax s m e l
  = (if s then SFopp (binary_round_aux prec emax false m e l)
     else binary_round_aux prec emax false m e l).
Proof. destruct s; [apply (round_aux_negb false)|reflexivity]. Qed.

Lemma opp_opp x : - - x = x.
Proof.
  to_spec. destruct (Prim2SF x) as [s|s| |s m e]; cbn;
    rewrite ?negb_involutive; reflexivity.
Qed.

Lemma SFmul_opp_l x y :
  SFmul prec emax (SFopp x) y = SFopp (SFmul prec emax x y).
Proof.
  destruct x as [sx|sx| |sx mx ex], y as [sy|sy| |sy my ey]; cbn;
    try reflexivity; try (destruct sx, sy; reflexivity).
  rewrite <- round_aux_negb. destruct sx, sy; reflexivity.
Qed.

Lemma SFmul_comm x y : SFmul prec emax x y = SFmul prec emax y x.
Proof.
  destruct x as [sx|sx| |sx mx ex], y as [sy|sy| |sy my ey]; cbn;
    try reflexivity; try (rewrite xorb_comm; reflexivity).
  rewrite xorb_comm, Pos.mul_comm, Z.add_comm. reflexivity.
Qed.

Lemma mul_comm x y : x * y = y * x.
Proof. to_spec. apply SFmul_comm. Qed.

Lemma mul_opp_l x y : (- x) * y = - (x * y).
Proof. to_spec. apply SFmul_opp_l. Qed.

Lemma mul_opp_r x y : x * (- y) = - (x * y).
Proof. rewrite (mul_comm x (- y)), mul_opp_l, (mul_comm y x). reflexivity. Qed.

Lemma mul_opp_opp x y : (- x) * (- y) = x * y.
Proof. rewrite mul_opp_l, mul_opp_r. apply opp_opp. Qed.

Lemma div_opp_l x y : (- x) / y = - (x / y).
Proof.
  to_spec.
  destruct (Prim2SF x) as [sx|sx| |sx mx ex], (Prim2SF y) as [sy|sy| |sy my ey];
    cbn; try reflexivity; try (destruct sx, sy; reflexivity).
  destruct (SFdiv_core_binary prec emax (Z.pos mx) ex (Z.pos my) ey) as [[mz ez] lz].
  rewrite <- round_aux_negb. destruct sx, sy; reflexivity.
Qed.

(** ** Subtraction is antisymmetric up to the sign of zero *)

Lemma binary_round_negb s m e :
  binary_round prec emax (negb s) m e = SFopp (binary_round prec emax s m e).
Proof.
  unfold binary_round. destruct (shl_align m e _) as [mz ez].
  apply round_aux_negb.
Qed.

Lemma binary_normalize_opp m e :
  m <> 0%Z ->
  binary_normalize prec emax (- m) e false
  = SFopp (binary_normalize prec emax m e false).
Proof.
  destruct m as [|p|p]; intros Hm; [congruence| |]; cbn.
  - apply (binary_round_negb false).
  - rewrite <- (binary_round_negb true). reflexivity.
Qed.

Lemma SFsub_swap x y :
  SFsub prec emax y x = SFopp (SFsub prec emax x y)
  \/ (SFsub prec emax x y = S754_zero false
      /\ SFsub prec emax y x = S754_zero false).
Proof.
  destruct x as [sx|sx| |sx mx ex], y as [sy|sy| |sy my ey]; cbn;
    try (left; reflexivity);
    try (destruct sx, sy; cbn; (left; reflexivity) || (right; split; reflexivity)).
  rewrite (Z.min_comm ey ex).
  set (a := cond_Zopp sx _). set (b := cond_Zopp sy _).
  destruct (Z.eq_dec (a - b) 0) as [E|E].
  - right. replace (b - a)%Z with 0%Z by lia. rewrite E. split; reflexivity.
  - left. replace (b - a)%Z with (- (a - b))%Z by lia.
    apply binary_normalize_opp. exact E.
Qed.

Lemma sub_swap x y : y - x = - (x - y) \/ (x - y = 0 /\ y - x = 0).
Proof.
  destruct (SFsub_swap (Prim2SF x) (Prim2SF y)) as [H|[H1 H2]].
  - left. to_spec. exact H.
  - right. split; apply pos_zero_spec; rewrite sub_spec; assumption.
Qed.

Lemma sub_diag x : Number_isFinite x = true -> x - x = 0.
Proof.
  unfold Number_isFinite. intros H. apply pos_zero_spec. rewrite sub_spec.
  unfold SF64sub. destruct (Prim2SF x) as [s|s| |s m e]; try discriminate; cbn.
  - destruct s; reflexivity.
  - rewrite Z.sub_diag. reflexivity.
Qed.

(** ** Products that cannot overflow *)

Lemma digits2_size p : digits2_pos p = Pos.size p.
Proof. induction p; cbn; congruence. Qed.

Lemma digits_upper p : (Z.pos p < 2 ^ Z.pos (digits2_pos p))%Z.
Proof.
  rewrite digits2_size. pose proof (Pos.size_gt p) as H.
  rewrite <- Pos2Z.inj_pow. lia.
Qed.

Lemma digits_lower p : (2 ^ Z.pos (digits2_pos p) <= 2 * Z.pos p)%Z.
Proof.
  rewrite digits2_size. pose proof (Pos.size_le p) as H.
  rewrite <- Pos2Z.inj_pow. lia.
Qed.

Lemma digits_below_pow p k :
  (0 <= k)%Z -> (Z.pos p < 2 ^ k)%Z -> (Z.pos (digits2_pos p) <= k)%Z.
Proof.
  intros Hk Hp. pose proof (digits_lower p) as Hl.
  assert (H : (2 ^ Z.pos (digits2_pos p) < 2 ^ (k + 1))%Z).
  { rewrite Z.pow_add_r by lia. lia. }
  apply Z.pow_lt_mono_r_iff in H; lia.
Qed.

Lemma digits_mul p q :
  (Z.pos (digits2_pos (p * q)) <= Z.pos (digits2_pos p) + Z.pos (digits2_pos q))%Z.
Proof.
  apply digits_below_pow; [lia|].
  rewrite Z.pow_add_r by lia. rewrite Pos2Z.inj_mul.
  pose proof (digits_upper p). pose proof (digits_upper q). nia.
Qed.

Lemma Zdigits2_succ m :
  (0 <= m)%Z -> (Zdigits2 (m + 1) <= Zdigits2 m + 1)%Z.
Proof.
  intros Hm. destruct m as [|p|p]; [cbn; lia| |lia].
  replace (Z.pos p + 1)%Z with (Z.pos (p + 1)) by lia. cbn [Zdigits2].
  apply digits_below_pow; [lia|].
  pose proof (digits_upper p). rewrite Z.pow_add_r by lia. lia.
Qed.

Lemma Zdigits2_nonneg m : (0 <= Zdigits2 m)%Z.
Proof. destruct m; cbn; lia. Qed.

(** Shifting right drops one binary digit per step. *)
Definition shr_shape (k : Z) (r : shr_record) : Prop :=
  (0 <= shr_m r)%Z /\ Zdigits2 (shr_m r) = Z.max 0 k.

Lemma shr_1_shape k r : shr_shape k r -> shr_shape (k - 1) (shr_1 r).
Proof.
  destruct r as [m r s]. unfold shr_shape. cbn [shr_m shr_1].
  destruct m as [|[p|p|]|p]; cbn [shr_m Zdigits2 digits2_pos]; lia.
Qed.

Lemma iter_shr_1_shape p : forall k r,
  shr_shape k r -> shr_shape (k - Z.pos p) (SpecFloat.iter_pos shr_1 p r).
Proof.
  induction p as [p IH|p IH|]; intros k r H; cbn [SpecFloat.iter_pos].
  - replace (k - Z.pos p~1)%Z with (k - 1 - Z.pos p - Z.pos p)%Z by lia.
    apply IH, IH, shr_1_shape, H.
  - replace (k - Z.pos p~0)%Z with (k - Z.pos p - Z.pos p)%Z by lia.
    apply IH, IH, H.
  - apply shr_1_shape, H.
Qed.

Lemma shr_record_of_loc_m m l : shr_m (shr_record_of_loc m l) = m.
Proof. destruct l as [|[]]; reflexivity. Qed.

(** What [shr_fexp] does to a non-negative mantissa: the exponent rises to
    the format's, and as many digits go. *)
Lemma shr_fexp_shape m e l :
  (0 <= m)%Z ->
  let r := shr_fexp prec emax m e l in
  snd r = Z.max e (fexp prec emax (Zdigits2 m + e))
  /\ (0 <= shr_m (fst r))%Z
  /\ Zdigits2 (shr_m (fst r)) = Z.max 0 (Zdigits2 m - (snd r - e)).
Proof.
  intros Hm. unfold shr_fexp, shr.
  pose proof (Zdigits2_nonneg m) as Hd.
  assert (H0 : shr_shape (Zdigits2 m) (shr_record_of_loc m l)).
  { unfold shr_shape. rewrite shr_record_of_loc_m. lia. }
  destruct (fexp prec emax (Zdigits2 m + e) - e)%Z as [|p|p] eqn:E; cbn [fst snd].
  - destruct H0 as [H1 H2]. rewrite shr_record_of_loc_m in *. lia.
  - apply (iter_shr_1_shape p) in H0. destruct H0 as [H1 H2]. lia.
  - destruct H0 as [H1 H2]. rewrite shr_record_of_loc_m in *. lia.
Qed.

Lemma shr_fexp_id m e :
  fexp prec emax (Zdigits2 m + e) = e ->
  shr_fexp prec emax m e loc_Exact = (Build_shr_record m false false, e).
Proof. intros H. unfold shr_fexp. rewrite H, Z.sub_diag. reflexivity. Qed.

Lemma round_nearest_even_bounds m l :
  (m <= round_nearest_even m l <= m + 1)%Z.
Proof.
  unfold round_nearest_even. destruct l as [|[]]; try lia.
  destruct (Z.even m); lia.
Qed.

Lemma Zdigits2_mono a b : (0 <= a <= b)%Z -> (Zdigits2 a <= Zdigits2 b)%Z.
Proof.
  intros [Ha Hab]. destruct a as [|p|p]; [|destruct b as [|q|q]; try lia|lia].
  - destruct b; cbn; lia.
  - cbn. apply digits_below_pow; [lia|].
    pose proof (digits_upper q). lia.
Qed.

(** The two roundings of [binary_round_aux], as bounds on digits and
    exponents. *)
Lemma round_aux_stages (P : spec_float -> Prop) s m e l :
  (forall e1 d1 d2 e2 q,
     e1 = Z.max e (fexp prec emax (Z.pos (digits2_pos m) + e)) ->
     d1 = Z.max 0 (Z.pos (digits2_pos m) - (e1 - e)) ->
     (d1 <= d2 <= d1 + 1)%Z ->
     e2 = Z.max e1 (fexp prec emax (d2 + e1)) ->
     Z.pos (digits2_pos q) = Z.max 0 (d2 - (e2 - e1)) ->
     P (if Z.leb e2 (emax - prec) then S754_finite s q e2 else S754_infinity s)) ->
  P (S754_zero s) ->
  P (binary_round_aux prec emax s (Z.pos m) e l).
Proof.
  intros Hfin Hzero. unfold binary_round_aux.
  pose proof (shr_fexp_shape (Z.pos m) e l ltac:(lia)) as S1.
  destruct (shr_fexp prec emax (Z.pos m) e l) as [r1 e1]. cbn [fst snd] in S1.
  destruct S1 as (E1 & P1 & D1).
  pose proof (round_nearest_even_bounds (shr_m r1) (loc_of_shr_record r1)) as B.
  set (m2 := round_nearest_even (shr_m r1) (loc_of_shr_record r1)) in *.
  pose proof (shr_fexp_shape m2 e1 loc_Exact ltac:(lia)) as S2.
  destruct (shr_fexp prec emax m2 e1 loc_Exact) as [r2 e2]. cbn [fst snd] in S2.
  destruct S2 as (E2 & P2 & D2).
  assert (Hlo : (Zdigits2 (shr_m r1) <= Zdigits2 m2)%Z).
  { apply Zdigits2_mono. lia. }
  assert (Hhi : (Zdigits2 m2 <= Zdigits2 (shr_m r1) + 1)%Z).
  { etransitivity; [apply (Zdigits2_mono m2 (shr_m r1 + 1)); lia|].
    apply Zdigits2_succ; lia. }
  destruct (shr_m r2) as [|q|q] eqn:Eq; [exact Hzero| |lia].
  apply (Hfin e1 (Zdigits2 (shr_m r1)) (Zdigits2 m2) e2 q); auto; lia.
Qed.

(** A rounded positive mantissa stays finite when its magnitude is below
    the overflow threshold. *)
Lemma round_aux_finite s m e l :
  (e <= emax - prec)%Z -> (Z.pos (digits2_pos m) + e <= emax - 1)%Z ->
  finiteSF (binary_round_aux prec emax s (Z.pos m) e l) = true.
Proof.
  intros He Hd. apply round_aux_stages; [|reflexivity].
  intros e1 d1 d2 e2 q E1 D1 D2 E2 Dq.
  assert (He2 : (e2 <= emax - prec)%Z).
  { unfold fexp, emin, emax, prec in *. lia. }
  apply Z.leb_le in He2. rewrite He2. reflexivity.
Qed.

(** Rounding gives a valid binary64 value when the mantissa comes at least
    as fine as the format asks. *)
Lemma round_aux_valid s m e l :
  (e <= fexp prec emax (Z.pos (digits2_pos m) + e))%Z ->
  SpecFloat.valid_binary prec emax (binary_round_aux prec emax s (Z.pos m) e l) = true.
Proof.
  intros He. apply round_aux_stages; [|reflexivity].
  intros e1 d1 d2 e2 q E1 D1 D2 E2 Dq.
  destruct (Z.leb e2 (emax - prec)) eqn:Ele; [|reflexivity].
  cbn [SpecFloat.valid_binary]. unfold bounded, canonical_mantissa.
  rewrite Ele, andb_true_r. apply Z.eqb_eq.
  unfold fexp, emin, emax, prec in *.
  pose proof (Pos2Z.is_pos (digits2_pos m)). lia.
Qed.

Lemma valid_finite_bounds s m e :
  SpecFloat.valid_binary prec emax (S754_finite s m e) = true ->
  (Z.pos (digits2_pos m) <= prec)%Z /\ (e <= emax - prec)%Z.
Proof.
  cbn. unfold bounded, canonical_mantissa, fexp, emin.
  intros H. apply andb_true_iff in H. destruct H as [H1 H2].
  apply Z.eqb_eq in H1. apply Z.leb_le in H2. unfold emax, prec in *. lia.
Qed.

Definition exponent_at_most (k : Z) (x : spec_float) : Prop :=
  match x with
  | S754_finite _ _ e => (e <= k)%Z
  | S754_zero _ => True
  | _ => False
  end.

Lemma SFmul_finite x y kx ky :
  SpecFloat.valid_binary prec emax x = true -> SpecFloat.valid_binary prec emax y = true ->
  exponent_at_most kx x -> exponent_at_most ky y ->
  (kx + ky <= 917)%Z ->
  finiteSF (SFmul prec emax x y) = true.
Proof.
  intros Vx Vy Hx Hy Hk.
  destruct x as [sx|sx| |sx mx ex], y as [sy|sy| |sy my ey]; cbn in Hx, Hy;
    try contradiction; try reflexivity.
  cbn [SFmul].
  apply valid_finite_bounds in Vx, Vy.
  pose proof (digits_mul mx my).
  apply round_aux_finite; unfold emax, prec in *; lia.
Qed.

Lemma finite_exponent x :
  Number_isFinite x = true -> exponent_at_most 971 (Prim2SF x).
Proof.
  unfold Number_isFinite. pose proof (Prim2SF_valid x) as V.
  destruct (Prim2SF x) as [s|s| |s m e]; try discriminate; intros _; cbn; [exact I|].
  apply valid_finite_bounds in V. unfold emax, prec in V. lia.
Qed.

(** Multiplying a finite Number by a finite operand whose exponent field is
    at most [-54] (any value below [1/2]) gives a finite Number. *)
Lemma mul_small_finite x c :
  Number_isFinite x = true -> exponent_at_most (-54) (Prim2SF c) ->
  Number_isFinite (x * c) = true.
Proof.
  intros Hx Hc. unfold Number_isFinite. rewrite mul_spec.
  apply (@SFmul_finite _ _ 971 (-54)%Z); auto using Prim2SF_valid, finite_exponent.
  lia.
Qed.

Lemma div_nan_l x : nan / x = nan.
Proof. to_spec. reflexivity. Qed.

(** ** [===] on Numbers *)

(** IEEE equality identifies only the two zeros. *)
Lemma eqb_identical x y :
  (x =? y) = true -> is_zero x = false -> x = y.
Proof.
  unfold is_zero. rewrite !FloatAxioms.eqb_spec.
  change (Prim2SF PrimFloat.zero) with (S754_zero false).
  intros H Hz. apply by_spec. revert H Hz.
  destruct (Prim2SF x) as [sx|sx| |sx mx ex], (Prim2SF y) as [sy|sy| |sy my ey];
    unfold SFeqb, SFcompare; try discriminate.
  all: intros H Hz; try (destruct sx, sy; discriminate).
  - destruct sx, sy; try discriminate; reflexivity.
  - destruct sx, sy; try discriminate;
      destruct (Z.compare_spec ex ey) as [E|E|E]; try discriminate; subst ey;
      fold (Pos.compare mx my) in H;
      destruct (Pos.compare_spec mx my) as [E'|E'|E']; try discriminate;
      subst; reflexivity.
Qed.

(** ** Zeros and the unit range *)

Lemma zero_like_finite z : zero_like z = true -> Number_isFinite z = true.
Proof. unfold zero_like, Number_isFinite. destruct (Prim2SF z); auto. Qed.

Lemma mul_zero_r p : Number_isFinite p = true -> zero_like (p * 0) = true.
Proof.
  unfold Number_isFinite, zero_like. rewrite mul_spec.
  change (Prim2SF 0) with (S754_zero false).
  destruct (Prim2SF p); try discriminate; reflexivity.
Qed.

Lemma add_zero_like z : zero_like z = true -> 0 + z = 0.
Proof.
  unfold zero_like. intros H. apply pos_zero_spec. rewrite add_spec.
  change (Prim2SF 0) with (S754_zero false).
  destruct (Prim2SF z) as [[]| | |]; try discriminate; reflexivity.
Qed.

Lemma unit_range_exponent c :
  (-1 <=? c) = true -> (c <=? 1) = true -> exponent_at_most (-52) (Prim2SF c).
Proof.
  rewrite !leb_spec.
  change (Prim2SF (-1)) with (S754_finite true 4503599627370496 (-52)).
  change (Prim2SF 1) with (S754_finite false 4503599627370496 (-52)).
  destruct (Prim2SF c) as [s|s| |s m e]; unfold SFleb, SFcompare; cbn [exponent_at_most].
  - trivial.
  - destruct s; discriminate.
  - discriminate.
  - destruct s.
    + intros H _. destruct (Z.compare_spec (-52) e); try discriminate; lia.
    + intros _ H. destruct (Z.compare_spec e (-52)); try discriminate; lia.
Qed.

Lemma mul_unit_range_finite c1 c2 :
  (-1 <=? c1) = true -> (c1 <=? 1) = true ->
  (-1 <=? c2) = true -> (c2 <=? 1) = true ->
  Number_isFinite (c1 * c2) = true.
Proof.
  intros A1 B1 A2 B2. unfold Number_isFinite. rewrite mul_spec.
  apply (@SFmul_finite _ _ (-52)%Z (-52)%Z);
    auto using Prim2SF_valid, unit_range_exponent.
  lia.
Qed.

(** ** The Number of an integer *)

Lemma iter_xO_value m p : Z.pos (Pos.iter xO m p) = (Z.pos m * 2 ^ Z.pos p)%Z.
Proof.
  induction p as [|p IH] using Pos.peano_ind.
  - cbn. lia.
  - rewrite Pos.iter_succ, Pos2Z.inj_succ, Z.pow_succ_r by lia.
    rewrite Pos2Z.inj_xO, IH. lia.
Qed.

Lemma iter_xO_digits m p :
  Z.pos (digits2_pos (Pos.iter xO m p)) = (Z.pos (digits2_pos m) + Z.pos p)%Z.
Proof.
  induction p as [|p IH] using Pos.peano_ind.
  - cbn. lia.
  - rewrite Pos.iter_succ. cbn [digits2_pos]. lia.
Qed.

(** [shl_align] hands [binary_round_aux] a mantissa as fine as the format
    asks: either the pair is unchanged, or the mantissa was shifted left
    down to the format's exponent. *)
Lemma shl_align_fexp m e :
  let t := fexp prec emax (Z.pos (digits2_pos m) + e) in
  let r := shl_align m e t in
  (snd r <= fexp prec emax (Z.pos (digits2_pos (fst r)) + snd r))%Z
  /\ ((snd r = e /\ fst r = m)
      \/ (snd r = t /\ (t < e)%Z /\ Z.pos (fst r) = (Z.pos m * 2 ^ (e - t))%Z
          /\ fexp prec emax (Z.pos (digits2_pos (fst r)) + snd r) = snd r)).
Proof.
  cbv zeta. unfold shl_align.
  destruct (fexp prec emax (Z.pos (digits2_pos m) + e) - e)%Z as [|p|p] eqn:E;
    cbn [fst snd].
  - split; [lia|]. left. auto.
  - split; [lia|]. left. auto.
  - assert (Hd : (Z.pos (digits2_pos (Pos.iter xO m p))
                  + fexp prec emax (Z.pos (digits2_pos m) + e)
                  = Z.pos (digits2_pos m) + e)%Z).
    { rewrite iter_xO_digits. lia. }
    rewrite Hd. split; [lia|]. right. repeat split; try lia.
    rewrite iter_xO_value. f_equal. f_equal. lia.
Qed.

Lemma binary_round_valid s m e :
  SpecFloat.valid_binary prec emax (binary_round prec emax s m e) = true.
Proof.
  unfold binary_round.
  pose proof (shl_align_fexp m e) as H. cbv zeta in H.
  destruct (shl_align m e _) as [mz ez]. cbn [fst snd] in H.
  apply round_aux_valid, H.
Qed.

Lemma binary_normalize_valid z e :
  SpecFloat.valid_binary prec emax (binary_normalize prec emax z e false) = true.
Proof. destruct z; [reflexivity| |]; apply binary_round_valid. Qed.

(** An integer rounds to an integer, or overflows to an infinity. *)
Lemma binary_round_integer s m :
  integerSF (binary_round prec emax s m 0)
  || infiniteSF (binary_round prec emax s m 0) = true.
Proof.
  unfold binary_round.
  pose proof (shl_align_fexp m 0) as H. cbv zeta in H.
  destruct (shl_align m 0 _) as [mz ez]. cbn [fst snd] in H.
  destruct H as [Hle Hcase].
  destruct (Z.eq_dec (fexp prec emax (Z.pos (digits2_pos mz) + ez)) ez) as [Eid|Eid].
  - (* no digit is dropped: the mantissa is the integer, shifted left *)
    unfold binary_round_aux.
    rewrite (shr_fexp_id (Z.pos mz) ez Eid).
    cbn [shr_m loc_of_shr_record round_nearest_even].
    rewrite (shr_fexp_id (Z.pos mz) ez Eid). cbn [shr_m].
    destruct (Z.leb ez (emax - prec)); [|reflexivity].
    cbn [integerSF infiniteSF]. rewrite orb_false_r.
    destruct Hcase as [[-> ->]|(-> & Hlt & Hv & _)]; [reflexivity|].
    apply orb_true_iff. right. apply Z.eqb_eq. rewrite Hv.
    replace (0 - fexp prec emax (Z.pos (digits2_pos m) + 0))%Z
      with (- fexp prec emax (Z.pos (digits2_pos m) + 0))%Z by lia.
    apply Z.mod_mul. apply Z.pow_nonzero; lia.
  - (* digits are dropped: the exponent is positive *)
    assert (Hez : ez = 0%Z).
    { destruct Hcase as [[-> _]|(_ & _ & _ & E)]; [reflexivity|contradiction]. }
    subst ez. apply round_aux_stages; [|reflexivity].
    intros e1 d1 d2 e2 q E1 D1 D2 E2 Dq.
    destruct (Z.leb e2 (emax - prec)); [|reflexivity].
    cbn [integerSF]. assert (H : (0 <= e2)%Z) by lia.
    apply Z.leb_le in H. rewrite H. reflexivity.
Qed.

Lemma number_of_Z_spec z :
  Prim2SF (number_of_Z z) = binary_normalize prec emax z 0 false.
Proof. apply Prim2SF_SF2Prim, binary_normalize_valid. Qed.

Lemma number_of_Z_integer z :
  Number_isInteger (number_of_Z z) = true
  \/ number_of_Z z = infinity \/ number_of_Z z = neg_infinity.
Proof.
  unfold Number_isInteger.
  assert (H : integerSF (Prim2SF (number_of_Z z))
              || infiniteSF (Prim2SF (number_of_Z z)) = true).
  { rewrite number_of_Z_spec. destruct z; [reflexivity| |]; apply binary_round_integer. }
  apply orb_true_iff in H. destruct H as [H|H]; [left; exact H|right].
  destruct (Prim2SF (number_of_Z z)) as [|[]| |] eqn:E; try discriminate.
  - right. apply by_spec. rewrite E. reflexivity.
  - left. apply by_spec. rewrite E. reflexivity.
Qed.

Lemma isInteger_opp x : Number_isInteger (- x) = Number_isInteger x.
Proof.
  unfold Number_isInteger. rewrite opp_spec.
  destruct (Prim2SF x); reflexivity.
Qed.

(** ** Magnitudes *)

Lemma abs_nonneg x m e : Prim2SF x = S754_finite false m e -> abs x = x.
Proof. intros E. apply by_spec. rewrite abs_spec, E. reflexivity. Qed.

Lemma at_most_ten_below_1e21 x m e :
  Prim2SF x = S754_finite false m e ->
  (x <=? 10) = true -> (1e21 <=? x) = false.
Proof.
  rewrite !leb_spec. intros ->.
  change (Prim2SF 10) with (S754_finite false 5629499534213120 (-49)).
  change (Prim2SF 1e21) with (S754_finite false 7629394531250000 17).
  unfold SFleb, SFcompare.
  destruct (Z.compare_spec e (-49)) as [E|E|E]; try discriminate; intros _;
    destruct (Z.compare_spec 17 e) as [E'|E'|E']; try lia; reflexivity.
Qed.

(** ** Rounding to a fixed number of decimals *)

(** [nearest_scaled m e f] is within one half of [m * 2^e * 10^f]. *)
Lemma nearest_scaled_spec m e f :
  let n := Z.of_N (nearest_scaled m e f) in
  let scaled := (Z.pos m * 10 ^ Z.of_nat f)%Z in
  ((0 <= e)%Z -> n = (scaled * 2 ^ e)%Z)
  /\ ((e < 0)%Z -> (2 * Z.abs (n * 2 ^ (- e) - scaled) <= 2 ^ (- e))%Z).
Proof.
  cbv zeta. unfold nearest_scaled.
  assert (Hs : (0 < Z.pos m * 10 ^ Z.of_nat f)%Z).
  { apply Z.mul_pos_pos; [lia|]. apply Z.pow_pos_nonneg; lia. }
  split; intros He.
  - apply Z.leb_le in He. rewrite He. rewrite Z2N.id; [reflexivity|].
    apply Z.leb_le in He. apply Z.mul_nonneg_nonneg; [lia|].
    apply Z.pow_nonneg. lia.
  - assert (E : (0 <=? e)%Z = false) by (apply Z.leb_gt; exact He).
    rewrite E.
    set (scaled := (Z.pos m * 10 ^ Z.of_nat f)%Z) in *.
    assert (Hd : (0 < 2 ^ (- e))%Z) by (apply Z.pow_pos_nonneg; lia).
    replace (2 ^ (- e + 1))%Z with (2 * 2 ^ (- e))%Z
      by (rewrite Z.pow_add_r by lia; lia).
    set (d := (2 ^ (- e))%Z) in *.
    pose proof (Z.div_mod (2 * scaled + d) (2 * d) ltac:(lia)) as Hdm.
    pose proof (Z.mod_pos_bound (2 * scaled + d) (2 * d) ltac:(lia)) as Hb.
    assert (Hq : (0 <= (2 * scaled + d) / (2 * d))%Z).
    { apply Z.div_pos; lia. }
    rewrite Z2N.id by exact Hq. nia.
Qed.

End F64.

(* ================================================================== *)
(** * The coarse runtime is a runtime *)
(* ================================================================== *)

Section CoarseRuntime.

Open Scope float_scope.

Lemma coarse_sin_odd x : Coarse.sin (- x) = - Coarse.sin x.
Proof.
  unfold Coarse.sin. rewrite F64.mul_opp_opp. apply F64.mul_opp_l.
Qed.

Lemma coarse_cos_range x :
  Number_isFinite x = true ->
  (-1 <=? Coarse.cos x) = true /\ (Coarse.cos x <=? 1) = true.
Proof.
  intros H. unfold Coarse.cos. rewrite H. cbv zeta.
  set (y := 1 - x * x / 2 + x * x * (x * x) / 24 - x * x * (x * x) * (x * x) / 720).
  destruct (y <=? 1) eqn:E1; [destruct (-1 <=? y) eqn:E2|]; auto.
Qed.

Lemma positive_shape x :
  (0 <? x) = true ->
  exists m, Prim2SF x = S754_infinity false \/ exists e, Prim2SF x = S754_finite false m e.
Proof.
  rewrite ltb_spec. change (Prim2SF 0) with (S754_zero false).
  destruct (Prim2SF x) as [s|s| |s m e]; cbn; try discriminate.
  - destruct s; [discriminate|]. exists 1%positive. left. reflexivity.
  - destruct s; [discriminate|]. exists m. right. exists e. reflexivity.
Qed.

Lemma div_zero_positive x : (0 <? x) = true -> 0 / x = 0.
Proof.
  intros H. apply F64.pos_zero_spec. rewrite div_spec.
  change (Prim2SF 0) with (S754_zero false).
  destruct (positive_shape x H) as [m [E|[e E]]]; rewrite E; reflexivity.
Qed.

Lemma positive_not_nan x : (0 <? x) = true -> is_nan x = false.
Proof.
  intros H. unfold is_nan. rewrite FloatAxioms.eqb_spec.
  destruct (positive_shape x H) as [m [E|[e E]]]; rewrite E; cbn.
  - reflexivity.
  - unfold SFeqb, SFcompare. rewrite Z.compare_refl, Pos.compare_cont_refl.
    reflexivity.
Qed.

Lemma coarse_atan2_zero x : (0 <? x) = true -> Coarse.atan2 0 x = 0.
Proof.
  intros H. unfold Coarse.atan2. rewrite (positive_not_nan x H), H.
  change (is_nan 0) with false. cbn [orb].
  rewrite (div_zero_positive x H). reflexivity.
Qed.

End CoarseRuntime.

#[export] Instance coarse_runtime : JSRuntime := {|
  Math_sin := Coarse.sin;
  Math_cos := Coarse.cos;
  Math_atan2 := Coarse.atan2;
  Number_toString := Coarse.toString;
  sin_nan := eq_refl;
  sin_pos_zero := eq_refl;
  sin_neg_zero := eq_refl;
  cos_nan := eq_refl;
  atan2_nan := fun _ => eq_refl;
  atan2_pos_zero := coarse_atan2_zero;
  toString_nan := eq_refl
|}.

Lemma coarse_sin_is_odd : sin_is_odd coarse_runtime.
Proof. exact coarse_sin_odd. Qed.

Lemma coarse_cos_in_range : cos_in_range coarse_runtime.
Proof. exact coarse_cos_range. Qed.

(* ================================================================== *)
(** * Lemmas on values, built-ins and the distance *)
(* ================================================================== *)

Lemma truthy_number_nonzero n :
  truthy (JNum n) = true -> PrimFloat.is_zero n = false.
Proof.
  unfold truthy. intros H. apply negb_true_iff in H.
  apply orb_false_iff in H. apply H.
Qed.

(** A truthy value is strictly equal only to itself. *)
Lemma strict_eq_identical a b :
  truthy a = true -> strict_eq a b = true -> a = b.
Proof.
  destruct a as [| |x|x|x|x], b as [| |y|y|y|y]; cbn [strict_eq];
    try discriminate; intros Ht He.
  - apply eqb_prop in He. congruence.
  - f_equal. apply F64.eqb_identical; auto using truthy_number_nonzero.
  - apply String.eqb_eq in He. congruence.
Qed.

(** Only primitives compare equal, and they always convert to a string. *)
Lemma strict_eq_printable `{rt : JSRuntime} a b :
  strict_eq a b = true -> exists s, ToString b = Some s.
Proof.
  destruct a, b as [| |[]| | |]; cbn; try discriminate; eauto.
Qed.

(** What [parseInt] can give: NaN, an integer, or an infinity (for a
    numeral beyond the range of Numbers). *)
Lemma parseInt_string_range s :
  parseInt_string s = nan
  \/ Number_isInteger (parseInt_string s) = true
  \/ parseInt_string s = infinity
  \/ parseInt_string s = neg_infinity.
Proof.
  unfold parseInt_string.
  destruct (scan_sign (trim_start s)) as [neg rest].
  destruct (scan_integer rest) as [[v len] after].
  destruct len as [|len]; [left; reflexivity|]. right.
  destruct (F64.number_of_Z_integer v) as [H|[H|H]]; destruct neg.
  - left. rewrite F64.isInteger_opp. exact H.
  - left. exact H.
  - right. right. rewrite H. reflexivity.
  - right. left. exact H.
  - right. left. rewrite H. reflexivity.
  - right. right. exact H.
Qed.

(** [toFixed] on a finite Number below [10^21]: the sign, then the integer
    nearest to the scaled magnitude, with the point before its last
    [fractionDigits] digits. *)
Lemma toFixed_finite `{rt : JSRuntime} x neg m e fractionDigits :
  Prim2SF x = S754_finite neg m e ->
  (1e21 <=? abs x)%float = false ->
  toFixed x fractionDigits
  = (if neg then "-" else "")
    ++ fixed_point (nearest_scaled m e fractionDigits) fractionDigits.
Proof. intros E H. unfold toFixed. rewrite E, H. reflexivity. Qed.

(** A distance between 0 and the search radius is written as the nearest
    number of hundredths. *)
Lemma toFixed_two_decimals `{rt : JSRuntime} d :
  (0 <=? d)%float = true -> (d <=? 10)%float = true ->
  exists n, toFixed d 2 = fixed_point n 2 /\ nearest_hundredths d n.
Proof.
  intros H0 H10. unfold nearest_hundredths.
  pose proof H0 as H0'. pose proof H10 as H10'.
  rewrite leb_spec in H0'. rewrite leb_spec in H10'.
  change (Prim2SF 0) with (S754_zero false) in H0'.
  change (Prim2SF 10) with (S754_finite false 5629499534213120 (-49)) in H10'.
  destruct (Prim2SF d) as [s|s| |s m e] eqn:E.
  - exists 0%N. unfold toFixed. rewrite E. auto.
  - destruct s; discriminate.
  - discriminate.
  - destruct s; [discriminate|].
    exists (nearest_scaled m e 2). split.
    + rewrite (toFixed_finite d false m e 2 E); [reflexivity|].
      rewrite (F64.abs_nonneg d m e E).
      apply (F64.at_most_ten_below_1e21 d m e E H10).
    + pose proof (F64.nearest_scaled_spec m e 2) as [Hpos Hneg].
      change (10 ^ Z.of_nat 2)%Z with 100%Z in *.
      destruct (Z.leb_spec 0 e); auto.
Qed.

Lemma Forall2_map_intro {A B : Type} (P : A -> Prop) (Q : A -> B -> Prop)
    (f : A -> B) (l : list A) :
  Forall P l -> (forall a, P a -> Q a (f a)) -> Forall2 Q l (map f l).
Proof.
  intros Hl HPQ. induction Hl as [|a l Ha Hl IH]; cbn [map]; constructor; auto.
Qed.

Section Haversine.

Context {rt : JSRuntime}.

Open Scope float_scope.

Lemma deg2rad_opp d : deg2rad (- d) = - deg2rad d.
Proof. apply F64.mul_opp_l. Qed.

Lemma deg2rad_finite d : Number_isFinite d = true -> Number_isFinite (deg2rad d) = true.
Proof.
  intros H. apply F64.mul_small_finite; [exact H|].
  vm_compute. discriminate.
Qed.

(** The haversine of an angle given in degrees: the square the distance
    formula takes twice. *)
Definition hav_deg (d : float) : float :=
  Math_sin (deg2rad d / 2) * Math_sin (deg2rad d / 2).

Lemma hav_deg_opp d : sin_is_odd rt -> hav_deg (- d) = hav_deg d.
Proof.
  intros Hodd. unfold hav_deg.
  rewrite deg2rad_opp, F64.div_opp_l, Hodd. apply F64.mul_opp_opp.
Qed.

Lemma hav_deg_swap x y : sin_is_odd rt -> hav_deg (y - x) = hav_deg (x - y).
Proof.
  intros Hodd. destruct (F64.sub_swap x y) as [E|[E1 E2]].
  - rewrite E. apply hav_deg_opp, Hodd.
  - rewrite E1, E2. reflexivity.
Qed.

Lemma hav_deg_zero : hav_deg 0 = 0.
Proof.
  unfold hav_deg. change (deg2rad 0 / 2) with 0.
  rewrite sin_pos_zero. reflexivity.
Qed.

Lemma hav_deg_nan : hav_deg nan = nan.
Proof.
  unfold hav_deg. change (deg2rad nan / 2) with nan.
  rewrite sin_nan. reflexivity.
Qed.

Lemma distance_unfold lat1 lon1 lat2 lon2 :
  getDistanceFromLatLonInKm lat1 lon1 lat2 lon2 =
  let a := hav_deg (lat2 - lat1)
           + Math_cos (deg2rad lat1) * Math_cos (deg2rad lat2)
             * Math_sin (deg2rad (lon2 - lon1) / 2)
             * Math_sin (deg2rad (lon2 - lon1) / 2) in
  6371 * (2 * Math_atan2 (Math_sqrt a) (Math_sqrt (1 - a))).
Proof. reflexivity. Qed.

Lemma distance_of_nan a :
  a = nan -> 6371 * (2 * Math_atan2 (Math_sqrt a) (Math_sqrt (1 - a))) = nan.
Proof.
  intros ->. change (Math_sqrt nan) with nan. rewrite atan2_nan. reflexivity.
Qed.

(** The distance is NaN as soon as the difference of latitudes is. *)
Lemma distance_nan_dlat lat1 lon1 lat2 lon2 :
  lat2 - lat1 = nan -> getDistanceFromLatLonInKm lat1 lon1 lat2 lon2 = nan.
Proof.
  intros E. rewrite distance_unfold. cbv zeta. apply distance_of_nan.
  rewrite E, hav_deg_nan. apply F64.add_nan_l.
Qed.

(** A NaN latitude at the first point makes the distance NaN. *)
Lemma distance_nan_lat1 lon1 lat2 lon2 :
  getDistanceFromLatLonInKm nan lon1 lat2 lon2 = nan.
Proof. apply distance_nan_dlat, F64.sub_nan_r. Qed.

(** So does a NaN longitude. *)
Lemma distance_nan_lon1 lat1 lat2 lon2 :
  getDistanceFromLatLonInKm lat1 nan lat2 lon2 = nan.
Proof.
  rewrite distance_unfold. cbv zeta. apply distance_of_nan.
  rewrite F64.sub_nan_r. change (deg2rad nan / 2) with nan.
  rewrite sin_nan, !F64.mul_nan_r. apply F64.add_nan_r.
Qed.

(** The distance between a finite point and itself is [+0]. *)
Lemma distance_diag lat lng :
  cos_in_range rt -> Number_isFinite lat = true -> Number_isFinite lng = true ->
  getDistanceFromLatLonInKm lat lng lat lng = 0.
Proof.
  intros Hcos Hlat Hlng. rewrite distance_unfold. cbv zeta.
  rewrite (F64.sub_diag lat Hlat), (F64.sub_diag lng Hlng), hav_deg_zero.
  change (deg2rad 0 / 2) with 0. rewrite sin_pos_zero.
  destruct (Hcos _ (deg2rad_finite lat Hlat)) as [A B].
  set (c := Math_cos (deg2rad lat)) in *.
  pose proof (F64.mul_unit_range_finite c c A B A B) as Hcc.
  pose proof (F64.mul_zero_r _ Hcc) as Z1.
  pose proof (F64.mul_zero_r _ (F64.zero_like_finite _ Z1)) as Z2.
  rewrite (F64.add_zero_like _ Z2).
  change (Math_sqrt 0) with 0. change (Math_sqrt (1 - 0)) with 1.
  rewrite atan2_pos_zero by reflexivity. reflexivity.
Qed.

Lemma lon_term_swap p x y :
  sin_is_odd rt ->
  p * Math_sin (deg2rad (y - x) / 2) * Math_sin (deg2rad (y - x) / 2)
  = p * Math_sin (deg2rad (x - y) / 2) * Math_sin (deg2rad (x - y) / 2).
Proof.
  intros Hodd. destruct (F64.sub_swap x y) as [E|[E1 E2]].
  - rewrite E, deg2rad_opp, F64.div_opp_l, Hodd.
    set (s := Math_sin (deg2rad (x - y) / 2)).
    rewrite (F64.mul_opp_r p s). apply F64.mul_opp_opp.
  - rewrite E1, E2. reflexivity.
Qed.

(** Exchanging the two points does not change the distance. *)
Lemma distance_swap lat1 lon1 lat2 lon2 :
  sin_is_odd rt ->
  getDistanceFromLatLonInKm lat1 lon1 lat2 lon2
  = getDistanceFromLatLonInKm lat2 lon2 lat1 lon1.
Proof.
  intros Hodd. rewrite !distance_unfold. cbv zeta.
  rewrite (hav_deg_swap lat1 lat2 Hodd).
  rewrite (lon_term_swap _ lon1 lon2 Hodd).
  rewrite (F64.mul_comm (Math_cos (deg2rad lat2)) (Math_cos (deg2rad lat1))).
  reflexivity.
Qed.

End Haversine.

(* ================================================================== *)
(** * Lemmas on the handlers *)
(* ================================================================== *)

Section Handlers.

Context {rt : JSRuntime}.

Lemma is_match_spec userLat userLng userId ride :
  is_match userLat userLng userId ride = true <->
  (getDistanceFromLatLonInKm userLat userLng ride.(lat) ride.(lng) <=? 10.0)%float = true
  /\ ~ owned_by userId ride.
Proof.
  unfold is_match, owned_by, SEARCH_RADIUS_KM.
  destruct (truthy userId); cbn [andb].
  - destruct (strict_eq (Data.userId ride) userId).
    + split; [discriminate|]. intros [_ H]. exfalso. apply H. auto.
    + split; [intros H; split; [exact H|]|intros [H _]; exact H].
      intros [_ H']. discriminate.
  - split; [intros H; split; [exact H|]|intros [H _]; exact H].
    intros [H' _]. discriminate.
Qed.

(** With both coordinates present and convertible, the handler answers 200
    with the filtered and mapped rides and leaves the state alone. *)
Lemma search_sends lat lng userId st userLat userLng :
  truthy lat = true -> truthy lng = true ->
  parseFloat lat = Some userLat -> parseFloat lng = Some userLng ->
  search lat lng userId st
  = (json 200 (SearchBody (map (to_response userLat userLng)
                             (filter (is_match userLat userLng userId) st.(rides)))),
     st).
Proof.
  intros Tlat Tlng Plat Plng. unfold search.
  rewrite Tlat, Tlng, Plat, Plng. reflexivity.
Qed.

Lemma distinct_emails_push us newUser :
  distinct_emails us ->
  (forall v, In v us -> strict_eq v.(email) newUser.(email) = false) ->
  distinct_emails (us ++ [newUser]).
Proof.
  induction us as [|u rest IH]; intros Hd Hnew; cbn.
  - split; [intros v []|exact I].
  - destruct Hd as [Hu Hrest]. split.
    + intros v Hv. apply in_app_or in Hv. destruct Hv as [Hv|[<-|[]]].
      * apply Hu, Hv.
      * apply Hnew. left. reflexivity.
    + apply IH; [exact Hrest|]. intros v Hv. apply Hnew. right. exact Hv.
Qed.

Lemma signup_users_ok now email password name st :
  users_ok st.(users) ->
  users_ok (snd (signup now email password name st)).(users).
Proof.
  intros [Ht Hd]. unfold signup.
  destruct (truthy email) eqn:Te; [|split; assumption].
  destruct (negb true || negb (truthy password) || negb (truthy name));
    [split; assumption|].
  destruct (find _ (users st)) eqn:Ef; [split; assumption|].
  assert (Hok : users_ok (users st ++ [mkUser (decimal_numeral now) email password name])).
  { split.
    - apply Forall_app. split; [exact Ht|]. constructor; [exact Te|constructor].
    - apply distinct_emails_push; [exact Hd|].
      intros v Hv. apply (find_none _ _ Ef v Hv). }
  destruct (ToString email); exact Hok.
Qed.

Lemma handle_users_ok req st :
  users_ok st.(users) -> users_ok (snd (handle req st)).(users).
Proof.
  intros H.
  destruct req as [now e p n|e p|now stamp tok la ln tm ps ds|la ln uid];
    cbn [handle].
  - apply signup_users_ok, H.
  - unfold login. destruct (find _ _); [destruct (ToString _)|]; exact H.
  - unfold publish.
    destruct (negb (truthy tok) || negb (truthy la) || negb (truthy ln));
      [exact H|].
    destruct (parseFloat la), (parseFloat ln), (parseInt ps); try exact H.
    destruct (ToString tm), (ToString la), (ToString ln); exact H.
  - unfold search. destruct (negb (truthy la) || negb (truthy ln)); [exact H|].
    destruct (parseFloat la), (parseFloat ln); exact H.
Qed.

Lemma reachable_users_ok st : reachable st -> users_ok st.(users).
Proof.
  induction 1 as [|st req _ IH].
  - split; [constructor|exact I].
  - apply handle_users_ok, IH.
Qed.

(** Among users with distinct truthy emails, the first user that [find]
    meets with the given credentials is the only one. *)
Lemma find_credentials_unique us email password u :
  users_ok us -> In u us ->
  strict_eq u.(Data.email) email = true ->
  strict_eq u.(Data.password) password = true ->
  find (fun v => strict_eq v.(Data.email) email
                 && strict_eq v.(Data.password) password) us = Some u.
Proof.
  intros [Ht Hd] Hin He Hp.
  induction us as [|u0 rest IH]; [destruct Hin|].
  cbn [find]. inversion Ht as [|? ? Ht0 Htrest]; subst. destruct Hd as [Hd0 Hdrest].
  destruct Hin as [->|Hin].
  - rewrite He, Hp. reflexivity.
  - destruct (strict_eq (Data.email u0) email) eqn:E0; cbn [andb].
    + exfalso.
      assert (E1 : Data.email u0 = email).
      { apply strict_eq_identical; assumption. }
      assert (E2 : Data.email u = email).
      { apply strict_eq_identical; [|exact He].
        rewrite Forall_forall in Htrest. apply Htrest, Hin. }
      specialize (Hd0 u Hin). rewrite E1, E2 in Hd0. rewrite E2 in He.
      congruence.
    + apply IH; assumption.
Qed.

Lemma publish_missing now stamp token lat lng transportMode passengers destination st :
  truthy token && truthy lat && truthy lng = false ->
  publish now stamp token lat lng transportMode passengers destination st
  = (json 400 (ErrorBody "Missing ride details (location or user token)."), st).
Proof.
  unfold publish. intros H.
  destruct (truthy token), (truthy lat), (truthy lng); try discriminate; reflexivity.
Qed.

Lemma publish_stores now stamp token lat lng transportMode passengers destination st
    lat' lng' passengers' :
  truthy token && truthy lat && truthy lng = true ->
  parseFloat lat = Some lat' -> parseFloat lng = Some lng' ->
  parseInt passengers = Some passengers' ->
  let rideRequest :=
    mkRide (decimal_numeral now) token lat' lng'
           destination transportMode passengers' stamp in
  snd (publish now stamp token lat lng transportMode passengers destination st)
  = mkServer st.(users) (st.(rides) ++ [rideRequest])
  /\ ((exists s, ToString transportMode = Some s) ->
      fst (publish now stamp token lat lng transportMode passengers destination st)
      = json 201 (RideBody "Ride request published successfully" (decimal_numeral now))).
Proof.
  intros H Plat Plng Pp. unfold publish.
  destruct (truthy token), (truthy lat), (truthy lng); try discriminate.
  cbn [negb orb]. rewrite Plat, Plng, Pp. cbv zeta.
  unfold parseFloat in Plat, Plng.
  destruct (ToString lat); [|discriminate]. destruct (ToString lng); [|discriminate].
  split.
  - destruct (ToString transportMode); reflexivity.
  - intros [text ->]. reflexivity.
Qed.

(** Every stored ride carries a truthy [userId]: the token that passed the
    validation of its publish request. *)
Lemma handle_rides_owned req st :
  Forall (fun r => truthy r.(userId) = true) st.(rides) ->
  Forall (fun r => truthy r.(userId) = true) (snd (handle req st)).(rides).
Proof.
  intros H.
  destruct req as [now e p n|e p|now stamp tok la ln tm ps ds|la ln uid];
    cbn [handle].
  - unfold signup.
    destruct (negb (truthy e) || negb (truthy p) || negb (truthy n)); [exact H|].
    destruct (find _ _); [exact H|]. destruct (ToString e); exact H.
  - unfold login. destruct (find _ _); [destruct (ToString _)|]; exact H.
  - unfold publish. destruct (truthy tok) eqn:Tt; [|exact H]. cbn [negb orb].
    destruct (negb (truthy la) || negb (truthy ln)); [exact H|].
    destruct (parseFloat la) as [la'|], (parseFloat ln) as [ln'|],
      (parseInt ps) as [ps'|]; try exact H.
    assert (H' : Forall (fun r => truthy r.(userId) = true)
                   (st.(rides) ++ [mkRide (decimal_numeral now) tok la' ln' ds tm ps' stamp])).
    { apply Forall_app. split; [exact H|]. constructor; [exact Tt|constructor]. }
    destruct (ToString tm), (ToString la), (ToString ln); exact H'.
  - unfold search. destruct (negb (truthy la) || negb (truthy ln)); [exact H|].
    destruct (parseFloat la), (parseFloat ln); exact H.
Qed.

Lemma reachable_rides_owned st :
  reachable st -> Forall (fun r => truthy r.(userId) = true) st.(rides).
Proof.
  induction 1 as [|st req _ IH]; [constructor|].
  apply handle_rides_owned, IH.
Qed.

(** In a reachable state, a ride belongs to the requester exactly when its
    [userId] is the [userId] of the query. *)
Lemma owned_by_reachable st userId ride :
  reachable st -> In ride st.(rides) ->
  (owned_by userId ride <-> strict_eq ride.(Data.userId) userId = true).
Proof.
  intros Hreach Hin. unfold owned_by. split; [intros [_ H]; exact H|].
  intros H. split; [|exact H].
  pose proof (reachable_rides_owned st Hreach) as Hall.
  rewrite Forall_forall in Hall. specialize (Hall ride Hin).
  rewrite <- (strict_eq_identical _ _ Hall H). exact Hall.
Qed.

End Handlers.

(* ================================================================== *)
(** * Properties of the specification: the distance function *)
(* ================================================================== *)

(** C6: the haversine distance is symmetric, [d(A, B) = d(B, A)], for all
    Numbers including NaN and the infinities, on a runtime whose [Math.sin]
    is odd. *)
Theorem haversine_symmetric {rt : JSRuntime} lat1 lon1 lat2 lon2 :
  sin_is_odd rt ->
  getDistanceFromLatLonInKm lat1 lon1 lat2 lon2
  = getDistanceFromLatLonInKm lat2 lon2 lat1 lon1.
Proof. intros Hodd. apply distance_swap, Hodd. Qed.

Lemma haversine_symmetric_witness :
  sin_is_odd coarse_runtime
  /\ @getDistanceFromLatLonInKm coarse_runtime 12.5 77.5 12.53125 77.625
     = @getDistanceFromLatLonInKm coarse_runtime 12.53125 77.625 12.5 77.5.
Proof.
  split; [exact coarse_sin_is_odd|].
  exact (@haversine_symmetric coarse_runtime 12.5 77.5 12.53125 77.625
           coarse_sin_is_odd).
Defined.

(** C7 (as amended): the haversine distance from a point with finite
    latitude and longitude to itself is 0, on a runtime whose [Math.cos]
    stays within [-1, 1]. *)
Theorem haversine_self_distance {rt : JSRuntime} lat lng :
  cos_in_range rt -> Number_isFinite lat = true -> Number_isFinite lng = true ->
  getDistanceFromLatLonInKm lat lng lat lng = 0%float.
Proof. intros Hcos Hlat Hlng. apply distance_diag; assumption. Qed.

Lemma haversine_self_distance_witness :
  cos_in_range coarse_runtime
  /\ Number_isFinite 12.5 = true /\ Number_isFinite 77.5 = true
  /\ @getDistanceFromLatLonInKm coarse_runtime 12.5 77.5 12.5 77.5 = 0%float.
Proof.
  split; [exact coarse_cos_in_range|].
  split; [reflexivity|]. split; [reflexivity|].
  exact (@haversine_self_distance coarse_runtime 12.5 77.5
           coarse_cos_in_range eq_refl eq_refl).
Defined.

(** The claim C7 as stated fails: NaN is a Number, [parseFloat] hands it to
    the distance function for a text that is no numeral, and on every
    runtime the distance from a point with a NaN latitude to itself is NaN,
    which is not 0. *)
Lemma haversine_self_distance_nan :
  parseFloat_string "north" = nan
  /\ (nan =? 0)%float = false
  /\ forall (rt : JSRuntime) (lng : float),
       @getDistanceFromLatLonInKm rt nan lng nan lng = nan.
Proof.
  split; [reflexivity|]. split; [reflexivity|].
  intros rt lng. apply distance_nan_lat1.
Qed.

(* ================================================================== *)
(** * Properties of the specification: ride search *)
(* ================================================================== *)

(** C1: for every ride list and every search query that carries a latitude
    and a longitude, the matches the search returns are exactly the stored
    rides whose haversine distance from the query point is at most the
    hardcoded 10.0 km, minus the rides owned by the querying user. *)
Theorem search_matches_within_radius {rt : JSRuntime}
    lat lng userId st userLat userLng :
  truthy lat = true -> truthy lng = true ->
  parseFloat lat = Some userLat -> parseFloat lng = Some userLng ->
  exists matches,
    search lat lng userId st
    = (json 200 (SearchBody (map (to_response userLat userLng) matches)), st)
    /\ forall ride,
         In ride matches <->
         In ride st.(rides)
         /\ (getDistanceFromLatLonInKm userLat userLng ride.(Data.lat) ride.(Data.lng)
             <=? 10.0)%float = true
         /\ ~ owned_by userId ride.
Proof.
  intros Tlat Tlng Plat Plng.
  exists (filter (is_match userLat userLng userId) st.(rides)). split.
  - apply search_sends; assumption.
  - intros ride. rewrite filter_In, is_match_spec. reflexivity.
Qed.

Lemma search_matches_within_radius_witness :
  truthy (JStr "12.5") = true /\ truthy (JStr "77.5") = true
  /\ exists matches,
       @search coarse_runtime (JStr "12.5") (JStr "77.5") (JStr "u1") two_rides
       = (json 200 (SearchBody (map (@to_response coarse_runtime 12.5 77.5) matches)),
          two_rides)
       /\ forall ride,
            In ride matches <->
            In ride two_rides.(rides)
            /\ (@getDistanceFromLatLonInKm coarse_runtime 12.5 77.5
                  ride.(lat) ride.(lng) <=? 10.0)%float = true
            /\ ~ owned_by (JStr "u1") ride.
Proof.
  split; [reflexivity|]. split; [reflexivity|].
  apply (@search_matches_within_radius coarse_runtime
           (JStr "12.5") (JStr "77.5") (JStr "u1") two_rides 12.5%float 77.5%float);
    vm_compute; reflexivity.
Defined.

(** What that search answers: the ride of [u2], 3.47 km away; the ride of
    [u1], at distance 0, is the requester's own. *)
Example search_two_rides :
  @search coarse_runtime (JStr "12.5") (JStr "77.5") (JStr "u1") two_rides
  = (json 200 (SearchBody [Match.mk (JStr "RIDER") (JStr "Mall") 2 "3.47"]), two_rides).
Proof. vm_compute. reflexivity. Qed.

(** Without a [userId] both rides match, in the order of the ride list. *)
Example search_two_rides_anonymous :
  @search coarse_runtime (JStr "12.5") (JStr "77.5") JUndefined two_rides
  = (json 200 (SearchBody [Match.mk (JStr "DRIVER") (JStr "Airport") 3 "0.00";
                           Match.mk (JStr "RIDER") (JStr "Mall") 2 "3.47"]),
     two_rides).
Proof. vm_compute. reflexivity. Qed.

(** C2 (as amended): a stored ride whose coordinates are exactly the finite
    query coordinates and that the requester does not own is among the
    matches; a ride the requester owns is not, whatever its distance. *)
Theorem search_includes_colocated_excludes_own {rt : JSRuntime}
    lat lng userId st userLat userLng ride :
  cos_in_range rt ->
  truthy lat = true -> truthy lng = true ->
  parseFloat lat = Some userLat -> parseFloat lng = Some userLng ->
  In ride st.(rides) ->
  exists matches,
    search lat lng userId st
    = (json 200 (SearchBody (map (to_response userLat userLng) matches)), st)
    /\ (forall r, In r matches -> In r st.(rides))
    /\ (ride.(Data.lat) = userLat -> ride.(Data.lng) = userLng ->
        Number_isFinite userLat = true -> Number_isFinite userLng = true ->
        ~ owned_by userId ride -> In ride matches)
    /\ (owned_by userId ride -> ~ In ride matches).
Proof.
  intros Hcos Tlat Tlng Plat Plng Hin.
  exists (filter (is_match userLat userLng userId) st.(rides)).
  split; [apply search_sends; assumption|]. split; [|split].
  - intros r Hr. apply filter_In in Hr. apply Hr.
  - intros Elat Elng Flat Flng Hown. apply filter_In. split; [exact Hin|].
    apply is_match_spec. split; [|exact Hown].
    rewrite Elat, Elng, distance_diag by assumption. reflexivity.
  - intros Hown Hr. apply filter_In in Hr. destruct Hr as [_ Hr].
    apply is_match_spec in Hr. apply Hr, Hown.
Qed.

Lemma search_includes_colocated_excludes_own_witness :
  cos_in_range coarse_runtime
  /\ truthy (JStr "12.5") = true /\ truthy (JStr "77.5") = true
  /\ exists matches,
       @search coarse_runtime (JStr "12.5") (JStr "77.5") (JStr "u2") two_rides
       = (json 200 (SearchBody (map (@to_response coarse_runtime 12.5 77.5) matches)),
          two_rides)
       /\ (forall r, In r matches -> In r two_rides.(rides))
       /\ In (mkRide "1730000000123" (JStr "u1") 12.5 77.5
                     (JStr "Airport") (JStr "DRIVER") 3 1730000000123) matches.
Proof.
  split; [exact coarse_cos_in_range|].
  split; [reflexivity|]. split; [reflexivity|].
  destruct (@search_includes_colocated_excludes_own coarse_runtime
              (JStr "12.5") (JStr "77.5") (JStr "u2") two_rides 12.5%float 77.5%float
              (mkRide "1730000000123" (JStr "u1") 12.5 77.5
                      (JStr "Airport") (JStr "DRIVER") 3 1730000000123)
              coarse_cos_in_range eq_refl eq_refl eq_refl eq_refl
              (or_introl eq_refl))
    as [matches [Hsearch [Hsub [Hin _]]]].
  exists matches. split; [exact Hsearch|]. split; [exact Hsub|].
  apply Hin; try reflexivity.
  intros [_ Hown]. discriminate Hown.
Defined.

(** The claim C2 as stated fails, on every runtime.  A stored ride whose
    coordinates are exactly the query coordinates is left out of the
    results when the requester owns it; and a ride of another user is left
    out when the shared latitude is infinite, the distance being NaN. *)
Lemma colocated_ride_excluded :
  let own := mkRide "1730000000123" (JStr "u1") 12.5 77.5
                    (JStr "Airport") (JStr "DRIVER") 3 1730000000123 in
  let pole := mkRide "1730000000456" (JStr "u1") infinity 77.5
                     (JStr "Airport") (JStr "DRIVER") 3 1730000000456 in
  (forall rt : JSRuntime,
     @parseFloat rt (JStr "12.5") = Some own.(lat)
     /\ @parseFloat rt (JStr "77.5") = Some own.(lng)
     /\ @search rt (JStr "12.5") (JStr "77.5") (JStr "u1") (mkServer [] [own])
        = (json 200 (SearchBody []), mkServer [] [own]))
  /\ (forall rt : JSRuntime,
        @parseFloat rt (JStr "Infinity") = Some pole.(lat)
        /\ @parseFloat rt (JStr "77.5") = Some pole.(lng)
        /\ strict_eq pole.(userId) (JStr "u2") = false
        /\ @search rt (JStr "Infinity") (JStr "77.5") (JStr "u2") (mkServer [] [pole])
           = (json 200 (SearchBody []), mkServer [] [pole])).
Proof.
  cbv zeta. split; intros rt.
  - split; [vm_compute; reflexivity|]. split; [vm_compute; reflexivity|].
    rewrite (search_sends (JStr "12.5") (JStr "77.5") (JStr "u1") _ 12.5%float 77.5%float)
      by (vm_compute; reflexivity).
    reflexivity.
  - split; [vm_compute; reflexivity|]. split; [vm_compute; reflexivity|].
    split; [reflexivity|].
    rewrite (search_sends (JStr "Infinity") (JStr "77.5") (JStr "u2") _ infinity 77.5%float)
      by (vm_compute; reflexivity).
    cbn [rides filter]. unfold is_match at 1.
    cbn [truthy userId strict_eq lat lng String.eqb Ascii.eqb Bool.eqb negb andb].
    rewrite distance_nan_dlat by reflexivity. reflexivity.
Qed.

(** C8: every match of a search response carries the ride's transport
    mode, destination and passenger count, and a [distanceKm] that is the
    haversine distance from the query point written with two decimals
    ([toFixed(2)]): for a distance that is not negative, the numeral of the
    nearest number of hundredths.  The response lists the matches in the
    order of the ride list and nothing else. *)
Theorem search_response_fields {rt : JSRuntime}
    lat lng userId st userLat userLng :
  truthy lat = true -> truthy lng = true ->
  parseFloat lat = Some userLat -> parseFloat lng = Some userLng ->
  exists matches responseMatches,
    search lat lng userId st = (json 200 (SearchBody responseMatches), st)
    /\ matches = filter (is_match userLat userLng userId) st.(rides)
    /\ Forall2
         (fun (m : RideRequest) (r : Match.t) =>
            let d := getDistanceFromLatLonInKm userLat userLng
                       m.(Data.lat) m.(Data.lng) in
            r.(Match.transportMode) = m.(transportMode)
            /\ r.(Match.destination) = m.(destination)
            /\ r.(Match.passengers) = m.(passengers)
            /\ r.(Match.distanceKm) = toFixed d 2
            /\ ((0 <=? d)%float = true ->
                exists n, r.(Match.distanceKm) = fixed_point n 2
                          /\ nearest_hundredths d n))
         matches responseMatches.
Proof.
  intros Tlat Tlng Plat Plng.
  exists (filter (is_match userLat userLng userId) st.(rides)).
  exists (map (to_response userLat userLng)
            (filter (is_match userLat userLng userId) st.(rides))).
  split; [apply search_sends; assumption|]. split; [reflexivity|].
  apply Forall2_map_intro with (P := fun m => is_match userLat userLng userId m = true).
  - apply Forall_forall. intros m Hm. apply filter_In in Hm. apply Hm.
  - intros m Hm. cbn. repeat split.
    intros Hd. apply toFixed_two_decimals; [exact Hd|].
    apply is_match_spec in Hm. apply Hm.
Qed.

Lemma search_response_fields_witness :
  truthy (JStr "12.5") = true /\ truthy (JStr "77.5") = true
  /\ exists matches responseMatches,
       @search coarse_runtime (JStr "12.5") (JStr "77.5") JUndefined two_rides
       = (json 200 (SearchBody responseMatches), two_rides)
       /\ matches = filter (@is_match coarse_runtime 12.5 77.5 JUndefined) two_rides.(rides)
       /\ Forall2
            (fun (m : RideRequest) (r : Match.t) =>
               let d := @getDistanceFromLatLonInKm coarse_runtime 12.5 77.5
                          m.(lat) m.(lng) in
               r.(Match.transportMode) = m.(transportMode)
               /\ r.(Match.destination) = m.(destination)
               /\ r.(Match.passengers) = m.(passengers)
               /\ r.(Match.distanceKm) = @toFixed coarse_runtime d 2
               /\ ((0 <=? d)%float = true ->
                   exists n, r.(Match.distanceKm) = fixed_point n 2
                             /\ nearest_hundredths d n))
            matches responseMatches.
Proof.
  split; [reflexivity|]. split; [reflexivity|].
  apply (@search_response_fields coarse_runtime
           (JStr "12.5") (JStr "77.5") JUndefined two_rides 12.5%float 77.5%float);
    vm_compute; reflexivity.
Defined.

(** C10: when latitude and longitude are present but one of them does not
    parse as a number ([parseFloat] gives NaN), the handler answers 200
    with an empty list of matches, not a 400. *)
Theorem search_unparsable_coordinates {rt : JSRuntime}
    lat lng userId st userLat userLng :
  truthy lat = true -> truthy lng = true ->
  parseFloat lat = Some userLat -> parseFloat lng = Some userLng ->
  userLat = nan \/ userLng = nan ->
  search lat lng userId st = (json 200 (SearchBody []), st).
Proof.
  intros Tlat Tlng Plat Plng Hnan.
  rewrite (search_sends lat lng userId st userLat userLng) by assumption.
  replace (filter (is_match userLat userLng userId) st.(rides)) with (@nil RideRequest);
    [reflexivity|].
  symmetry. induction st.(rides) as [|ride rs IH]; [reflexivity|].
  cbn [filter]. rewrite <- IH.
  assert (E : is_match userLat userLng userId ride = false).
  { unfold is_match. destruct (truthy userId && strict_eq _ userId); [reflexivity|].
    destruct Hnan as [-> | ->];
      [rewrite distance_nan_lat1|rewrite distance_nan_lon1];
      apply F64.leb_nan_l. }
  rewrite E. reflexivity.
Qed.

Lemma search_unparsable_coordinates_witness :
  truthy (JStr "north") = true /\ truthy (JStr "77.5") = true
  /\ @search coarse_runtime (JStr "north") (JStr "77.5") JUndefined two_rides
     = (json 200 (SearchBody []), two_rides).
Proof.
  split; [reflexivity|]. split; [reflexivity|].
  apply (@search_unparsable_coordinates coarse_runtime
           (JStr "north") (JStr "77.5") JUndefined two_rides nan 77.5%float);
    try (vm_compute; reflexivity).
  left. reflexivity.
Defined.

(* ================================================================== *)
(** * Properties of the specification: authentication *)
(* ================================================================== *)

(** C3 (as amended): a signup in which email, password or name is missing
    or falsy is answered 400; with all three truthy, it is answered 409
    when a stored user has the same email, and otherwise, the email being
    printable, it succeeds with 201 and the new user is appended to the
    user list.  The user list changes in the last case only. *)
Theorem signup_outcomes {rt : JSRuntime} now email password name st :
  (truthy email && truthy password && truthy name = false ->
   signup now email password name st
   = (json 400 (ErrorBody "All fields (name, email, password) are required."), st))
  /\ (truthy email && truthy password && truthy name = true ->
      (exists u, In u st.(users) /\ strict_eq u.(Data.email) email = true) ->
      signup now email password name st
      = (json 409 (ErrorBody "User already exists with this email."), st))
  /\ (truthy email && truthy password && truthy name = true ->
      (forall u, In u st.(users) -> strict_eq u.(Data.email) email = false) ->
      (exists s, ToString email = Some s) ->
      signup now email password name st
      = (json 201 (SignupBody "Registration successful" (decimal_numeral now) name),
         mkServer
           (st.(users) ++ [mkUser (decimal_numeral now) email password name])
           st.(rides))).
Proof.
  unfold signup. repeat split.
  - intros H. destruct (truthy email), (truthy password), (truthy name);
      try discriminate; reflexivity.
  - intros H [u [Hin He]].
    destruct (truthy email), (truthy password), (truthy name); try discriminate.
    cbn [negb orb].
    destruct (find _ (users st)) eqn:Ef; [reflexivity|].
    rewrite (find_none _ _ Ef u Hin) in He. discriminate.
  - intros H Hnone [s Hs].
    destruct (truthy email), (truthy password), (truthy name); try discriminate.
    cbn [negb orb].
    destruct (find _ (users st)) as [u|] eqn:Ef.
    + apply find_some in Ef. destruct Ef as [Hin He].
      rewrite (Hnone u Hin) in He. discriminate.
    + rewrite Hs. reflexivity.
Qed.

(** The three outcomes, on the initial state and on [one_user]. *)
Example signup_first_user :
  @signup coarse_runtime 1730000000000
    (JStr "ann@example.org") (JStr "secret") (JStr "Ann") initial
  = (json 201 (SignupBody "Registration successful" "1730000000000" (JStr "Ann")),
     one_user).
Proof. reflexivity. Qed.

Example signup_without_password :
  @signup coarse_runtime 1730000000555
    (JStr "ann@example.org") JUndefined (JStr "Ann") one_user
  = (json 400 (ErrorBody "All fields (name, email, password) are required."),
     one_user).
Proof. reflexivity. Qed.

(** The claim C3 as stated fails: with email, password and name all present,
    a signup whose email is already registered is answered 409, not 201,
    and nothing is appended. *)
Lemma signup_duplicate_with_all_fields :
  truthy (JStr "ann@example.org") && truthy (JStr "pw") && truthy (JStr "Bob") = true
  /\ forall rt : JSRuntime,
       @signup rt 1730000000555 (JStr "ann@example.org") (JStr "pw") (JStr "Bob") one_user
       = (json 409 (ErrorBody "User already exists with this email."), one_user).
Proof. split; [reflexivity|intros rt; reflexivity]. Qed.

(** C5: in every reachable state, a login with the email and the password
    of a stored user is answered 200 with that user's identifier as token
    and that user's name; a login that no stored user matches is answered
    401; the user list (the whole state) is unchanged either way. *)
Theorem login_outcomes {rt : JSRuntime} email password st :
  reachable st ->
  (forall u, In u st.(users) ->
     strict_eq u.(Data.email) email = true ->
     strict_eq u.(Data.password) password = true ->
     login email password st
     = (json 200 (LoginBody "Login successful" u.(id) u.(Data.name)), st))
  /\ ((forall u, In u st.(users) ->
         strict_eq u.(Data.email) email && strict_eq u.(Data.password) password
         = false) ->
      login email password st
      = (json 401 (ErrorBody "Invalid email or password."), st))
  /\ snd (login email password st) = st.
Proof.
  intros Hreach. apply reachable_users_ok in Hreach. repeat split.
  - intros u Hin He Hp. unfold login.
    rewrite (find_credentials_unique _ email password u Hreach Hin He Hp).
    destruct (strict_eq_printable _ _ He) as [s ->]. reflexivity.
  - intros Hnone. unfold login.
    destruct (find _ (users st)) as [u|] eqn:Ef; [|reflexivity].
    apply find_some in Ef. destruct Ef as [Hin Hu].
    rewrite (Hnone u Hin) in Hu. discriminate.
  - unfold login. destruct (find _ _); [destruct (ToString _)|]; reflexivity.
Qed.

Lemma one_user_reachable : @reachable coarse_runtime one_user.
Proof.
  exact (@reach_request coarse_runtime initial
           (Signup 1730000000000 (JStr "ann@example.org") (JStr "secret") (JStr "Ann"))
           (@reach_initial coarse_runtime)).
Defined.

Lemma login_outcomes_witness :
  @reachable coarse_runtime one_user
  /\ @login coarse_runtime (JStr "ann@example.org") (JStr "secret") one_user
     = (json 200 (LoginBody "Login successful" "1730000000000" (JStr "Ann")), one_user).
Proof.
  split; [exact one_user_reachable|].
  refine (proj1 (@login_outcomes coarse_runtime (JStr "ann@example.org")
                   (JStr "secret") one_user one_user_reachable) ann _ _ _).
  - left. reflexivity.
  - reflexivity.
  - reflexivity.
Defined.

Example login_wrong_password :
  @login coarse_runtime (JStr "ann@example.org") (JStr "Secret") one_user
  = (json 401 (ErrorBody "Invalid email or password."), one_user).
Proof. reflexivity. Qed.

(* ================================================================== *)
(** * Properties of the specification: publishing a ride *)
(* ================================================================== *)

(** C4, at the input on which the code departs from it: a publish request
    that supplies the latitude as the Number 0 (a point on the equator) is
    answered 400 and no ride is stored, whatever the other fields are. *)
Theorem publish_rejects_zero_latitude {rt : JSRuntime}
    now stamp token lng transportMode passengers destination st :
  publish now stamp token (JNum 0) lng transportMode passengers destination st
  = (json 400 (ErrorBody "Missing ride details (location or user token)."), st).
Proof.
  apply publish_missing. change (truthy (JNum 0)) with false.
  destruct (truthy token); reflexivity.
Qed.

(** The same request one degree north is published. *)
Example publish_latitude_one :
  @publish coarse_runtime 1730000000123 1730000000124
    (JStr "u1") (JNum 1) (JNum 77.5) (JStr "DRIVER") (JStr "3") (JStr "Airport") initial
  = (json 201 (RideBody "Ride request published successfully" "1730000000123"),
     mkServer []
       [mkRide "1730000000123" (JStr "u1") 1 77.5
               (JStr "Airport") (JStr "DRIVER") 3 1730000000124]).
Proof. vm_compute. reflexivity. Qed.

(** C9 (as amended): a publish request that passes validation and whose
    fields convert stores a ride whose passenger count is
    [parseInt(passengers)]: NaN when the text of [passengers] does not start
    with an integer numeral, otherwise the Number nearest to that integer,
    which is an integer or, beyond the range of Numbers, an infinity. *)
Theorem publish_records_parsed_passengers {rt : JSRuntime}
    now stamp token lat lng transportMode passengers destination st
    lat' lng' text :
  truthy token && truthy lat && truthy lng = true ->
  parseFloat lat = Some lat' -> parseFloat lng = Some lng' ->
  ToString passengers = Some text ->
  exists ride,
    (snd (publish now stamp token lat lng transportMode passengers destination st)).(rides)
    = (st.(rides) ++ [ride])%list
    /\ ride.(Data.passengers) = parseInt_string text
    /\ (ride.(Data.passengers) = nan
        \/ Number_isInteger ride.(Data.passengers) = true
        \/ ride.(Data.passengers) = infinity
        \/ ride.(Data.passengers) = neg_infinity).
Proof.
  intros H Plat Plng Ht.
  assert (Pp : parseInt passengers = Some (parseInt_string text)).
  { unfold parseInt. rewrite Ht. reflexivity. }
  destruct (publish_stores now stamp token lat lng transportMode passengers
              destination st lat' lng' _ H Plat Plng Pp) as [E _].
  eexists. rewrite E. cbn [rides Data.passengers].
  split; [reflexivity|]. split; [reflexivity|]. apply parseInt_string_range.
Qed.

Lemma publish_records_parsed_passengers_witness :
  truthy (JStr "u1") && truthy (JStr "12.5") && truthy (JStr "77.5") = true
  /\ exists ride,
       (snd (@publish coarse_runtime 1730000000123 1730000000124
               (JStr "u1") (JStr "12.5") (JStr "77.5") (JStr "DRIVER")
               (JStr "3 seats") (JStr "Airport") initial)).(rides)
       = ([] ++ [ride])%list
       /\ ride.(passengers) = parseInt_string "3 seats"
       /\ (ride.(passengers) = nan
           \/ Number_isInteger ride.(passengers) = true
           \/ ride.(passengers) = infinity
           \/ ride.(passengers) = neg_infinity).
Proof.
  split; [reflexivity|].
  apply (@publish_records_parsed_passengers coarse_runtime
           1730000000123 1730000000124
           (JStr "u1") (JStr "12.5") (JStr "77.5") (JStr "DRIVER")
           (JStr "3 seats") (JStr "Airport") initial 12.5%float 77.5%float "3 seats");
    vm_compute; reflexivity.
Defined.

(** The claim C9 as stated fails, on every runtime: a publish request
    without [passengers] passes validation and stores a ride whose passenger
    count is NaN, which is not an integer. *)
Lemma publish_without_passengers_stores_nan :
  Number_isInteger nan = false
  /\ forall rt : JSRuntime,
       @publish rt 1730000000123 1730000000124
         (JStr "u1") (JStr "12.5") (JStr "77.5") (JStr "DRIVER") JUndefined (JStr "Airport")
         initial
       = (json 201 (RideBody "Ride request published successfully" "1730000000123"),
          mkServer []
            [mkRide "1730000000123" (JStr "u1") 12.5 77.5
                    (JStr "Airport") (JStr "DRIVER") nan 1730000000124]).
Proof. split; [reflexivity|intros rt; vm_compute; reflexivity]. Qed.

(* ================================================================== *)
(** * The built-ins on sample inputs *)
(* ================================================================== *)

Example parseFloat_samples :
  map parseFloat_string
    ["12.5"; "  -3.5abc"; ".5"; "5."; "1e3"; "0x10"; "Infinityx"; "north"; ""]
  = [12.5; -3.5; 0.5; 5; 1000; 0; infinity; nan; nan]%float.
Proof. vm_compute. reflexivity. Qed.

Example parseInt_samples :
  map parseInt_string ["3"; " 42px"; "-7"; "0x1F"; "2.9"; "undefined"; ""]
  = [3; 42; -7; 31; 2; nan; nan]%float.
Proof. vm_compute. reflexivity. Qed.

Example toFixed_samples :
  map (fun x => @toFixed coarse_runtime x 2)
    [0; 0.125; 2.5; 3.474609375; 10; -1.5; nan]%float
  = ["0.00"; "0.13"; "2.50"; "3.47"; "10.00"; "-1.50"; "NaN"].
Proof. vm_compute. reflexivity. Qed.

(* ================================================================== *)
(** * Properties of the two arrays *)
(* ================================================================== *)



(** X2: users and rides are created and never mutated or deleted.  Every
    request leaves both arrays as they were or with one element appended
    at the end of one of them. *)
Theorem handlers_only_append {rt : JSRuntime} req st :
  exists newUsers newRides,
    (snd (handle req st)).(users) = (st.(users) ++ newUsers)%list
    /\ (snd (handle req st)).(rides) = (st.(rides) ++ newRides)%list
    /\ (List.length newUsers + List.length newRides <= 1)%nat.
Proof.
  assert (Hsame : exists newUsers newRides,
            st.(users) = (st.(users) ++ newUsers)%list
            /\ st.(rides) = (st.(rides) ++ newRides)%list
            /\ (List.length newUsers + List.length newRides <= 1)%nat).
  { exists [], []. rewrite !app_nil_r. cbn. auto. }
  destruct req as [now e p n|e p|now stamp tok la ln tm ps ds|la ln uid];
    cbn [handle].
  - unfold signup.
    destruct (negb (truthy e) || negb (truthy p) || negb (truthy n)); [exact Hsame|].
    destruct (find _ _); [exact Hsame|].
    exists [mkUser (decimal_numeral now) e p n], [].
    destruct (ToString e); cbn [snd users rides]; rewrite app_nil_r; cbn; auto.
  - unfold login. destruct (find _ _); [destruct (ToString _)|]; exact Hsame.
  - unfold publish.
    destruct (negb (truthy tok) || negb (truthy la) || negb (truthy ln));
      [exact Hsame|].
    destruct (parseFloat la) as [la'|], (parseFloat ln) as [ln'|],
      (parseInt ps) as [ps'|]; try exact Hsame.
    exists [], [mkRide (decimal_numeral now) tok la' ln' ds tm ps' stamp].
    destruct (ToString tm), (ToString la), (ToString ln);
      cbn [snd users rides]; rewrite app_nil_r; cbn; auto.
  - unfold search. destruct (negb (truthy la) || negb (truthy ln)); [exact Hsame|].
    destruct (parseFloat la), (parseFloat ln); exact Hsame.
Qed.

(* ================================================================== *)
(** * Rounding error of binary64 products *)
(* ================================================================== *)

(** [Math.random() * 140] and [dist * factor] are rounded products.  The
    facts below bound a rounded product from above by its exact value plus
    half a unit in the last place, which is what the ranges of the client's
    figures need. *)

Module Rounding.

Open Scope Z_scope.

(** Shifting [M] right by [k] digits keeps the quotient, and the round bit
    is set only when the remainder is at least half a unit. *)
Definition shr_keeps (M k : Z) (r : shr_record) : Prop :=
  0 <= shr_m r
  /\ exists rem, M = shr_m r * 2 ^ k + rem /\ 0 <= rem < 2 ^ k
                 /\ (shr_r r = true -> 2 ^ k <= 2 * rem).

Lemma shr_1_keeps M k r : 0 <= k -> shr_keeps M k r -> shr_keeps M (k + 1) (shr_1 r).
Proof.
  intros Hk (Hm & rem & HM & Hrem & _). destruct r as [m r s]. cbn [shr_m] in *.
  unfold shr_keeps. rewrite Z.pow_add_r, Z.pow_1_r by lia.
  pose proof (Z.pow_pos_nonneg 2 k ltac:(lia) Hk) as Hp.
  destruct m as [|[p|p|]|p]; cbn [shr_1 shr_m shr_r]; try lia.
  - split; [lia|]. exists rem. split; [lia|]. split; [lia|]. discriminate.
  - split; [lia|]. exists (2 ^ k + rem). split; [lia|]. split; [lia|]. lia.
  - split; [lia|]. exists rem. split; [lia|]. split; [lia|]. discriminate.
  - split; [lia|]. exists (2 ^ k + rem). split; [lia|]. split; [lia|]. lia.
Qed.

Lemma iter_shr_1_keeps M p : forall k r,
  0 <= k -> shr_keeps M k r -> shr_keeps M (k + Z.pos p) (SpecFloat.iter_pos shr_1 p r).
Proof.
  induction p as [p IH|p IH|]; intros k r Hk H; cbn [SpecFloat.iter_pos].
  - replace (k + Z.pos p~1) with (k + 1 + Z.pos p + Z.pos p) by lia.
    apply IH; [lia|]. apply IH; [lia|]. apply shr_1_keeps; assumption.
  - replace (k + Z.pos p~0) with (k + Z.pos p + Z.pos p) by lia.
    apply IH; [lia|]. apply IH; assumption.
  - apply shr_1_keeps; assumption.
Qed.

Lemma shr_fexp_keeps m e :
  0 <= m ->
  let r := shr_fexp prec emax m e loc_Exact in
  e <= snd r /\ shr_keeps m (snd r - e) (fst r).
Proof.
  intros Hm. unfold shr_fexp, shr. cbn [shr_record_of_loc].
  assert (H0 : shr_keeps m 0 (Build_shr_record m false false)).
  { split; [exact Hm|]. exists 0. cbn. split; [lia|]. split; [lia|discriminate]. }
  destruct (fexp prec emax (Zdigits2 m + e) - e) as [|p|p]; cbn [fst snd].
  - rewrite Z.sub_diag. split; [lia|exact H0].
  - split; [lia|]. replace (e + Z.pos p - e) with (0 + Z.pos p) by lia.
    apply iter_shr_1_keeps; [lia|exact H0].
  - rewrite Z.sub_diag. split; [lia|exact H0].
Qed.

Lemma round_up_needs_round_bit r :
  round_nearest_even (shr_m r) (loc_of_shr_record r)
  <= shr_m r + (if shr_r r then 1 else 0).
Proof.
  destruct r as [m [] []]; cbn; try lia. destruct (Z.even m); lia.
Qed.

(** The value of a rounded positive mantissa is at most the exact value
    plus half a unit in the last place, counted in units of [2^E]. *)
Lemma round_aux_upper s M E s' mf ef :
  binary_round_aux prec emax s (Z.pos M) E loc_Exact = S754_finite s' mf ef ->
  E <= ef
  /\ 2 * (Z.pos mf * 2 ^ (ef - E))
     <= 2 * Z.pos M + 2 ^ (Z.max E (fexp prec emax (Z.pos (digits2_pos M) + E)) - E).
Proof.
  unfold binary_round_aux.
  pose proof (shr_fexp_keeps (Z.pos M) E ltac:(lia)) as K1.
  pose proof (F64.shr_fexp_shape (Z.pos M) E loc_Exact ltac:(lia)) as S1.
  destruct (shr_fexp prec emax (Z.pos M) E loc_Exact) as [r1 e1].
  cbn [fst snd Zdigits2] in K1, S1. destruct K1 as (He1 & Hm1 & rem & HM & Hrem & Hbit).
  destruct S1 as (E1 & _ & _).
  pose proof (round_up_needs_round_bit r1) as Hup.
  pose proof (F64.round_nearest_even_bounds (shr_m r1) (loc_of_shr_record r1)) as Hq.
  set (q := round_nearest_even (shr_m r1) (loc_of_shr_record r1)) in *.
  pose proof (shr_fexp_keeps q e1 ltac:(lia)) as K2.
  destruct (shr_fexp prec emax q e1 loc_Exact) as [r2 e2].
  cbn [fst snd] in K2. destruct K2 as (He2 & Hm2 & rem2 & Hq2 & Hrem2 & _).
  destruct (shr_m r2) as [|m2|m2] eqn:Em2; try discriminate.
  destruct (e2 <=? emax - prec); [|discriminate].
  intros [= <- <- <-]. split; [lia|].
  rewrite <- E1.
  replace (e2 - E) with ((e2 - e1) + (e1 - E)) by lia.
  rewrite Z.pow_add_r by lia.
  pose proof (Z.pow_pos_nonneg 2 (e1 - E) ltac:(lia) ltac:(lia)) as Hp1.
  assert (Hle : Z.pos m2 * 2 ^ (e2 - e1) <= q) by lia.
  assert (Hq' : 2 * (q * 2 ^ (e1 - E)) <= 2 * Z.pos M + 2 ^ (e1 - E)).
  { destruct (shr_r r1).
    - specialize (Hbit eq_refl). nia.
    - nia. }
  nia.
Qed.

(** The same bound with the last place spelt out. *)
Lemma round_aux_upper_ulp s M E s' mf ef :
  binary_round_aux prec emax s (Z.pos M) E loc_Exact = S754_finite s' mf ef ->
  E <= ef
  /\ 2 * (Z.pos mf * 2 ^ (ef - E))
     <= 2 * Z.pos M + 1 + 2 ^ (Z.pos (digits2_pos M) - 53) + 2 ^ (emin - E).
Proof.
  intros H. destruct (round_aux_upper s M E s' mf ef H) as [He Hb]. split; [exact He|].
  eapply Z.le_trans; [exact Hb|].
  set (d := Z.pos (digits2_pos M)) in *.
  pose proof (Z.pow_nonneg 2 (d - 53) ltac:(lia)).
  pose proof (Z.pow_nonneg 2 (emin - E) ltac:(lia)).
  assert (Hcases : Z.max E (fexp prec emax (d + E)) - E = 0
                   \/ Z.max E (fexp prec emax (d + E)) - E = d - 53
                   \/ Z.max E (fexp prec emax (d + E)) - E = emin - E).
  { unfold fexp, SpecFloat.emin, emin, emax, prec. lia. }
  destruct Hcases as [->|[->| ->]]; [change (2 ^ 0) with 1| |]; lia.
Qed.

(** Order of two valid positive Numbers, read on their values. *)
Lemma below_by_value m e c ec E :
  SpecFloat.valid_binary prec emax (S754_finite false m e) = true ->
  SpecFloat.valid_binary prec emax (S754_finite false c ec) = true ->
  E <= e -> E <= ec ->
  Z.pos m * 2 ^ (e - E) < Z.pos c * 2 ^ (ec - E) ->
  e < ec \/ (e = ec /\ Z.pos m < Z.pos c).
Proof.
  intros Vm Vc He Hec Hlt.
  destruct (Z.lt_trichotomy e ec) as [H|[H|H]]; [left; exact H| |].
  - right. split; [exact H|]. subst ec.
    pose proof (Z.pow_pos_nonneg 2 (e - E) ltac:(lia) ltac:(lia)). nia.
  - exfalso.
    pose proof (F64.valid_finite_bounds _ _ _ Vc) as [Dc _].
    cbn in Vm, Vc. unfold bounded, canonical_mantissa, fexp in Vm, Vc.
    apply andb_true_iff in Vm. destruct Vm as [Vm _]. apply Z.eqb_eq in Vm.
    apply andb_true_iff in Vc. destruct Vc as [Vc _]. apply Z.eqb_eq in Vc.
    assert (Dm : Z.pos (digits2_pos m) = 53) by (unfold prec, emin in *; lia).
    pose proof (F64.digits_lower m) as Lm. rewrite Dm in Lm.
    pose proof (F64.digits_upper c) as Uc.
    assert (Uc' : Z.pos c < 2 ^ 53).
    { eapply Z.lt_le_trans; [exact Uc|]. apply Z.pow_le_mono_r; unfold prec in Dc; lia. }
    replace (e - E) with ((e - ec) + (ec - E)) in Hlt by lia.
    rewrite Z.pow_add_r in Hlt by lia.
    pose proof (Z.pow_pos_nonneg 2 (ec - E) ltac:(lia) ltac:(lia)) as Hp.
    assert (H2 : 2 <= 2 ^ (e - ec)).
    { change 2 with (2 ^ 1) at 1. apply Z.pow_le_mono_r; lia. }
    change (2 ^ 53) with 9007199254740992 in *.
    assert (Z.pos c * 2 ^ (ec - E) <= Z.pos m * 2 ^ (e - ec) * 2 ^ (ec - E)); [|lia].
    apply Z.mul_le_mono_nonneg_r; [lia|]. nia.
Qed.

Lemma leb_finite_cases m e c ec :
  SFleb (S754_finite false m e) (S754_finite false c ec) = true ->
  (e < ec)%Z \/ (e = ec /\ Z.pos m <= Z.pos c)%Z.
Proof.
  unfold SFleb, SFcompare.
  destruct (Z.compare_spec e ec) as [E|E|E]; [|left; exact E|discriminate].
  rewrite Pos.compare_cont_spec.
  destruct (Pos.compare_spec m c) as [E'|E'|E']; cbn; try discriminate;
    intros _; right; split; try assumption; subst; lia.
Qed.

Lemma ltb_finite_cases m e c ec :
  SFltb (S754_finite false m e) (S754_finite false c ec) = true <->
  (e < ec)%Z \/ (e = ec /\ Z.pos m < Z.pos c)%Z.
Proof.
  unfold SFltb, SFcompare.
  destruct (Z.compare_spec e ec) as [E|E|E].
  - rewrite Pos.compare_cont_spec.
    destruct (Pos.compare_spec m c) as [E'|E'|E']; cbn; split;
      try discriminate; try lia; auto.
  - split; auto.
  - split; [discriminate|lia].
Qed.

End Rounding.

Module Products.
Import Rounding.
Open Scope Z_scope.

Lemma valid_mantissa_below s m e :
  SpecFloat.valid_binary prec emax (S754_finite s m e) = true -> Z.pos m < 2 ^ 53.
Proof.
  intros V. apply F64.valid_finite_bounds in V. destruct V as [Vd _].
  eapply Z.lt_le_trans; [apply F64.digits_upper|].
  apply Z.pow_le_mono_r; unfold prec in Vd; lia.
Qed.

(** The product of two positive Numbers with small exponents: it is [+0]
    or positive and finite, and at most half a unit in the last place
    above the exact product. *)
Lemma mul_positive_upper x c mx ex mc ec :
  Prim2SF x = S754_finite false mx ex -> Prim2SF c = S754_finite false mc ec ->
  ex + ec <= 0 ->
  Prim2SF (x * c)%float = S754_zero false
  \/ exists m e,
       Prim2SF (x * c)%float = S754_finite false m e
       /\ ex + ec <= e
       /\ 2 * (Z.pos m * 2 ^ (e - (ex + ec)))
          <= 2 * (Z.pos mx * Z.pos mc) + 1
             + 2 ^ (Z.pos (digits2_pos (mx * mc)) - 53) + 2 ^ (emin - (ex + ec)).
Proof.
  intros Ex Ec Hsmall.
  pose proof (Prim2SF_valid x) as Vx. rewrite Ex in Vx.
  pose proof (Prim2SF_valid c) as Vc. rewrite Ec in Vc.
  pose proof (F64.valid_finite_bounds _ _ _ Vx) as [Dx _].
  pose proof (F64.valid_finite_bounds _ _ _ Vc) as [Dc _].
  pose proof (F64.digits_mul mx mc) as Dm. unfold prec in *.
  rewrite mul_spec, Ex, Ec.
  change (SF64mul (S754_finite false mx ex) (S754_finite false mc ec))
    with (binary_round_aux prec emax false (Z.pos (mx * mc)) (ex + ec) loc_Exact).
  pose proof (F64.round_aux_finite false (mx * mc) (ex + ec) loc_Exact) as Hfin.
  destruct (binary_round_aux prec emax false (Z.pos (mx * mc)) (ex + ec) loc_Exact)
    as [s|s| |s m e] eqn:R.
  - left. unfold binary_round_aux in R.
    destruct (shr_fexp _ _ _ _ _) as [r1 e1].
    destruct (shr_fexp _ _ _ _ _) as [r2 e2].
    destruct (shr_m r2); [|destruct (_ <=? _)|]; congruence.
  - exfalso. unfold emax, prec in Hfin. specialize (Hfin ltac:(lia) ltac:(lia)).
    discriminate.
  - exfalso. unfold emax, prec in Hfin. specialize (Hfin ltac:(lia) ltac:(lia)).
    discriminate.
  - right. exists m, e.
    assert (Hs : s = false).
    { unfold binary_round_aux in R.
      destruct (shr_fexp _ _ _ _ _) as [r1 e1].
      destruct (shr_fexp _ _ _ _ _) as [r2 e2].
      destruct (shr_m r2); [|destruct (_ <=? _)|]; congruence. }
    subst s. split; [reflexivity|].
    destruct (round_aux_upper_ulp _ _ _ _ _ _ R) as [He Hb].
    split; [exact He|]. rewrite Pos2Z.inj_mul in Hb. exact Hb.
Qed.

(** [Math.random() * 140]: for a Number from 0 up to 1, a Number from 0
    up to 140. *)
Lemma random_scaled u :
  (0 <=? u)%float = true -> (u <? 1)%float = true ->
  F64.zero_like (u * 140)%float = true
  \/ exists m e, Prim2SF (u * 140)%float = S754_finite false m e
                 /\ (e < -45 \/ (e = -45 /\ Z.pos m < 4925812092436480)).
Proof.
  intros H0 H1. rewrite leb_spec in H0. rewrite ltb_spec in H1.
  change (Prim2SF 0) with (S754_zero false) in H0.
  change (Prim2SF 1) with (S754_finite false 4503599627370496 (-52)) in H1.
  destruct (Prim2SF u) as [s|s| |s m e] eqn:Eu.
  - left. unfold F64.zero_like. rewrite mul_spec, Eu.
    change (Prim2SF 140) with (S754_finite false 4925812092436480 (-45)).
    reflexivity.
  - destruct s; discriminate.
  - discriminate.
  - destruct s; [discriminate|]. clear H0.
    pose proof (Prim2SF_valid u) as Vu. rewrite Eu in Vu.
    pose proof (valid_mantissa_below _ _ _ Vu) as Hm.
    apply ltb_finite_cases in H1.
    assert (He : e <= -53).
    { destruct H1 as [H1|[H1 H2]]; [lia|]. exfalso.
      cbn in Vu. unfold bounded, canonical_mantissa, fexp in Vu.
      apply andb_true_iff in Vu. destruct Vu as [Vu _]. apply Z.eqb_eq in Vu.
      assert (Dm : Z.pos (digits2_pos m) = 53).
      { unfold SpecFloat.emin, emax, prec in Vu. lia. }
      pose proof (F64.digits_lower m) as Lm. rewrite Dm in Lm.
      change (2 ^ 53) with 9007199254740992 in Lm. lia. }
    destruct (mul_positive_upper u 140 m e 4925812092436480 (-45) Eu eq_refl ltac:(lia))
      as [Hz|(q & eq & Hq & Hle & Hb)].
    + left. unfold F64.zero_like. rewrite Hz. reflexivity.
    + right. exists q, eq. split; [exact Hq|].
      pose proof (Prim2SF_valid (u * 140)%float) as Vq. rewrite Hq in Vq.
      apply (below_by_value q eq 4925812092436480 (-45) (e + -45) Vq eq_refl Hle);
        [lia|].
      replace (-45 - (e + -45)) with (- e) by lia.
      pose proof (F64.digits_mul m 4925812092436480) as Dm.
      pose proof (F64.valid_finite_bounds _ _ _ Vu) as [Du _]. unfold prec in Du.
      change (Z.pos (digits2_pos 4925812092436480)) with 53 in Dm.
      assert (HX : 2 ^ (Z.pos (digits2_pos (m * 4925812092436480)) - 53) <= 2 ^ 53).
      { apply Z.pow_le_mono_r; lia. }
      assert (HY : 2 ^ (emin - (e + -45)) <= 2 ^ (- e - 1000)).
      { replace (emin - (e + -45)) with (-1029 - e) by (unfold emin, emax, prec; lia).
        destruct (Z.le_gt_cases 0 (-1029 - e)).
        - apply Z.pow_le_mono_r; lia.
        - rewrite (Z.pow_neg_r 2 (-1029 - e)) by lia.
          apply Z.pow_nonneg. lia. }
      set (X := 2 ^ (Z.pos (digits2_pos (m * 4925812092436480)) - 53)) in *.
      set (Y := 2 ^ (emin - (e + -45))) in *.
      set (V := Z.pos q * 2 ^ (eq - (e + -45))) in *.
      change (2 ^ 53) with 9007199254740992 in *.
      destruct (Z.eq_dec e (-53)) as [->|Hne].
      * change (2 ^ (- -53)) with 9007199254740992.
        change (2 ^ (- -53 - 1000)) with 0 in HY. lia.
      * assert (HU : 2 ^ 54 <= 2 ^ (- e)) by (apply Z.pow_le_mono_r; lia).
        assert (HY' : 2 ^ (- e - 1000) <= 2 ^ (- e)) by (apply Z.pow_le_mono_r; lia).
        change (2 ^ 54) with 18014398509481984 in HU.
        set (U := 2 ^ (- e)) in *. nia.
Qed.

End Products.

(** ** The mock air quality index *)

(** Identity of two Numbers, decided on their specifications. *)
Definition same_number (a b : float) : bool :=
  match Prim2SF a, Prim2SF b with
  | S754_zero s, S754_zero s' => Bool.eqb s s'
  | S754_infinity s, S754_infinity s' => Bool.eqb s s'
  | S754_nan, S754_nan => true
  | S754_finite s m e, S754_finite s' m' e' =>
      Bool.eqb s s' && Pos.eqb m m' && Z.eqb e e'
  | _, _ => false
  end.

Lemma same_number_eq a b : same_number a b = true -> a = b.
Proof.
  unfold same_number. intros H. apply Prim2SF_inj.
  destruct (Prim2SF a) as [s|s| |s m e], (Prim2SF b) as [s'|s'| |s' m' e'];
    try discriminate; try reflexivity.
  - apply eqb_prop in H. congruence.
  - apply eqb_prop in H. congruence.
  - apply andb_true_iff in H. destruct H as [H He].
    apply andb_true_iff in H. destruct H as [Hs Hm].
    apply eqb_prop in Hs. apply Pos.eqb_eq in Hm. apply Z.eqb_eq in He. congruence.
Qed.

(** The 140 values of the mock index, checked one by one: adding 20 to the
    floor is exact, and the two comparisons are those of the integers. *)
Lemma aqi_table :
  forallb (fun n =>
    let z := Z.of_nat n in
    same_number ((if (z =? 0)%Z then 0 else number_of_Z z) + 20)%float
                (number_of_Z (z + 20))
    && Bool.eqb (number_of_Z (z + 20) <? 50)%float (z + 20 <? 50)%Z
    && Bool.eqb (100 <? number_of_Z (z + 20))%float (100 <? z + 20)%Z)
    (seq 0 140) = true.
Proof. vm_compute. reflexivity. Qed.

(** [Math.floor(Math.random() * 140) + 20] is one of the integers from 20
    to 159. *)
Lemma mockAQI_range u :
  (0 <=? u)%float = true -> (u <? 1)%float = true ->
  exists k : Z,
    (20 <= k <= 159)%Z
    /\ (Math_floor (u * 140) + 20)%float = number_of_Z k
    /\ (number_of_Z k <? 50)%float = (k <? 50)%Z
    /\ (100 <? number_of_Z k)%float = (100 <? k)%Z.
Proof.
  intros H0 H1.
  assert (Hz : (exists z, (0 <= z <= 139)%Z
                 /\ Math_floor (u * 140)%float
                    = (if (z =? 0)%Z then 0%float else number_of_Z z))
               \/ (exists z, z = 0%Z /\ Math_floor (u * 140)%float = (-0)%float)).
  { destruct (Products.random_scaled u H0 H1) as [Hzero|(m & e & Hq & Hlt)].
    - unfold F64.zero_like in Hzero. unfold Math_floor.
      destruct (Prim2SF (u * 140)%float) as [[]| | |] eqn:E; try discriminate.
      + right. exists 0%Z. split; [reflexivity|]. apply F64.neg_zero_spec, E.
      + left. exists 0%Z. split; [lia|]. apply F64.pos_zero_spec, E.
    - left. exists (Z.pos m / 2 ^ (- e))%Z.
      pose proof (Prim2SF_valid (u * 140)%float) as V. rewrite Hq in V.
      pose proof (Products.valid_mantissa_below _ _ _ V) as Hm.
      assert (He : (0 <=? e)%Z = false) by (apply Z.leb_gt; lia).
      split.
      + split; [apply Z.div_pos; [lia|apply Z.pow_pos_nonneg; lia]|].
        apply Z.lt_succ_r. apply Z.div_lt_upper_bound; [apply Z.pow_pos_nonneg; lia|].
        destruct Hlt as [Hlt|[-> Hlt]].
        * assert (Hp : (2 ^ 46 <= 2 ^ (- e))%Z) by (apply Z.pow_le_mono_r; lia).
          change (2 ^ 53)%Z with (128 * 2 ^ 46)%Z in Hm. lia.
        * change (2 ^ (- -45))%Z with 35184372088832%Z. lia.
      + unfold Math_floor. rewrite Hq, He. reflexivity. }
  pose proof aqi_table as T. rewrite forallb_forall in T.
  assert (Hk : forall z, (0 <= z <= 139)%Z ->
            ((if (z =? 0)%Z then 0 else number_of_Z z) + 20)%float = number_of_Z (z + 20)
            /\ (number_of_Z (z + 20) <? 50)%float = (z + 20 <? 50)%Z
            /\ (100 <? number_of_Z (z + 20))%float = (100 <? z + 20)%Z).
  { intros z Hz'. specialize (T (Z.to_nat z)). cbv zeta in T.
    rewrite Z2Nat.id in T by lia.
    assert (Hin : In (Z.to_nat z) (seq 0 140)) by (apply in_seq; lia).
    specialize (T Hin). apply andb_true_iff in T. destruct T as [T T3].
    apply andb_true_iff in T. destruct T as [T1 T2].
    apply same_number_eq in T1. apply eqb_prop in T2. apply eqb_prop in T3. auto. }
  destruct Hz as [(z & Hz & Hf)|(z & -> & Hf)].
  - exists (z + 20)%Z. destruct (Hk z Hz) as (K1 & K2 & K3).
    rewrite Hf. split; [lia|auto].
  - exists 20%Z. rewrite Hf. split; [lia|]. split; [|split]; vm_compute; reflexivity.
Qed.

(** ** Short routes *)

Module Footprint.
Import Rounding Products.
Open Scope Z_scope.

Set Warnings "-inexact-float".

(** A route of at most 25 m, driven: the emissions are below 5 g. *)
Lemma short_total_shape d :
  (0 <=? d)%float = true -> (d <=? 0.025)%float = true ->
  F64.zero_like (d * 0.192)%float = true
  \/ exists q e, Prim2SF (d * 0.192)%float = S754_finite false q e
                 /\ e < 0 /\ 200 * Z.pos q < 2 ^ (- e).
Proof.
  intros H0 H1. rewrite leb_spec in H0. rewrite leb_spec in H1.
  change (Prim2SF 0) with (S754_zero false) in H0.
  change (Prim2SF 0.025) with (S754_finite false 7205759403792794 (-58)) in H1.
  destruct (Prim2SF d) as [s|s| |s m e] eqn:Ed.
  - left. unfold F64.zero_like. rewrite mul_spec, Ed.
    change (Prim2SF 0.192) with (S754_finite false 6917529027641082 (-55)).
    reflexivity.
  - destruct s; discriminate.
  - discriminate.
  - destruct s; [discriminate|]. clear H0.
    pose proof (Prim2SF_valid d) as Vd. rewrite Ed in Vd.
    pose proof (valid_mantissa_below _ _ _ Vd) as Hm.
    apply leb_finite_cases in H1.
    destruct (mul_positive_upper d 0.192 m e 6917529027641082 (-55) Ed eq_refl ltac:(lia))
      as [Hz|(q & eq & Hq & Hle & Hb)].
    + left. unfold F64.zero_like. rewrite Hz. reflexivity.
    + right. exists q, eq. split; [exact Hq|].
      pose proof (F64.digits_mul m 6917529027641082) as Dm.
      pose proof (F64.valid_finite_bounds _ _ _ Vd) as [Du _]. unfold prec in Du.
      change (Z.pos (digits2_pos 6917529027641082)) with 53 in Dm.
      assert (HX : 2 ^ (Z.pos (digits2_pos (m * 6917529027641082)) - 53) <= 2 ^ 53).
      { apply Z.pow_le_mono_r; lia. }
      assert (HY : 2 ^ (emin - (e + -55)) <= 2 ^ (- e)).
      { replace (emin - (e + -55)) with (-1019 - e) by (unfold emin, emax, prec; lia).
        destruct (Z.le_gt_cases 0 (-1019 - e)).
        - apply Z.pow_le_mono_r; lia.
        - rewrite (Z.pow_neg_r 2 (-1019 - e)) by lia. apply Z.pow_nonneg. lia. }
      assert (HW : 2 ^ (- (e + -55)) = 2 ^ 55 * 2 ^ (- e)).
      { replace (- (e + -55)) with (55 + - e) by lia. apply Z.pow_add_r; lia. }
      assert (HV : 200 * (Z.pos q * 2 ^ (eq - (e + -55))) < 2 ^ (- (e + -55))).
      { rewrite HW.
        set (X := 2 ^ (Z.pos (digits2_pos (m * 6917529027641082)) - 53)) in *.
        set (Y := 2 ^ (emin - (e + -55))) in *.
        set (V := Z.pos q * 2 ^ (eq - (e + -55))) in *.
        change (2 ^ 53) with 9007199254740992 in *.
        change (2 ^ 55) with 36028797018963968.
        destruct H1 as [H1|[-> H1]].
        - assert (HU : 2 ^ 59 <= 2 ^ (- e)) by (apply Z.pow_le_mono_r; lia).
          change (2 ^ 59) with 576460752303423488 in HU.
          set (U := 2 ^ (- e)) in *. lia.
        - change (2 ^ (- -58)) with 288230376151711744 in *. lia. }
      set (E := e + -55) in *.
      pose proof (Z.pow_pos_nonneg 2 (eq - E) ltac:(lia) ltac:(lia)) as Hp.
      assert (Hneg : eq < 0).
      { destruct (Z.lt_ge_cases eq 0) as [|Hge]; [assumption|exfalso].
        assert (2 ^ (- E) <= 2 ^ (eq - E)) by (apply Z.pow_le_mono_r; lia). nia. }
      split; [exact Hneg|].
      replace (- E) with (- eq + (eq - E)) in HV by lia.
      rewrite Z.pow_add_r in HV by lia.
      pose proof (Z.pow_pos_nonneg 2 (- eq) ltac:(lia) ltac:(lia)).
      nia.
Qed.

(** The bus emissions of such a route are zero or positive and finite. *)
Lemma short_bus_shape d :
  (0 <=? d)%float = true -> (d <=? 0.025)%float = true ->
  F64.zero_like (d * 0.05)%float = true
  \/ exists q e, Prim2SF (d * 0.05)%float = S754_finite false q e.
Proof.
  intros H0 H1. rewrite leb_spec in H0. rewrite leb_spec in H1.
  change (Prim2SF 0) with (S754_zero false) in H0.
  change (Prim2SF 0.025) with (S754_finite false 7205759403792794 (-58)) in H1.
  destruct (Prim2SF d) as [s|s| |s m e] eqn:Ed.
  - left. unfold F64.zero_like. rewrite mul_spec, Ed.
    change (Prim2SF 0.05) with (S754_finite false 7205759403792794 (-57)).
    reflexivity.
  - destruct s; discriminate.
  - discriminate.
  - destruct s; [discriminate|]. apply leb_finite_cases in H1.
    destruct (mul_positive_upper d 0.05 m e 7205759403792794 (-57) Ed eq_refl ltac:(lia))
      as [Hz|(q & eq & Hq & _)].
    + left. unfold F64.zero_like. rewrite Hz. reflexivity.
    + right. eauto.
Qed.

Set Warnings "inexact-float".

End Footprint.

(** ** Distances within the search radius *)

(** A distance of at most 10 km is written with at most 1000 hundredths. *)
Lemma hundredths_at_most_ten d m e :
  Prim2SF d = S754_finite false m e -> (d <=? 10)%float = true ->
  (nearest_scaled m e 2 <= 1000)%N.
Proof.
  intros E H. pose proof (Prim2SF_valid d) as V. rewrite E in V.
  apply F64.valid_finite_bounds in V. destruct V as [Vd _].
  pose proof (F64.digits_upper m) as Hm.
  assert (Hm' : (Z.pos m < 2 ^ 53)%Z).
  { eapply Z.lt_le_trans; [exact Hm|]. apply Z.pow_le_mono_r; unfold prec in Vd; lia. }
  rewrite leb_spec, E in H.
  change (Prim2SF 10) with (S754_finite false 5629499534213120 (-49)) in H.
  apply Rounding.leb_finite_cases in H. rename H into Hcase.
  unfold nearest_scaled. change (10 ^ Z.of_nat 2)%Z with 100%Z.
  assert (He : (0 <=? e)%Z = false) by (apply Z.leb_gt; lia). rewrite He.
  apply N2Z.inj_le. rewrite Z2N.id.
  2:{ apply Z.div_pos; [|apply Z.pow_pos_nonneg; lia].
      pose proof (Z.pow_pos_nonneg 2 (- e) ltac:(lia) ltac:(lia)). lia. }
  change (Z.of_N 1000) with 1000%Z.
  assert (Hp : (2 ^ 50 <= 2 ^ (- e))%Z \/ (e = -49)%Z).
  { destruct (Z.eq_dec e (-49)); [right; assumption|left].
    apply Z.pow_le_mono_r; lia. }
  apply Z.lt_succ_r. apply Z.div_lt_upper_bound; [apply Z.pow_pos_nonneg; lia|].
  replace (- e + 1)%Z with (Z.succ (- e)) by lia. rewrite Z.pow_succ_r by lia.
  destruct Hcase as [Hlt|[-> Hle]].
  - destruct Hp as [Hp|Hp]; [|lia].
    change (2 ^ 53)%Z with (8 * 2 ^ 50)%Z in Hm'. lia.
  - change (2 ^ (- -49))%Z with 562949953421312%Z. lia.
Qed.

(* ================================================================== *)
(** * Lemmas on sequences of requests *)
(* ================================================================== *)

Section Runs.

Context {rt : JSRuntime}.

Lemma reachable_run reqs st : reachable st -> reachable (run reqs st).
Proof.
  revert st. induction reqs as [|req reqs IH]; intros st H; cbn; [exact H|].
  apply IH. constructor. exact H.
Qed.

Lemma handle_extends req st :
  exists newUsers newRides,
    (snd (handle req st)).(users) = (st.(users) ++ newUsers)%list
    /\ (snd (handle req st)).(rides) = (st.(rides) ++ newRides)%list.
Proof.
  assert (Hsame : exists newUsers newRides,
            st.(users) = (st.(users) ++ newUsers)%list
            /\ st.(rides) = (st.(rides) ++ newRides)%list).
  { exists [], []. rewrite !app_nil_r. auto. }
  destruct req as [now e p n|e p|now stamp tok la ln tm ps ds|la ln uid];
    cbn [handle].
  - unfold signup.
    destruct (negb (truthy e) || negb (truthy p) || negb (truthy n)); [exact Hsame|].
    destruct (find _ _); [exact Hsame|].
    exists [mkUser (decimal_numeral now) e p n], [].
    destruct (ToString e); cbn [snd users rides]; rewrite app_nil_r; auto.
  - unfold login. destruct (find _ _); [destruct (ToString _)|]; exact Hsame.
  - unfold publish.
    destruct (negb (truthy tok) || negb (truthy la) || negb (truthy ln));
      [exact Hsame|].
    destruct (parseFloat la) as [la'|], (parseFloat ln) as [ln'|],
      (parseInt ps) as [ps'|]; try exact Hsame.
    exists [], [mkRide (decimal_numeral now) tok la' ln' ds tm ps' stamp].
    destruct (ToString tm), (ToString la), (ToString ln);
      cbn [snd users rides]; rewrite app_nil_r; auto.
  - unfold search. destruct (negb (truthy la) || negb (truthy ln)); [exact Hsame|].
    destruct (parseFloat la), (parseFloat ln); exact Hsame.
Qed.

Lemma run_extends reqs st :
  exists newUsers newRides,
    (run reqs st).(users) = (st.(users) ++ newUsers)%list
    /\ (run reqs st).(rides) = (st.(rides) ++ newRides)%list.
Proof.
  revert st. induction reqs as [|req reqs IH]; intros st.
  - exists [], []. rewrite !app_nil_r. auto.
  - change (run (req :: reqs) st) with (run reqs (snd (handle req st))).
    destruct (IH (snd (handle req st))) as (us & rs & Hu & Hr).
    destruct (handle_extends req st) as (us0 & rs0 & Hu0 & Hr0).
    exists (us0 ++ us)%list, (rs0 ++ rs)%list.
    rewrite Hu, Hr, Hu0, Hr0, !app_assoc. auto.
Qed.

(** What a 201 from signup tells. *)
Lemma signup_created now email password name st r :
  fst (signup now email password name st) = Sent r -> status r = 201%nat ->
  truthy email = true
  /\ r = mkResponse 201 (SignupBody "Registration successful" (decimal_numeral now) name)
  /\ snd (signup now email password name st)
     = mkServer (st.(users) ++ [mkUser (decimal_numeral now) email password name]) st.(rides).
Proof.
  unfold signup. destruct (truthy email); cbn [negb orb].
  - destruct (negb (truthy password) || negb (truthy name)).
    + cbn. intros [= <-]. discriminate.
    + destruct (find _ _).
      * cbn. intros [= <-]. discriminate.
      * destruct (ToString email); cbn; [|discriminate].
        intros [= <-] _. auto.
  - cbn. intros [= <-]. discriminate.
Qed.

(** In a list with distinct truthy emails, an email names one user. *)
Lemma same_email_same_user us u v :
  users_ok us -> In u us -> In v us ->
  strict_eq u.(email) v.(email) = true -> u = v.
Proof.
  intros [Ht Hd] Hu Hv He.
  induction us as [|u0 rest IH]; [destruct Hu|].
  inversion Ht as [|? ? Ht0 Htrest]; subst. destruct Hd as [Hd0 Hdrest].
  rewrite Forall_forall in Htrest.
  destruct Hu as [->|Hu], Hv as [->|Hv].
  - reflexivity.
  - rewrite (Hd0 v Hv) in He. discriminate.
  - pose proof (strict_eq_identical _ _ (Htrest u Hu) He) as E.
    specialize (Hd0 u Hu). rewrite <- E in Hd0. rewrite <- E in He. congruence.
  - apply IH; auto. apply Forall_forall. exact Htrest.
Qed.

(** A stored user logs in with its own credentials and with no other
    password. *)
Lemma login_stored st u e p :
  reachable st -> In u st.(users) ->
  u.(email) = JStr e -> u.(password) = JStr p ->
  login (JStr e) (JStr p) st
  = (json 200 (LoginBody "Login successful" u.(id) u.(name)), st).
Proof.
  intros Hr Hin He Hp. unfold login.
  rewrite (find_credentials_unique st.(users) (JStr e) (JStr p) u).
  - reflexivity.
  - apply reachable_users_ok, Hr.
  - exact Hin.
  - rewrite He. apply String.eqb_refl.
  - rewrite Hp. apply String.eqb_refl.
Qed.

Lemma login_other_password st u email' password' :
  reachable st -> In u st.(users) ->
  strict_eq u.(email) email' = true ->
  strict_eq u.(password) password' = false ->
  login email' password' st = (json 401 (ErrorBody "Invalid email or password."), st).
Proof.
  intros Hr Hin He Hp. unfold login.
  destruct (find _ _) as [v|] eqn:Ef; [|reflexivity]. exfalso.
  apply find_some in Ef. destruct Ef as [Hv Hc].
  apply andb_true_iff in Hc. destruct Hc as [Hve Hvp].
  pose proof (reachable_users_ok st Hr) as Hok.
  assert (Tu : truthy u.(email) = true).
  { destruct Hok as [Ht _]. rewrite Forall_forall in Ht. apply Ht, Hin. }
  pose proof (strict_eq_identical _ _ Tu He) as E.
  assert (u = v).
  { apply (same_email_same_user st.(users)); auto.
    assert (Tv : truthy v.(email) = true).
    { destruct Hok as [Ht _]. rewrite Forall_forall in Ht. apply Ht, Hv. }
    rewrite (strict_eq_identical _ _ Tv Hve). exact He. }
  subst v. congruence.
Qed.

Lemma find_present {A : Type} (f : A -> bool) (l : list A) (a : A) :
  In a l -> f a = true -> exists b, find f l = Some b.
Proof.
  intros Hin Hf. destruct (find f l) as [b|] eqn:E; [eauto|].
  rewrite (find_none f l E a Hin) in Hf. discriminate.
Qed.

Lemma created_user_later now email password name st reqs r :
  reachable st ->
  fst (signup now email password name st) = Sent r -> status r = 201%nat ->
  let later := run reqs (snd (signup now email password name st)) in
  reachable later
  /\ In (mkUser (decimal_numeral now) email password name) later.(users)
  /\ r = mkResponse 201 (SignupBody "Registration successful" (decimal_numeral now) name).
Proof.
  intros Hr Hs Hc later.
  destruct (signup_created now email password name st r Hs Hc) as (_ & Er & Est).
  split; [|split; [|exact Er]].
  - apply reachable_run. exact (reach_request st (Signup now email password name) Hr).
  - subst later. destruct (run_extends reqs (snd (signup now email password name st)))
      as (us & rs & Hu & _).
    rewrite Hu, Est. cbn [users]. apply in_or_app. left. apply in_or_app. right.
    left. reflexivity.
Qed.

(** What a 201 from publish tells. *)
Lemma publish_created now stamp token lat lng tm ps ds st r :
  fst (publish now stamp token lat lng tm ps ds st) = Sent r -> status r = 201%nat ->
  exists la ln p,
    truthy token = true
    /\ parseFloat lat = Some la /\ parseFloat lng = Some ln /\ parseInt ps = Some p
    /\ snd (publish now stamp token lat lng tm ps ds st)
       = mkServer st.(users)
           (st.(rides) ++ [mkRide (decimal_numeral now) token la ln ds tm p stamp]).
Proof.
  unfold publish.
  destruct (truthy token); cbn [negb orb]; [|cbn; intros [= <-]; discriminate].
  destruct (negb (truthy lat) || negb (truthy lng));
    [cbn; intros [= <-]; discriminate|].
  destruct (parseFloat lat) as [la|]; [|discriminate].
  destruct (parseFloat lng) as [ln|]; [|discriminate].
  destruct (parseInt ps) as [p|]; [|discriminate].
  destruct (ToString tm), (ToString lat), (ToString lng); try discriminate.
  intros _ _. exists la, ln, p. auto.
Qed.


Lemma distance_nan_lat2 lat1 lon1 lon2 :
  getDistanceFromLatLonInKm lat1 lon1 nan lon2 = nan.
Proof. apply distance_nan_dlat, F64.sub_nan_l. Qed.

Lemma distance_nan_lon2 lat1 lon1 lat2 :
  getDistanceFromLatLonInKm lat1 lon1 lat2 nan = nan.
Proof.
  rewrite distance_unfold. cbv zeta. apply distance_of_nan.
  rewrite F64.sub_nan_l. change (deg2rad nan / 2)%float with nan.
  rewrite sin_nan, !F64.mul_nan_r. apply F64.add_nan_r.
Qed.

Lemma primitive_printable v : primitive v = true -> exists s, ToString v = Some s.
Proof. destruct v as [| |[]| | |]; cbn; try discriminate; eauto. Qed.

End Runs.

(** [===] does not depend on the order of its operands. *)
Lemma SFeqb_sym x y : SFeqb x y = SFeqb y x.
Proof.
  unfold SFeqb, SFcompare.
  destruct x as [[]|[]| |[] mx ex], y as [[]|[]| |[] my ey]; try reflexivity.
  - rewrite (Z.compare_antisym ey ex), !Pos.compare_cont_spec,
      (Pos.compare_antisym my mx).
    destruct (ey ?= ex)%Z, (my ?= mx)%positive; reflexivity.
  - rewrite (Z.compare_antisym ey ex), !Pos.compare_cont_spec,
      (Pos.compare_antisym my mx).
    destruct (ey ?= ex)%Z, (my ?= mx)%positive; reflexivity.
Qed.

Lemma strict_eq_sym a b : strict_eq a b = strict_eq b a.
Proof.
  destruct a as [| |x|x|x|x], b as [| |y|y|y|y]; cbn [strict_eq]; try reflexivity.
  - destruct x, y; reflexivity.
  - rewrite !FloatAxioms.eqb_spec. apply SFeqb_sym.
  - apply String.eqb_sym.
Qed.

(* ================================================================== *)
(** * Properties of the server over several requests *)
(* ================================================================== *)

(** Requests that follow Ann's registration: somebody tries to take her
    address, then a ride is published. *)
Definition later_requests : list request :=
  [ Signup 1730000000500 (JStr "ann@example.org") (JStr "guess") (JStr "Eve");
    Publish 1730000000600 1730000000600 (JStr "1730000000000") (JNum 12.5)
            (JNum 77.5) (JStr "DRIVER") (JStr "3") (JStr "Airport") ].

Definition ann_created : response :=
  mkResponse 201 (SignupBody "Registration successful" "1730000000000" (JStr "Ann")).

(** The sample server after these requests. *)
Definition ann_later : Server := @run coarse_runtime later_requests one_user.

(** The sample server with one ride, published by Ann. *)
Definition ann_published : Server :=
  {| users := [ann];
     rides := [mkRide "1730000000600" (JStr "1730000000000") 12.5 77.5
                 (JStr "Airport") (JStr "DRIVER") 3 1730000000600] |}.

(** A ride whose latitude was sent as "north". *)
Definition lost_ride : RideRequest :=
  mkRide "1730000000600" (JStr "1730000000000") nan 77.5
         (JStr "Airport") (JStr "DRIVER") 3 1730000000600.

(** X3: signing up, then logging in.  After a signup that was answered 201
    with string email and password, and whatever requests the server has
    served since, a login with the same email and password is answered 200
    with the id the signup returned as token, and the name given at
    signup. *)
Theorem signup_then_login {rt : JSRuntime} now e p name st reqs r :
  reachable st ->
  fst (signup now (JStr e) (JStr p) name st) = Sent r -> status r = 201%nat ->
  let later := run reqs (snd (signup now (JStr e) (JStr p) name st)) in
  body r = SignupBody "Registration successful" (decimal_numeral now) name
  /\ login (JStr e) (JStr p) later
     = (json 200 (LoginBody "Login successful" (decimal_numeral now) name), later).
Proof.
  intros Hr Hs Hc later.
  destruct (created_user_later now (JStr e) (JStr p) name st reqs r Hr Hs Hc)
    as (Hl & Hin & ->).
  split; [reflexivity|].
  exact (login_stored later _ e p Hl Hin eq_refl eq_refl).
Qed.

Lemma signup_then_login_witness :
  @reachable coarse_runtime initial
  /\ fst (@signup coarse_runtime 1730000000000 (JStr "ann@example.org")
            (JStr "secret") (JStr "Ann") initial) = Sent ann_created
  /\ @login coarse_runtime (JStr "ann@example.org") (JStr "secret") ann_later
     = (json 200 (LoginBody "Login successful" "1730000000000" (JStr "Ann")),
        ann_later).
Proof.
  split; [exact (@reach_initial coarse_runtime)|]. split; [reflexivity|].
  exact (proj2 (@signup_then_login coarse_runtime 1730000000000 "ann@example.org"
                  "secret" (JStr "Ann") initial later_requests ann_created
                  (@reach_initial coarse_runtime) eq_refl eq_refl)).
Defined.

(** X4: a registered email stays with its password.  After a signup that
    was answered 201, and whatever requests the server has served since,
    a login with that email and any other password is answered 401, and
    every further signup with that email is refused (409, or 400 when its
    password or name is missing) and changes nothing. *)
Theorem registered_email_is_taken {rt : JSRuntime} now e p name st reqs r :
  reachable st ->
  fst (signup now (JStr e) (JStr p) name st) = Sent r -> status r = 201%nat ->
  let later := run reqs (snd (signup now (JStr e) (JStr p) name st)) in
  (forall password', strict_eq (JStr p) password' = false ->
     login (JStr e) password' later
     = (json 401 (ErrorBody "Invalid email or password."), later))
  /\ (forall now' password' name',
        signup now' (JStr e) password' name' later
        = (if truthy password' && truthy name'
           then json 409 (ErrorBody "User already exists with this email.")
           else json 400 (ErrorBody "All fields (name, email, password) are required."),
           later)).
Proof.
  intros Hr Hs Hc later.
  destruct (created_user_later now (JStr e) (JStr p) name st reqs r Hr Hs Hc)
    as (Hl & Hin & _).
  destruct (signup_created now (JStr e) (JStr p) name st r Hs Hc) as (Te & _ & _).
  fold later in Hl, Hin. split.
  - intros password' Hp.
    apply (login_other_password later _ (JStr e) password' Hl Hin);
      [apply String.eqb_refl|exact Hp].
  - intros now' password' name'. unfold signup. rewrite Te. cbn [negb orb].
    destruct (truthy password'), (truthy name'); cbn [negb orb andb]; try reflexivity.
    destruct (find_present (fun u => strict_eq u.(email) (JStr e)) later.(users) _ Hin)
      as [b ->]; [apply String.eqb_refl|reflexivity].
Qed.

Lemma registered_email_is_taken_witness :
  @login coarse_runtime (JStr "ann@example.org") (JStr "guess") ann_later
  = (json 401 (ErrorBody "Invalid email or password."), ann_later)
  /\ @signup coarse_runtime 1730000000900 (JStr "ann@example.org") (JStr "guess")
       (JStr "Eve") ann_later
     = (json 409 (ErrorBody "User already exists with this email."), ann_later).
Proof.
  pose proof (@registered_email_is_taken coarse_runtime 1730000000000 "ann@example.org"
                "secret" (JStr "Ann") initial later_requests ann_created
                (@reach_initial coarse_runtime) eq_refl eq_refl) as [H1 H2].
  split.
  - exact (H1 (JStr "guess") eq_refl).
  - exact (H2 1730000000900%N (JStr "guess") (JStr "Eve")).
Defined.



(** X6: publishing, then searching.  After a publish request that was
    answered 201 at finite coordinates, a search from the same coordinates
    returns what it returned before followed by the new ride, with the
    parsed passengers and the distance "0.00"; except for the publisher
    (userId === token), whose results are unchanged.  On a runtime whose
    [Math.cos] stays in [-1, 1]. *)
Theorem publish_then_search {rt : JSRuntime}
    now stamp token lat lng tm ps ds st r la ln qlat qlng userId :
  cos_in_range rt ->
  fst (publish now stamp token lat lng tm ps ds st) = Sent r -> status r = 201%nat ->
  parseFloat lat = Some la -> parseFloat lng = Some ln ->
  Number_isFinite la = true -> Number_isFinite ln = true ->
  truthy qlat = true -> truthy qlng = true ->
  parseFloat qlat = Some la -> parseFloat qlng = Some ln ->
  let st' := snd (publish now stamp token lat lng tm ps ds st) in
  exists before p,
    parseInt ps = Some p
    /\ search qlat qlng userId st = (json 200 (SearchBody before), st)
    /\ search qlat qlng userId st'
       = (json 200 (SearchBody
            (if strict_eq token userId then before
             else before ++ [Match.mk tm ds p "0.00"])), st').
Proof.
  intros Hcos Hs Hc Pla Pln Fla Fln Tq1 Tq2 Pq1 Pq2 st'.
  destruct (publish_created now stamp token lat lng tm ps ds st r Hs Hc)
    as (la' & ln' & p & Tt & Pla' & Pln' & Pp & Est).
  rewrite Pla in Pla'. rewrite Pln in Pln'. injection Pla' as <-. injection Pln' as <-.
  exists (map (to_response la ln) (filter (is_match la ln userId) st.(rides))), p.
  split; [exact Pp|]. split; [apply search_sends; assumption|].
  rewrite (search_sends qlat qlng userId st' la ln Tq1 Tq2 Pq1 Pq2).
  subst st'. rewrite Est. cbn [rides]. rewrite filter_app, map_app.
  cbn [filter]. unfold is_match at 2. cbn [Data.userId Data.lat Data.lng].
  destruct (strict_eq token userId) eqn:E.
  - rewrite <- (strict_eq_identical _ _ Tt E), Tt. cbn [andb map].
    rewrite app_nil_r. reflexivity.
  - rewrite andb_false_r, (distance_diag la ln Hcos Fla Fln).
    change (0 <=? SEARCH_RADIUS_KM)%float with true. cbn [map].
    unfold to_response. cbn [Data.transportMode Data.destination Data.passengers Data.lat Data.lng].
    rewrite (distance_diag la ln Hcos Fla Fln). reflexivity.
Qed.

Lemma publish_then_search_witness :
  exists before p,
    @parseInt coarse_runtime (JStr "3") = Some p
    /\ @search coarse_runtime (JStr "12.5") (JStr "77.5") (JStr "1730000000777") one_user
       = (json 200 (SearchBody before), one_user)
    /\ @search coarse_runtime (JStr "12.5") (JStr "77.5") (JStr "1730000000777")
         ann_published
       = (json 200 (SearchBody
            (before ++ [Match.mk (JStr "DRIVER") (JStr "Airport") p "0.00"])),
          ann_published).
Proof.
  exact (@publish_then_search coarse_runtime 1730000000600 1730000000600
           (JStr "1730000000000") (JNum 12.5) (JNum 77.5) (JStr "DRIVER") (JStr "3")
           (JStr "Airport") one_user
           (mkResponse 201 (RideBody "Ride request published successfully"
                              "1730000000600"))
           12.5%float 77.5%float (JStr "12.5") (JStr "77.5") (JStr "1730000000777")
           coarse_cos_in_range eq_refl eq_refl eq_refl eq_refl eq_refl eq_refl
           eq_refl eq_refl eq_refl eq_refl).
Defined.



(** X8: a ride nobody can find.  A publish request whose latitude or
    longitude is present but reads as NaN (such as the string "north")
    passes the validation, is answered 201 and is stored; and the stored
    ride matches no search, wherever it is made from and by whomever. *)
Theorem unparsable_ride_never_matches {rt : JSRuntime}
    now stamp token lat lng tm ps ds st la ln p :
  truthy token && truthy lat && truthy lng = true ->
  parseFloat lat = Some la -> parseFloat lng = Some ln ->
  parseInt ps = Some p -> (exists s, ToString tm = Some s) ->
  la = nan \/ ln = nan ->
  let ride := mkRide (decimal_numeral now) token la ln ds tm p stamp in
  publish now stamp token lat lng tm ps ds st
  = (json 201 (RideBody "Ride request published successfully" (decimal_numeral now)),
     mkServer st.(users) (st.(rides) ++ [ride]))
  /\ forall userLat userLng userId, is_match userLat userLng userId ride = false.
Proof.
  intros Ht Pla Pln Pp Htm Hnan ride.
  destruct (publish_stores now stamp token lat lng tm ps ds st la ln p Ht Pla Pln Pp)
    as [Hsnd Hfst].
  split.
  - rewrite (surjective_pairing (publish _ _ _ _ _ _ _ _ _)).
    rewrite Hsnd, (Hfst Htm). reflexivity.
  - intros userLat userLng userId. unfold is_match.
    destruct (truthy userId && strict_eq _ _); [reflexivity|].
    subst ride. cbn [Data.lat Data.lng].
    destruct Hnan as [-> | ->].
    + rewrite distance_nan_lat2. reflexivity.
    + rewrite distance_nan_lon2. reflexivity.
Qed.

Lemma unparsable_ride_never_matches_witness :
  @publish coarse_runtime 1730000000600 1730000000600 (JStr "1730000000000")
    (JStr "north") (JNum 77.5) (JStr "DRIVER") (JStr "3") (JStr "Airport") one_user
  = (json 201 (RideBody "Ride request published successfully" "1730000000600"),
     mkServer one_user.(users) [lost_ride])
  /\ @is_match coarse_runtime 12.5 77.5 JUndefined lost_ride = false.
Proof.
  pose proof (@unparsable_ride_never_matches coarse_runtime 1730000000600 1730000000600
                (JStr "1730000000000") (JStr "north") (JNum 77.5) (JStr "DRIVER")
                (JStr "3") (JStr "Airport") one_user nan 77.5%float 3%float
                eq_refl eq_refl eq_refl eq_refl (ex_intro _ "DRIVER" eq_refl)
                (or_introl eq_refl)) as [H1 H2].
  split; [exact H1|exact (H2 12.5%float 77.5%float JUndefined)].
Defined.

(** X9: the distance shown.  Every element of a search response carries
    the [toFixed(2)] of a distance of at most 10; when that distance is
    not negative, the string is a numeral of at most 1000 hundredths
    (from "0.00" to "10.00"). *)
Theorem listed_distance_at_most_ten {rt : JSRuntime}
    lat lng userId st userLat userLng :
  truthy lat = true -> truthy lng = true ->
  parseFloat lat = Some userLat -> parseFloat lng = Some userLng ->
  exists matches,
    search lat lng userId st = (json 200 (SearchBody matches), st)
    /\ Forall (fun m =>
         exists d, m.(Match.distanceKm) = toFixed d 2
           /\ (d <=? 10)%float = true
           /\ ((0 <=? d)%float = true ->
               exists n, m.(Match.distanceKm) = fixed_point n 2 /\ (n <= 1000)%N))
       matches.
Proof.
  intros Ta Tb Pa Pb. eexists. split; [apply search_sends; eassumption|].
  apply Forall_forall. intros m Hm. apply in_map_iff in Hm.
  destruct Hm as (ride & <- & Hin). apply filter_In in Hin. destruct Hin as [_ Hmatch].
  apply is_match_spec in Hmatch. destruct Hmatch as [Hd _].
  exists (getDistanceFromLatLonInKm userLat userLng ride.(Data.lat) ride.(Data.lng)).
  cbn [to_response Match.distanceKm]. split; [reflexivity|]. split; [exact Hd|].
  intros H0. set (d := getDistanceFromLatLonInKm _ _ _ _) in *.
  pose proof H0 as H0'. rewrite leb_spec in H0'.
  change (Prim2SF 0) with (S754_zero false) in H0'.
  destruct (Prim2SF d) as [s|s| |s m e] eqn:E.
  - exists 0%N. unfold toFixed. rewrite E. split; [reflexivity|lia].
  - destruct s; [discriminate|]. rewrite leb_spec, E in Hd. discriminate.
  - discriminate.
  - destruct s; [discriminate|]. exists (nearest_scaled m e 2). split.
    + rewrite (toFixed_finite d false m e 2 E); [reflexivity|].
      rewrite (F64.abs_nonneg d m e E).
      apply (F64.at_most_ten_below_1e21 d m e E Hd).
    + apply (hundredths_at_most_ten d m e E Hd).
Qed.

Lemma listed_distance_at_most_ten_witness :
  exists matches,
    @search coarse_runtime (JStr "12.5") (JStr "77.5") JUndefined two_rides
    = (json 200 (SearchBody matches), two_rides)
    /\ Forall (fun m =>
         exists d, m.(Match.distanceKm) = @toFixed coarse_runtime d 2
           /\ (d <=? 10)%float = true
           /\ ((0 <=? d)%float = true ->
               exists n, m.(Match.distanceKm) = fixed_point n 2 /\ (n <= 1000)%N))
       matches.
Proof.
  exact (@listed_distance_at_most_ten coarse_runtime (JStr "12.5") (JStr "77.5")
           JUndefined two_rides 12.5%float 77.5%float eq_refl eq_refl eq_refl eq_refl).
Defined.

(** X10: a signup that fails after it has stored.  When the email cannot
    be converted to a string, the template literal of the log line throws
    after [users.push]: the request ends with an uncaught exception
    (Express answers 500) and the user is in the list. *)
Theorem signup_stores_before_it_throws {rt : JSRuntime}
    now email password name st :
  truthy password = true -> truthy name = true -> ToString email = None ->
  signup now email password name st
  = (Uncaught,
     mkServer (st.(users) ++ [mkUser (decimal_numeral now) email password name])
              st.(rides)).
Proof.
  intros Tp Tn He. unfold signup.
  destruct email as [| |[]| | |[s|]]; try discriminate.
  cbn [truthy negb orb]. rewrite Tp, Tn. cbn [negb orb].
  assert (Hf : find (fun u => strict_eq u.(Data.email) (JObj None)) st.(users) = None).
  { induction st.(users) as [|u us IH]; [reflexivity|]. cbn [find].
    destruct u.(Data.email); cbn [strict_eq]; exact IH. }
  rewrite Hf. reflexivity.
Qed.

Lemma signup_stores_before_it_throws_witness :
  @signup coarse_runtime 1730000000000 (JObj None) (JStr "secret") (JStr "Ann") initial
  = (Uncaught,
     mkServer [mkUser "1730000000000" (JObj None) (JStr "secret") (JStr "Ann")] []).
Proof.
  exact (@signup_stores_before_it_throws coarse_runtime 1730000000000 (JObj None)
           (JStr "secret") (JStr "Ann") initial eq_refl eq_refl eq_refl).
Defined.

(** X11: the same for a ride.  When [transportMode] cannot be converted to
    a string, the publish request ends with an uncaught exception and the
    ride is in the list. *)
Theorem publish_stores_before_it_throws {rt : JSRuntime}
    now stamp token lat lng tm ps ds st la ln p :
  truthy token && truthy lat && truthy lng = true ->
  parseFloat lat = Some la -> parseFloat lng = Some ln -> parseInt ps = Some p ->
  ToString tm = None ->
  publish now stamp token lat lng tm ps ds st
  = (Uncaught,
     mkServer st.(users)
       (st.(rides) ++ [mkRide (decimal_numeral now) token la ln ds tm p stamp])).
Proof.
  intros Ht Pa Pb Pp Htm. unfold publish.
  destruct (truthy token), (truthy lat), (truthy lng); try discriminate.
  cbn [negb orb]. rewrite Pa, Pb, Pp, Htm. reflexivity.
Qed.

Lemma publish_stores_before_it_throws_witness :
  @publish coarse_runtime 1730000000600 1730000000600 (JStr "1730000000000")
    (JNum 12.5) (JNum 77.5) (JObj None) (JStr "3") (JStr "Airport") initial
  = (Uncaught,
     mkServer [] [mkRide "1730000000600" (JStr "1730000000000") 12.5 77.5
                    (JStr "Airport") (JObj None) 3 1730000000600]).
Proof.
  exact (@publish_stores_before_it_throws coarse_runtime 1730000000600 1730000000600
           (JStr "1730000000000") (JNum 12.5) (JNum 77.5) (JObj None) (JStr "3")
           (JStr "Airport") initial 12.5%float 77.5%float 3%float
           eq_refl eq_refl eq_refl eq_refl eq_refl).
Defined.

(** X12: no exception on primitives.  A request whose fields are all
    strings, Numbers, booleans, [null] or absent always gets a response
    from its handler. *)
Theorem primitives_never_throw {rt : JSRuntime} req st :
  primitive_request req = true -> exists r, fst (handle req st) = Sent r.
Proof.
  destruct req as [now e p n|e p|now stamp tok la ln tm ps ds|la ln uid];
    cbn [handle primitive_request]; intros H;
    repeat (apply andb_true_iff in H; destruct H as [H ?]).
  - unfold signup.
    destruct (negb (truthy e) || negb (truthy p) || negb (truthy n));
      [cbn [fst]; unfold json; eauto|].
    destruct (find _ _); [cbn [fst]; unfold json; eauto|].
    destruct (primitive_printable e H) as [s ->]. cbn [fst]; unfold json; eauto.
  - unfold login. destruct (find _ _); [|cbn [fst]; unfold json; eauto].
    destruct (primitive_printable e H) as [s ->]. cbn [fst]; unfold json; eauto.
  - unfold publish, parseFloat, parseInt.
    destruct (negb (truthy tok) || negb (truthy la) || negb (truthy ln));
      [cbn [fst]; unfold json; eauto|].
    destruct (primitive_printable la) as [s1 ->]; [assumption|].
    destruct (primitive_printable ln) as [s2 ->]; [assumption|].
    destruct (primitive_printable ps) as [s3 ->]; [assumption|].
    destruct (primitive_printable tm) as [s4 ->]; [assumption|].
    cbn [option_map fst]; unfold json; eauto.
  - unfold search, parseFloat.
    destruct (negb (truthy la) || negb (truthy ln)); [cbn [fst]; unfold json; eauto|].
    destruct (primitive_printable la) as [s1 ->]; [assumption|].
    destruct (primitive_printable ln) as [s2 ->]; [assumption|].
    cbn [option_map fst]; unfold json; eauto.
Qed.

Lemma primitives_never_throw_witness :
  exists r,
    fst (@handle coarse_runtime (Search (JStr "north") (JBool true) JNull) two_rides)
    = Sent r.
Proof.
  exact (@primitives_never_throw coarse_runtime
           (Search (JStr "north") (JBool true) JNull) two_rides eq_refl).
Defined.

(** X23: matching is mutual.  For two rides stored in a reachable state,
    the second is kept by the filter of a search made from the position
    and under the userId of the first exactly when the first is kept by
    the filter of a search made from the position and under the userId of
    the second.  On a runtime whose [Math.sin] is odd. *)
Theorem matching_is_mutual {rt : JSRuntime} st (r1 r2 : RideRequest) :
  sin_is_odd rt ->
  reachable st -> In r1 st.(rides) -> In r2 st.(rides) ->
  is_match r1.(lat) r1.(lng) r1.(userId) r2
  = is_match r2.(lat) r2.(lng) r2.(userId) r1.
Proof.
  intros Hodd Hr H1 H2.
  pose proof (reachable_rides_owned st Hr) as Hall. rewrite Forall_forall in Hall.
  unfold is_match. rewrite (Hall r1 H1), (Hall r2 H2). cbn [andb].
  rewrite (strict_eq_sym r2.(userId) r1.(userId)).
  rewrite (distance_swap r1.(lat) r1.(lng) r2.(lat) r2.(lng) Hodd). reflexivity.
Qed.

(** The sample server after a second ride, published by Bob. *)
Definition two_published : Server :=
  snd (@publish coarse_runtime 1730000000999 1730000000999 (JStr "1730000000001")
         (JNum 12.53125) (JNum 77.5) (JStr "RIDER") (JStr "2") (JStr "Mall")
         ann_published).

Lemma matching_is_mutual_witness :
  @reachable coarse_runtime two_published
  /\ @is_match coarse_runtime 12.5 77.5 (JStr "1730000000000")
       (mkRide "1730000000999" (JStr "1730000000001") 12.53125 77.5
               (JStr "Mall") (JStr "RIDER") 2 1730000000999)
     = @is_match coarse_runtime 12.53125 77.5 (JStr "1730000000001")
         (mkRide "1730000000600" (JStr "1730000000000") 12.5 77.5
                 (JStr "Airport") (JStr "DRIVER") 3 1730000000600).
Proof.
  assert (Hr : @reachable coarse_runtime two_published).
  { exact (@reach_request coarse_runtime _
             (Publish 1730000000999 1730000000999 (JStr "1730000000001")
                (JNum 12.53125) (JNum 77.5) (JStr "RIDER") (JStr "2") (JStr "Mall"))
             (@reach_request coarse_runtime _
                (Publish 1730000000600 1730000000600 (JStr "1730000000000")
                   (JNum 12.5) (JNum 77.5) (JStr "DRIVER") (JStr "3") (JStr "Airport"))
                one_user_reachable)). }
  split; [exact Hr|].
  exact (@matching_is_mutual coarse_runtime two_published
           (mkRide "1730000000600" (JStr "1730000000000") 12.5 77.5
                   (JStr "Airport") (JStr "DRIVER") 3 1730000000600)
           (mkRide "1730000000999" (JStr "1730000000001") 12.53125 77.5
                   (JStr "Mall") (JStr "RIDER") 2 1730000000999)
           coarse_sin_is_odd Hr (or_introl eq_refl) (or_intror (or_introl eq_refl))).
Defined.


(* ================================================================== *)
(** * Lemmas on the client *)
(* ================================================================== *)

Module ClientFacts.
Import Client.

(** ** Token lists *)

Lemma contains_app token l1 l2 :
  contains token (l1 ++ l2) = contains token l1 || contains token l2.
Proof. apply existsb_app. Qed.

Lemma contains_add token t l :
  contains token (add t l) = String.eqb token t || contains token l.
Proof.
  unfold add. destruct (contains t l) eqn:E.
  - destruct (String.eqb_spec token t) as [->|]; [rewrite E|]; reflexivity.
  - rewrite contains_app. cbn. rewrite orb_false_r. apply orb_comm.
Qed.

Lemma contains_remove token t l :
  contains token (remove t l) = negb (String.eqb token t) && contains token l.
Proof.
  unfold contains, remove. induction l as [|c l IH]; cbn.
  - rewrite andb_false_r. reflexivity.
  - destruct (String.eqb_spec c t) as [->|Hc]; cbn.
    + rewrite IH. destruct (String.eqb_spec token t); cbn; reflexivity.
    + rewrite IH. destruct (String.eqb_spec token t) as [->|]; cbn; [|reflexivity].
      destruct (String.eqb_spec t c) as [->|]; [contradiction|reflexivity].
Qed.

(** ** Running statements *)

Lemma bind_ok {A B : Type} (m : action A) (k : A -> action B) w a w' :
  m w = (Ok a, w') -> bind m k w = k a w'.
Proof. unfold bind. intros ->. reflexivity. Qed.

Lemma element_ok id w el : document w id = Some el -> element id w = (Ok el, w).
Proof. unfold element. intros ->. reflexivity. Qed.

Lemma update_ok id f w el :
  document w id = Some el ->
  update id f w
  = (Ok tt, mkWorld (put id (f el) (document w)) (appState w) (map w)
              (effects w) (backend w) (online w)).
Proof.
  intros H. unfold update.
  rewrite (bind_ok _ _ w el w (element_ok id w el H)). reflexivity.
Qed.

Lemma put_same id el d : put id el d id = Some el.
Proof. unfold put. rewrite String.eqb_refl. reflexivity. Qed.

Lemma put_other id el d k : k <> id -> put id el d k = d k.
Proof. unfold put. intros H. apply String.eqb_neq in H. rewrite H. reflexivity. Qed.

(** Finding an element after some replacements. *)
Ltac look :=
  cbn [document];
  first [ eassumption
        | apply put_same
        | rewrite put_other by (let H := fresh in intros H; discriminate H); look ].

(** One statement on an element that is there. *)
Ltac step :=
  first [ erewrite update_ok by look | erewrite element_ok by look ];
  cbv beta iota.

End ClientFacts.

Import Client ClientFacts.

Section ClientLemmas.

Context {rt : JSRuntime}.

Lemma toFixed_zero_like x f : F64.zero_like x = true -> toFixed x f = fixed_point 0 f.
Proof.
  unfold F64.zero_like, toFixed. destruct (Prim2SF x); try discriminate. reflexivity.
Qed.

Set Warnings "-inexact-float".

(** The emissions of a driven route of at most 25 m are written "0.00". *)
Lemma short_total_text d :
  (0 <=? d)%float = true -> (d <=? 0.025)%float = true ->
  toFixed (d * 0.192)%float 2 = "0.00".
Proof.
  intros H0 H1.
  destruct (Footprint.short_total_shape d H0 H1) as [Hz|(q & e & Hq & He & Hlt)].
  - rewrite (toFixed_zero_like _ _ Hz). reflexivity.
  - rewrite (toFixed_finite _ false q e 2 Hq).
    + unfold nearest_scaled. change (10 ^ Z.of_nat 2)%Z with 100%Z.
      assert (He' : (0 <=? e)%Z = false) by (apply Z.leb_gt; lia). rewrite He'.
      rewrite Z.div_small; [reflexivity|].
      replace (- e + 1)%Z with (Z.succ (- e)) by lia. rewrite Z.pow_succ_r by lia.
      lia.
    + rewrite (F64.abs_nonneg _ q e Hq), leb_spec, Hq.
      change (Prim2SF 1e21) with (S754_finite false 7629394531250000 17).
      unfold SFleb, SFcompare.
      destruct (Z.compare_spec 17 e); lia || reflexivity.
Qed.

(** The saving computed from these emissions: a division by zero. *)
Lemma short_saving_text d :
  (0 <=? d)%float = true -> (d <=? 0.025)%float = true ->
  toFixed ((StringToNumber "0.00" - d * 0.05) / StringToNumber "0.00" * 100)%float 0
  = (if PrimFloat.is_zero (d * 0.05) then "NaN" else Number_toString neg_infinity).
Proof.
  intros H0 H1. change (StringToNumber "0.00") with 0%float.
  set (b := (d * 0.05)%float).
  assert (Hzero : PrimFloat.is_zero b = F64.zero_like b).
  { unfold PrimFloat.is_zero, F64.zero_like. rewrite FloatAxioms.eqb_spec.
    change (Prim2SF PrimFloat.zero) with (S754_zero false).
    destruct (Prim2SF b) as [[]|[]| |[] m e]; reflexivity. }
  rewrite Hzero.
  destruct (Footprint.short_bus_shape d H0 H1) as [Hz|(q & e & Hq)]; fold b in Hz || fold b in Hq.
  - rewrite Hz.
    assert (E : ((0 - b) / 0 * 100)%float = nan).
    { apply F64.nan_spec. rewrite mul_spec, div_spec, sub_spec.
      unfold F64.zero_like in Hz. change (Prim2SF 0) with (S754_zero false).
      destruct (Prim2SF b) as [[]| | |]; try discriminate; reflexivity. }
    rewrite E. unfold toFixed. change (Prim2SF nan) with S754_nan. cbv iota.
    apply toString_nan.
  - assert (Hnz : F64.zero_like b = false) by (unfold F64.zero_like; rewrite Hq; reflexivity).
    rewrite Hnz.
    assert (E : ((0 - b) / 0 * 100)%float = neg_infinity).
    { apply Prim2SF_inj. rewrite mul_spec, div_spec, sub_spec, Hq. reflexivity. }
    rewrite E. reflexivity.
Qed.

Set Warnings "inexact-float".

(** What [switchSection] does to the two sections and to nothing else. *)
Lemma switchSection_spec sectionId w welcome dashboard :
  document w "welcome-section" = Some welcome ->
  document w "dashboard-section" = Some dashboard ->
  sectionId = "welcome-section" \/ sectionId = "dashboard-section" ->
  exists w' welcome' dashboard',
    switchSection sectionId w = (Ok tt, w')
    /\ document w' "welcome-section" = Some welcome'
    /\ document w' "dashboard-section" = Some dashboard'
    /\ contains "hidden" welcome'.(classList)
       = negb (String.eqb sectionId "welcome-section")
    /\ contains "hidden" dashboard'.(classList)
       = negb (String.eqb sectionId "dashboard-section")
    /\ contains "active-section" welcome'.(classList)
       = String.eqb sectionId "welcome-section"
    /\ (forall id, id <> "welcome-section" -> id <> "dashboard-section" ->
          document w' id = document w id)
    /\ appState w' = appState w /\ backend w' = backend w /\ online w' = online w
    /\ effects w'
       = (effects w
          ++ (if String.eqb sectionId "dashboard-section" && map w
              then [MapResize] else []))%list.
Proof.
  intros Hw Hd [-> | ->];
    unfold switchSection, classList_remove, classList_add, bind;
    repeat step; unfold get, ret, log; cbv beta iota;
    cbn [String.eqb Ascii.eqb Bool.eqb andb map document appState effects backend online].
  - eexists. eexists. eexists. split; [reflexivity|].
    split; [look|]. split; [look|].
    cbn [classList fold_left]. rewrite !contains_add, !contains_remove.
    split; [reflexivity|]. rewrite !contains_add.
    split; [reflexivity|]. split; [reflexivity|].
    split; [|rewrite app_nil_r; auto].
    intros id H1 H2. cbn [document]. rewrite !put_other by assumption. reflexivity.
  - destruct (map w);
      (eexists; eexists; eexists; split; [reflexivity|];
       split; [look|]; split; [look|];
       cbn [classList fold_left]; rewrite !contains_add, !contains_remove;
       split; [reflexivity|]; rewrite ?contains_add, ?contains_remove;
       split; [reflexivity|]; split; [reflexivity|];
       split; [|rewrite ?app_nil_r; auto];
       intros id H1 H2; cbn [document]; rewrite !put_other by assumption;
       reflexivity).
Qed.

Lemma fetch_ok req w out st :
  online w = true -> handle req (backend w) = (out, st) ->
  fetch req w
  = (Ok out, mkWorld (document w) (appState w) (map w) (effects w) st (online w)).
Proof. intros Ho Hh. unfold fetch. rewrite Ho, Hh. reflexivity. Qed.

End ClientLemmas.

(* ================================================================== *)
(** * Properties of the client *)
(* ================================================================== *)

(** X13: the colour of the footprint.  After [calculateCarbonFootprint],
    the element [metric-co2] carries the class [bad] exactly when the mode
    is DRIVING and the class [good] exactly when it is not, never both,
    whatever classes it carried before; its other classes are kept. *)
Theorem footprint_class_follows_mode {rt : JSRuntime} w co2 cmp :
  document w "metric-co2" = Some co2 -> document w "co2-comparison" = Some cmp ->
  let driving := String.eqb w.(appState).(transportMode) "DRIVING" in
  exists w' co2',
    calculateCarbonFootprint w = (Ok tt, w')
    /\ document w' "metric-co2" = Some co2'
    /\ contains "bad" co2'.(classList) = driving
    /\ contains "good" co2'.(classList) = negb driving
    /\ forall t, t <> "good" -> t <> "bad" ->
         contains t co2'.(classList) = contains t co2.(classList).
Proof.
  intros Hco2 Hcmp driving. subst driving.
  unfold calculateCarbonFootprint, get, bind at 1. cbv beta iota.
  destruct (String.eqb (transportMode (appState w)) "DRIVING");
    unfold set_innerText, classList_remove, classList_add, bind;
    repeat step;
    (eexists; eexists; split; [reflexivity|]; split; [look|];
     cbn [classList fold_left]; rewrite !contains_add, !contains_remove;
     split; [reflexivity|]; split; [reflexivity|];
     intros t Hg Hb; rewrite contains_add, contains_remove;
     apply String.eqb_neq in Hg; apply String.eqb_neq in Hb;
     rewrite Hg, Hb; reflexivity).
Qed.

Lemma footprint_class_follows_mode_witness :
  exists w' co2',
    @Client.calculateCarbonFootprint coarse_runtime
      (sample_world (signed_in None "DRIVING" 12.5)) = (Client.Ok tt, w')
    /\ Client.document w' "metric-co2" = Some co2'
    /\ Client.contains "bad" co2'.(Client.classList) = true
    /\ Client.contains "good" co2'.(Client.classList) = false
    /\ forall t, t <> "good" -> t <> "bad" ->
         Client.contains t co2'.(Client.classList) = Client.contains t ["metric"; "good"].
Proof.
  exact (@footprint_class_follows_mode coarse_runtime
           (sample_world (signed_in None "DRIVING" 12.5))
           (blank ["metric"; "good"] "") (blank [] "") eq_refl eq_refl).
Defined.

(** X14: modes without a factor.  For every mode other than DRIVING and
    TRANSIT (walking, cycling, and any value the switch does not list) and
    every finite distance, the emissions shown are "0.00 kg" and the
    comparison reads "Excellent Choice!". *)
Theorem zero_emission_modes {rt : JSRuntime} w co2 cmp :
  document w "metric-co2" = Some co2 -> document w "co2-comparison" = Some cmp ->
  String.eqb w.(appState).(transportMode) "DRIVING" = false ->
  String.eqb w.(appState).(transportMode) "TRANSIT" = false ->
  Number_isFinite w.(appState).(routeDistanceKm) = true ->
  exists w' co2' cmp',
    calculateCarbonFootprint w = (Ok tt, w')
    /\ document w' "metric-co2" = Some co2'
    /\ document w' "co2-comparison" = Some cmp'
    /\ co2'.(innerText) = "0.00 kg"
    /\ cmp'.(innerText) = "Excellent Choice!".
Proof.
  intros Hco2 Hcmp Hd Ht Hfin.
  unfold calculateCarbonFootprint, get, bind at 1. cbv beta iota.
  rewrite Hd, Ht.
  assert (Hf : (if String.eqb (transportMode (appState w)) "BICYCLING"
                   || String.eqb (transportMode (appState w)) "WALKING"
                then FACTOR_BIKE_WALK else 0%float) = 0%float).
  { destruct (_ || _); reflexivity. }
  rewrite Hf, (toFixed_zero_like _ 2 (F64.mul_zero_r _ Hfin)).
  unfold set_innerText, classList_remove, classList_add, bind.
  repeat step.
  eexists. eexists. eexists. split; [reflexivity|].
  split; [look|]. split; [look|]. split; reflexivity.
Qed.

Lemma zero_emission_modes_witness :
  exists w' co2' cmp',
    @Client.calculateCarbonFootprint coarse_runtime
      (sample_world (signed_in None "WALKING" 3.5)) = (Client.Ok tt, w')
    /\ Client.document w' "metric-co2" = Some co2'
    /\ Client.document w' "co2-comparison" = Some cmp'
    /\ co2'.(Client.innerText) = "0.00 kg"
    /\ cmp'.(Client.innerText) = "Excellent Choice!".
Proof.
  exact (@zero_emission_modes coarse_runtime
           (sample_world (signed_in None "WALKING" 3.5))
           (blank ["metric"; "good"] "") (blank [] "")
           eq_refl eq_refl eq_refl eq_refl eq_refl).
Defined.

Set Warnings "-inexact-float".

(** X15: the saving of a short drive.  For a driven route of at most
    25 m the emissions are shown as "0.00 kg", and because the saving is
    computed from that rounded string the comparison divides by zero: it
    reads "Could save -Infinity% by Bus" (the numeral of negative infinity),
    or "Could save NaN% by Bus" when the bus emissions are zero too
    (distance 0). *)
Theorem short_drive_saving {rt : JSRuntime} w co2 cmp :
  document w "metric-co2" = Some co2 -> document w "co2-comparison" = Some cmp ->
  w.(appState).(transportMode) = "DRIVING" ->
  (0 <=? w.(appState).(routeDistanceKm))%float = true ->
  (w.(appState).(routeDistanceKm) <=? 0.025)%float = true ->
  exists w' co2' cmp',
    calculateCarbonFootprint w = (Ok tt, w')
    /\ document w' "metric-co2" = Some co2'
    /\ document w' "co2-comparison" = Some cmp'
    /\ co2'.(innerText) = "0.00 kg"
    /\ cmp'.(innerText)
       = "Could save "
         ++ (if PrimFloat.is_zero (w.(appState).(routeDistanceKm) * FACTOR_BUS)
             then "NaN" else Number_toString neg_infinity)
         ++ "% by Bus".
Proof.
  intros Hco2 Hcmp Hmode H0 H1.
  unfold calculateCarbonFootprint, get, bind at 1. cbv beta iota. rewrite Hmode.
  change (String.eqb "DRIVING" "DRIVING") with true. cbv iota.
  unfold FACTOR_CAR_GAS, FACTOR_BUS.
  rewrite (short_total_text _ H0 H1), (short_saving_text _ H0 H1).
  unfold set_innerText, classList_remove, classList_add, bind.
  repeat step.
  eexists. eexists. eexists. split; [reflexivity|].
  split; [look|]. split; [look|]. split; reflexivity.
Qed.

Set Warnings "inexact-float".

Lemma short_drive_saving_witness :
  exists w' co2' cmp',
    @Client.calculateCarbonFootprint coarse_runtime
      (sample_world (signed_in None "DRIVING" 0.0078125)) = (Client.Ok tt, w')
    /\ Client.document w' "metric-co2" = Some co2'
    /\ Client.document w' "co2-comparison" = Some cmp'
    /\ co2'.(Client.innerText) = "0.00 kg"
    /\ cmp'.(Client.innerText) = "Could save -Infinity% by Bus".
Proof.
  exact (@short_drive_saving coarse_runtime
           (sample_world (signed_in None "DRIVING" 0.0078125))
           (blank ["metric"; "good"] "") (blank [] "")
           eq_refl eq_refl eq_refl eq_refl eq_refl).
Defined.

(** X16: the mock air quality index.  For every value of [Math.random()]
    (a Number from 0 up to, not including, 1) the index is an integer from
    20 to 159; the text shown is its numeral followed by " (Good)" below
    50, " (Unhealthy)" above 100 and " (Moderate)" otherwise, and the
    element carries [good] exactly below 50 and [bad] exactly above 100. *)
Theorem mock_index_is_banded {rt : JSRuntime} w el random :
  document w "metric-aqi" = Some el ->
  (0 <=? random)%float = true -> (random <? 1)%float = true ->
  exists (k : Z) w' el',
    (20 <= k <= 159)%Z
    /\ fetchAirQualityData random w = (Ok tt, w')
    /\ document w' "metric-aqi" = Some el'
    /\ el'.(innerText)
       = Number_toString (number_of_Z k)
         ++ (if (k <? 50)%Z then " (Good)"
             else if (100 <? k)%Z then " (Unhealthy)" else " (Moderate)")
    /\ contains "good" el'.(classList) = (k <? 50)%Z
    /\ contains "bad" el'.(classList) = (100 <? k)%Z.
Proof.
  intros Hel H0 H1.
  destruct (mockAQI_range random H0 H1) as (k & Hk & Ha & Hlt & Hgt).
  exists k. unfold fetchAirQualityData. rewrite Ha, Hlt, Hgt.
  unfold set_innerText, classList_remove, classList_add, bind.
  do 2 step.
  assert (Hgood : (k <? 50)%Z = true -> (100 <? k)%Z = false).
  { intros H. apply Z.ltb_lt in H. apply Z.ltb_ge. lia. }
  destruct (k <? 50)%Z eqn:E50; [rewrite (Hgood eq_refl)|destruct (100 <? k)%Z eqn:E100];
    repeat step;
    (eexists; eexists; split; [exact Hk|]; split; [reflexivity|];
     split; [look|]; cbn [innerText classList fold_left];
     split; [reflexivity|];
     rewrite ?contains_add, !contains_remove; split; reflexivity).
Qed.

Lemma mock_index_is_banded_witness :
  exists (k : Z) w' el',
    (20 <= k <= 159)%Z
    /\ @Client.fetchAirQualityData coarse_runtime 0.75 (sample_world signed_out)
       = (Client.Ok tt, w')
    /\ Client.document w' "metric-aqi" = Some el'
    /\ el'.(Client.innerText)
       = @Number_toString coarse_runtime (number_of_Z k)
         ++ (if (k <? 50)%Z then " (Good)"
             else if (100 <? k)%Z then " (Unhealthy)" else " (Moderate)")
    /\ Client.contains "good" el'.(Client.classList) = (k <? 50)%Z
    /\ Client.contains "bad" el'.(Client.classList) = (100 <? k)%Z.
Proof.
  exact (@mock_index_is_banded coarse_runtime (sample_world signed_out)
           (blank ["metric"] "") 0.75%float eq_refl eq_refl eq_refl).
Defined.

(** X17: one section at a time.  After [switchSection] with the id of one
    of the two sections, that section is not hidden and the other one is,
    whatever classes they carried before, and the welcome section is the
    active one exactly when it is the one shown. *)
Theorem switchSection_shows_one sectionId w welcome dashboard :
  document w "welcome-section" = Some welcome ->
  document w "dashboard-section" = Some dashboard ->
  sectionId = "welcome-section" \/ sectionId = "dashboard-section" ->
  exists w' welcome' dashboard',
    switchSection sectionId w = (Ok tt, w')
    /\ document w' "welcome-section" = Some welcome'
    /\ document w' "dashboard-section" = Some dashboard'
    /\ contains "hidden" welcome'.(classList)
       = negb (String.eqb sectionId "welcome-section")
    /\ contains "hidden" dashboard'.(classList)
       = negb (String.eqb sectionId "dashboard-section")
    /\ contains "active-section" welcome'.(classList)
       = String.eqb sectionId "welcome-section".
Proof.
  intros Hw Hd Hs.
  destruct (switchSection_spec sectionId w welcome dashboard Hw Hd Hs)
    as (w' & we & da & H1 & H2 & H3 & H4 & H5 & H6 & _).
  exists w', we, da. auto 10.
Qed.

Lemma switchSection_shows_one_witness :
  exists w' welcome' dashboard',
    @Client.switchSection "dashboard-section" (sample_world signed_out)
    = (Client.Ok tt, w')
    /\ Client.document w' "welcome-section" = Some welcome'
    /\ Client.document w' "dashboard-section" = Some dashboard'
    /\ Client.contains "hidden" welcome'.(Client.classList) = true
    /\ Client.contains "hidden" dashboard'.(Client.classList) = false
    /\ Client.contains "active-section" welcome'.(Client.classList) = false.
Proof.
  exact (@switchSection_shows_one "dashboard-section" (sample_world signed_out)
           (blank ["active-section"] "") (blank ["hidden"] "")
           eq_refl eq_refl (or_intror eq_refl)).
Defined.



(** X19: a refused login.  When no registered user has the email and
    password typed, [performLogin] writes the server's message
    "Invalid email or password." into [auth-feedback] and changes nothing
    else: not the global state, not another element, not the server. *)
Theorem login_form_rejects {rt : JSRuntime} w emailEl passwordEl feedback :
  online w = true ->
  document w "login-email" = Some emailEl ->
  document w "login-password" = Some passwordEl ->
  find (fun u => strict_eq u.(email) (JStr emailEl.(value))
                 && strict_eq u.(password) (JStr passwordEl.(value)))
       (users (backend w)) = None ->
  document w "auth-feedback" = Some feedback ->
  exists w' feedback',
    performLogin w = (Ok tt, w')
    /\ appState w' = appState w
    /\ document w' "auth-feedback" = Some feedback'
    /\ feedback'.(innerText) = "Invalid email or password."
    /\ (forall id, id <> "auth-feedback" -> document w' id = document w id)
    /\ backend w' = backend w.
Proof.
  intros Ho Hemail Hpassword Hnone Hfeedback.
  assert (Hlogin : login (JStr emailEl.(value)) (JStr passwordEl.(value)) (backend w)
                   = (json 401 (ErrorBody "Invalid email or password."), backend w)).
  { unfold login. rewrite Hnone. reflexivity. }
  unfold performLogin, try_catch, bind.
  do 2 step.
  rewrite (fetch_ok (Login (JStr emailEl.(value)) (JStr passwordEl.(value))) w _ _
             Ho Hlogin).
  cbn [ok res_json json status body Nat.leb andb ret data_error].
  unfold assign_innerText. cbn [DOMString ToString]. unfold set_innerText. step.
  eexists. eexists. split; [reflexivity|].
  cbn [appState backend document]. split; [reflexivity|].
  split; [look|]. split; [reflexivity|]. split; [|reflexivity].
  intros id Hid. rewrite put_other by assumption. reflexivity.
Qed.

(** The sample tab with another password typed in. *)
Definition mistyped_world : Client.World :=
  Client.mkWorld (Client.put "login-password" (blank [] "Secret") sample_page)
    signed_out false [] one_user true.

Lemma login_form_rejects_witness :
  exists w' feedback',
    @Client.performLogin coarse_runtime mistyped_world = (Client.Ok tt, w')
    /\ Client.appState w' = signed_out
    /\ Client.document w' "auth-feedback" = Some feedback'
    /\ feedback'.(Client.innerText) = "Invalid email or password."
    /\ (forall id, id <> "auth-feedback" ->
          Client.document w' id = Client.document mistyped_world id)
    /\ Client.backend w' = one_user.
Proof.
  exact (@login_form_rejects coarse_runtime mistyped_world
           (blank [] "ann@example.org") (blank [] "Secret") (blank [] "")
           eq_refl eq_refl eq_refl eq_refl eq_refl).
Defined.

(** X20: logout.  [performLogout] sets the token to [null] and keeps
    [appState.user]; a [publishRideRequest] that follows shows the alert
    "You must be logged in to use Carpooling." and leaves the server as it
    was before the logout. *)
Theorem logged_out_client_cannot_publish {rt : JSRuntime}
    w welcome dashboard now stamp :
  document w "welcome-section" = Some welcome ->
  document w "dashboard-section" = Some dashboard ->
  exists w1 w2,
    performLogout w = (Ok tt, w1)
    /\ (appState w1).(token) = JNull
    /\ (appState w1).(user) = (appState w).(user)
    /\ publishRideRequest now stamp w1 = (Ok tt, w2)
    /\ effects w2
       = (effects w1 ++ [Alert "You must be logged in to use Carpooling."])%list
    /\ backend w2 = backend w.
Proof.
  intros Hwelcome Hdashboard.
  unfold performLogout, bind, get, set_appState. cbv beta iota.
  match goal with
  | |- context [switchSection "welcome-section" ?w0] =>
      destruct (switchSection_spec "welcome-section" w0 welcome dashboard)
        as (w1 & we & da & Hs & _ & _ & _ & _ & _ & _ & Happ & Hback & _)
  end; [look|look|left; reflexivity|].
  rewrite Hs. exists w1. eexists. split; [reflexivity|].
  cbn [appState backend] in Happ, Hback.
  rewrite Happ. cbn [token user]. split; [reflexivity|]. split; [reflexivity|].
  unfold publishRideRequest, bind, get. cbv beta iota. rewrite Happ.
  cbn [token truthy negb]. unfold alert, log.
  split; [reflexivity|]. cbn [effects backend]. auto.
Qed.

Lemma logged_out_client_cannot_publish_witness :
  exists w1 w2,
    @Client.performLogout
      (sample_world (signed_in (Some (Client.mkLatLng 12.5 77.5)) "DRIVING" 0))
    = (Client.Ok tt, w1)
    /\ (Client.appState w1).(Client.token) = JNull
    /\ (Client.appState w1).(Client.user)
       = Some (LoginBody "Login successful" "1730000000000" (JStr "Ann"))
    /\ @Client.publishRideRequest coarse_runtime 1730000000600 1730000000600 w1
       = (Client.Ok tt, w2)
    /\ Client.effects w2
       = (Client.effects w1
          ++ [Client.Alert "You must be logged in to use Carpooling."])%list
    /\ Client.backend w2 = one_user.
Proof.
  exact (@logged_out_client_cannot_publish coarse_runtime
           (sample_world (signed_in (Some (Client.mkLatLng 12.5 77.5)) "DRIVING" 0))
           (blank ["active-section"] "") (blank ["hidden"] "")
           1730000000600%N 1730000000600%N eq_refl eq_refl).
Defined.

(** X21: a refused publication is silent.  For a logged-in client whose
    origin has latitude 0 or longitude 0, the server refuses the request
    ([!lat || !lng]) and [publishRideRequest] does nothing that can be
    seen: no alert, no console error, no call, and nothing is stored. *)
Theorem publish_from_equator_is_silent {rt : JSRuntime}
    w now stamp place roleEl seatsEl destinationEl :
  online w = true ->
  truthy (appState w).(token) = true ->
  (appState w).(originPlace) = Some place ->
  PrimFloat.is_zero place.(Client.lat) = true
  \/ PrimFloat.is_zero place.(Client.lng) = true ->
  document w "cp-role" = Some roleEl ->
  document w "cp-seats" = Some seatsEl ->
  document w "destination-input" = Some destinationEl ->
  exists w',
    publishRideRequest now stamp w = (Ok tt, w')
    /\ effects w' = effects w
    /\ backend w' = backend w
    /\ appState w' = appState w
    /\ document w' = document w.
Proof.
  intros Ho Ht Hplace Hzero Hrole Hseats Hdest.
  unfold publishRideRequest. unfold bind at 1, get. cbv beta iota.
  rewrite Ht, Hplace. cbn [negb]. unfold try_catch, bind. do 3 step.
  erewrite fetch_ok; [|exact Ho|].
  2:{ cbn [handle]. apply publish_missing.
      assert (Hfalsy : forall x, PrimFloat.is_zero x = true ->
                truthy (json_value (JNum x)) = false).
      { intros x Hx. unfold json_value. rewrite Hx.
        destruct (Number_isFinite x); reflexivity. }
      destruct Hzero as [Hz|Hz]; rewrite (Hfalsy _ Hz);
        rewrite ?andb_false_r; reflexivity. }
  cbn [ok json status Nat.leb andb ret].
  eexists. split; [reflexivity|]. cbn [effects backend appState document]. auto.
Qed.

Lemma publish_from_equator_is_silent_witness :
  exists w',
    @Client.publishRideRequest coarse_runtime 1730000000600 1730000000600
      (sample_world (signed_in (Some (Client.mkLatLng 0 77.5)) "DRIVING" 0))
    = (Client.Ok tt, w')
    /\ Client.effects w' = []
    /\ Client.backend w' = one_user
    /\ Client.appState w' = signed_in (Some (Client.mkLatLng 0 77.5)) "DRIVING" 0
    /\ Client.document w' = sample_page.
Proof.
  exact (@publish_from_equator_is_silent coarse_runtime
           (sample_world (signed_in (Some (Client.mkLatLng 0 77.5)) "DRIVING" 0))
           1730000000600%N 1730000000600%N (Client.mkLatLng 0 77.5)
           (blank [] "DRIVER") (blank [] "3") (blank [] "Airport")
           eq_refl eq_refl eq_refl (or_introl eq_refl) eq_refl eq_refl eq_refl).
Defined.

(** X22: the publish form against the server.  For a logged-in client
    with a string token, at an origin with finite coordinates other than
    0, [publishRideRequest] stores one ride under that token, with the
    coordinates the server reads back from their numerals, the role, the
    seats parsed as an integer and the destination; then it alerts and
    starts [findMatches] and [handleNotificationSetup]. *)
Theorem publish_form_stores_ride {rt : JSRuntime}
    w now stamp place t roleEl seatsEl destinationEl :
  online w = true ->
  (appState w).(token) = JStr t -> truthy (JStr t) = true ->
  (appState w).(originPlace) = Some place ->
  Number_isFinite place.(Client.lat) = true ->
  PrimFloat.is_zero place.(Client.lat) = false ->
  Number_isFinite place.(Client.lng) = true ->
  PrimFloat.is_zero place.(Client.lng) = false ->
  document w "cp-role" = Some roleEl ->
  document w "cp-seats" = Some seatsEl ->
  document w "destination-input" = Some destinationEl ->
  exists w',
    publishRideRequest now stamp w = (Ok tt, w')
    /\ backend w'
       = mkServer (users (backend w))
           (rides (backend w)
            ++ [mkRide (decimal_numeral now) (JStr t)
                  (parseFloat_string (Number_toString place.(Client.lat)))
                  (parseFloat_string (Number_toString place.(Client.lng)))
                  (JStr destinationEl.(value)) (JStr roleEl.(value))
                  (parseInt_string seatsEl.(value)) stamp])
    /\ effects w'
       = (effects w
          ++ [Alert "Ride Request Published!"; Call "findMatches";
              Call "handleNotificationSetup"])%list.
Proof.
  intros Ho Ht Tt Hplace Flat Zlat Flng Zlng Hrole Hseats Hdest.
  assert (Hnum : forall x, Number_isFinite x = true -> PrimFloat.is_zero x = false ->
            json_value (JNum x) = JNum x /\ truthy (JNum x) = true).
  { intros x Fx Zx. unfold json_value. rewrite Fx, Zx. split; [reflexivity|].
    cbn [truthy]. rewrite Zx, orb_false_r. apply negb_true_iff.
    unfold Number_isFinite in Fx. unfold PrimFloat.is_nan.
    rewrite FloatAxioms.eqb_spec.
    destruct (Prim2SF x) as [[]|[]| |[] m e]; try discriminate; try reflexivity.
    all: cbn; rewrite Z.compare_refl, Pos.compare_cont_refl; reflexivity. }
  destruct (Hnum _ Flat Zlat) as [Jlat Tlat]. destruct (Hnum _ Flng Zlng) as [Jlng Tlng].
  unfold publishRideRequest. unfold bind at 1, get. cbv beta iota.
  rewrite Ht, Tt, Hplace. cbn [negb]. unfold try_catch, bind. do 3 step.
  cbn [json_value]. fold (json_value (JNum place.(Client.lat))).
  fold (json_value (JNum place.(Client.lng))). rewrite Jlat, Jlng.
  pose proof (publish_stores now stamp (JStr t) (JNum place.(Client.lat))
                (JNum place.(Client.lng)) (JStr roleEl.(value)) (JStr seatsEl.(value))
                (JStr destinationEl.(value)) (backend w) _ _ _
                ltac:(rewrite Tt, Tlat, Tlng; reflexivity) eq_refl eq_refl eq_refl)
    as [Hsnd Hfst].
  specialize (Hfst ltac:(eexists; reflexivity)).
  erewrite fetch_ok; [|exact Ho|].
  2:{ cbn [handle]. apply injective_projections; cbn [fst snd]; [exact Hfst|exact Hsnd]. }
  cbn [ok json status Nat.leb andb ret]. unfold alert, log. cbv beta iota.
  eexists. split; [reflexivity|]. cbn [effects backend].
  split; [reflexivity|]. rewrite <- !app_assoc. reflexivity.
Qed.

Lemma publish_form_stores_ride_witness :
  exists w',
    @Client.publishRideRequest coarse_runtime 1730000000600 1730000000600
      (sample_world (signed_in (Some (Client.mkLatLng 12.5 77.5)) "DRIVING" 0))
    = (Client.Ok tt, w')
    /\ Client.backend w'
       = mkServer [ann]
           [mkRide "1730000000600" (JStr "1730000000000") 12.5 77.5
              (JStr "Airport") (JStr "DRIVER") 3 1730000000600]
    /\ Client.effects w'
       = [Client.Alert "Ride Request Published!"; Client.Call "findMatches";
          Client.Call "handleNotificationSetup"].
Proof.
  exact (@publish_form_stores_ride coarse_runtime
           (sample_world (signed_in (Some (Client.mkLatLng 12.5 77.5)) "DRIVING" 0))
           1730000000600%N 1730000000600%N (Client.mkLatLng 12.5 77.5)
           "1730000000000" (blank [] "DRIVER") (blank [] "3") (blank [] "Airport")
           eq_refl eq_refl eq_refl eq_refl eq_refl eq_refl eq_refl eq_refl
           eq_refl eq_refl eq_refl).
Defined.

(* ================================================================== *)
(** * The browser built-ins and the client on sample inputs *)
(* ================================================================== *)

Set Warnings "-inexact-float".

Example StringToNumber_samples :
  List.map StringToNumber
    ["0.00"; "-0.00"; "12.34"; " 5. "; ".5e1"; ""; "  "; "Infinity"; "-Infinity";
     "NaN"; "12px"; "0x1F"; "-0x1F"; "0b101"; "0o17"; "1e"; "1e+2"; "1e21"; "."; "+.5"]
  = [0; -0; 12.34; 5; 5; 0; 0; infinity; neg_infinity;
     nan; nan; 31; nan; 5; 15; nan; 100; 1e21; nan; 0.5]%float.
Proof. vm_compute. reflexivity. Qed.

Example Math_floor_samples :
  List.map Math_floor [0; -0; 0.5; -0.5; 139.99; 2.5; -2.5; 1e300; nan; infinity; 7]%float
  = [0; -0; 0; -1; 139; 2; -3; 1e300; nan; infinity; 7]%float.
Proof. vm_compute. reflexivity. Qed.

Set Warnings "inexact-float".

Example sample_login :
  let w := snd (@Client.performLogin coarse_runtime (sample_world signed_out)) in
  Client.appState w = signed_in None "DRIVING" 0
  /\ option_map Client.innerText (Client.document w "user-name-display") = Some "Ann"
  /\ option_map Client.classList (Client.document w "welcome-section") = Some ["hidden"]
  /\ option_map Client.classList (Client.document w "dashboard-section") = Some [].
Proof. vm_compute. auto. Qed.

Example sample_footprint :
  let w := snd (@Client.calculateCarbonFootprint coarse_runtime
                  (sample_world (signed_in None "DRIVING" 12.5))) in
  Client.document w "metric-co2" = Some (Client.mkElement "2.40 kg" ["metric"; "bad"] "")
  /\ option_map Client.innerText (Client.document w "co2-comparison")
     = Some "Could save 74% by Bus".
Proof. vm_compute. auto. Qed.

Example sample_air_quality :
  let w := snd (@Client.fetchAirQualityData coarse_runtime 0.75
                  (sample_world signed_out)) in
  Client.document w "metric-aqi"
  = Some (Client.mkElement "125 (Unhealthy)" ["metric"; "bad"] "").
Proof. vm_compute. auto. Qed.

Example sample_publish :
  let w := snd (@Client.publishRideRequest coarse_runtime 1730000000123 1730000000123
                  (sample_world
                     (signed_in (Some (Client.mkLatLng 12.5 77.5)) "DRIVING" 0))) in
  rides (Client.backend w)
  = [mkRide "1730000000123" (JStr "1730000000000") 12.5 77.5
       (JStr "Airport") (JStr "DRIVER") 3 1730000000123]
  /\ Client.effects w
     = [Client.Alert "Ride Request Published!"; Client.Call "findMatches";
        Client.Call "handleNotificationSetup"].
Proof. vm_compute. auto. Qed.
